(** * Degen-Scraper: the resilient collection pipeline

    A shallow embedding of the parts of [TwitterPipeline.js],
    [DataOrganizer.js] and [merge_characters.js] that decide how raw records
    are normalised, collected, merged and summarised, with the properties the
    specification states about them.

    Conventions of the embedding.
    - A JavaScript number that holds a timestamp or a counter is a [Z]; where
      the code can meet [NaN] the type is [num].  Delays are in [Q], without
      the rounding of IEEE doubles; the average of the analytics snapshot is
      the double nearest the quotient, given as the rational it stands for.
    - [undefined]/[null] fields are [option] values, [None] standing for the
      absent field.
    - [this.stats] is threaded explicitly through the functions that mutate it.
    - A [Map] is an insertion-ordered association list, a [Set] an
      insertion-ordered list of values compared with SameValueZero.  A plain
      object used as a table is the list of its own properties, looked up
      through [Object.prototype]. *)

From Stdlib Require Import ZArith QArith Qabs Qround Qminmax Qpower List String Ascii Bool Lia.
From Stdlib Require Import DecimalString Sorted Permutation Lqa.
Import ListNotations.

Local Open Scope string_scope.
Local Open Scope Z_scope.

(** ** JavaScript values used by the pipeline *)

Module Js.

(** A number that may be [NaN]. *)
Inductive num : Type :=
| NaN
| Num (z : Z).

(** [!x] on a number: [0] and [NaN] are falsy. *)
Definition falsy_num (x : num) : bool :=
  match x with
  | NaN => true
  | Num z => z =? 0
  end.

(** [!s] on a string: only the empty string is falsy. *)
Definition truthy_str (s : string) : bool :=
  negb (String.eqb s "").

(** [!x] on a possibly-undefined string. *)
Definition truthy_ostr (s : option string) : bool :=
  match s with
  | Some s => truthy_str s
  | None => false
  end.

(** [x < y], [x <= y], [x >= y], [x > y]: every comparison with [NaN] is
    false. *)
Definition lt (x y : num) : bool :=
  match x, y with
  | Num a, Num b => a <? b
  | _, _ => false
  end.

Definition le (x y : num) : bool :=
  match x, y with
  | Num a, Num b => a <=? b
  | _, _ => false
  end.

Definition ge (x y : num) : bool := le y x.
Definition gt (x y : num) : bool := lt y x.

Definition isNaN (x : num) : bool :=
  match x with
  | NaN => true
  | Num _ => false
  end.

(** [x * k] for an integer constant [k]. *)
Definition mulz (x : num) (k : Z) : num :=
  match x with
  | NaN => NaN
  | Num z => Num (z * k)
  end.

(** [x || d] on an optional number. *)
Definition or_default (x : option Z) (d : Z) : Z :=
  match x with
  | Some z => if z =? 0 then d else z
  | None => d
  end.

(** [x || []] on an optional array. *)
Definition or_empty {A : Type} (x : option (list A)) : list A :=
  match x with
  | Some l => l
  | None => []
  end.

(** [Boolean(x)] on an optional boolean. *)
Definition to_bool (x : option bool) : bool :=
  match x with
  | Some b => b
  | None => false
  end.

(** Outcome of code that may throw. *)
Inductive exc (A : Type) : Type :=
| Ok (a : A)
| Throw (msg : string).

Arguments Ok {A} a.
Arguments Throw {A} msg.

(** *** Date objects

    A [Date] is its time value: an integer number of milliseconds within
    +/- 8.64e15 of the epoch, or [NaN] (an "Invalid Date"). *)
Definition maxTime : Z := 8640000000000000.

Definition validTime (z : Z) : bool :=
  (- maxTime <=? z) && (z <=? maxTime).

(** [new Date(x)] for a number [x]. *)
Definition newDate (x : num) : num :=
  match x with
  | NaN => NaN
  | Num z => if validTime z then Num z else NaN
  end.

(** *** Map with insertion order, as [new Map()] *)
Section JsMap.
Context {K V : Type} (eqb : K -> K -> bool).

Definition jsmap : Type := list (K * V).

Fixpoint map_has (m : jsmap) (k : K) : bool :=
  match m with
  | [] => false
  | (k', _) :: m' => eqb k k' || map_has m' k
  end.

Fixpoint map_get (m : jsmap) (k : K) : option V :=
  match m with
  | [] => None
  | (k', v) :: m' => if eqb k k' then Some v else map_get m' k
  end.

(** [m.set(k, v)]: an existing key keeps its position and takes the new
    value; a new key goes last. *)
Fixpoint map_set (m : jsmap) (k : K) (v : V) : jsmap :=
  match m with
  | [] => [(k, v)]
  | (k', v') :: m' =>
      if eqb k k' then (k', v) :: m' else (k', v') :: map_set m' k v
  end.

(** [Array.from(m.values())]. *)
Definition map_values (m : jsmap) : list V := List.map snd m.

Definition map_keys (m : jsmap) : list K := List.map fst m.
End JsMap.

(** Keys of the pipeline's maps are [tweet.id] values: a string or
    [undefined]. *)
Definition key_eqb (a b : option string) : bool :=
  match a, b with
  | Some x, Some y => String.eqb x y
  | None, None => true
  | _, _ => false
  end.

(** *** Array.prototype.sort and slice

    [sort] is stable and orders [a] before [b] when [cmp a b <= 0]; for a
    consistent comparator its result is determined by these two facts, and the
    insertion sort below computes it. *)
Section Sort.
Context {A : Type} (cmp : A -> A -> Z).

Fixpoint insert (x : A) (l : list A) : list A :=
  match l with
  | [] => [x]
  | y :: l' => if cmp x y <=? 0 then x :: y :: l' else y :: insert x l'
  end.

Fixpoint sort (l : list A) : list A :=
  match l with
  | [] => []
  | x :: l' => insert x (sort l')
  end.
End Sort.

(** [l.slice(0, e)]: a negative [e] counts from the end. *)
Definition slice0 {A : Type} (e : Z) (l : list A) : list A :=
  let len := Z.of_nat (List.length l) in
  let stop := if e <? 0 then Z.max (len + e) 0 else Z.min e len in
  firstn (Z.to_nat stop) l.

End Js.

Import Js.

(** ** Data model *)

(** A raw record as the search capability yields it (the fields
    [processTweetData] reads).  [raw_timeParsed] is the [getTime()] of the
    [timeParsed] date when the field is present. *)
Record RawTweet : Type := mkRawTweet {
  raw_id : option string;
  raw_text : option string;
  raw_username : option string;
  raw_timestamp : option num;
  raw_timeParsed : option num;
  raw_isReply : option bool;
  raw_isRetweet : option bool;
  raw_likes : option Z;
  raw_retweets : option Z;
  raw_replies : option Z;
  raw_photos : option (list string);
  raw_videos : option (list string);
  raw_urls : option (list string);
  raw_permanentUrl : option string;
  raw_quotedStatusId : option string;
  raw_inReplyToStatusId : option string;
  raw_hashtags : option (list string)
}.

(** The canonical record [processTweetData] builds and the organizer stores.
    [timestamp] is [None] for a JSON [null]. *)
Record Tweet : Type := mkTweet {
  id : string;
  text : option string;
  username : string;
  timestamp : option Z;
  createdAt : string;
  isReply : bool;
  isRetweet : bool;
  likes : Z;
  retweetCount : Z;
  replies : Z;
  photos : list string;
  videos : list string;
  urls : list string;
  permanentUrl : option string;
  quotedStatusId : option string;
  inReplyToStatusId : option string;
  hashtags : list string
}.

(** [this.stats] of [TwitterPipeline].  A date field is [None] for [null] and
    otherwise the time value of the [Date] object. *)
Record Stats : Type := mkStats {
  requestCount : Z;
  rateLimitHits : Z;
  retriesCount : Z;
  uniqueTweets : Z;
  fallbackCount : Z;
  startTime : Z;
  oldestTweetDate : option num;
  newestTweetDate : option num;
  fallbackUsed : bool
}.

Definition initialStats (now : Z) : Stats :=
  mkStats 0 0 0 0 0 now None None false.

Definition set_rateLimitHits (st : Stats) (v : Z) : Stats :=
  mkStats (requestCount st) v (retriesCount st) (uniqueTweets st)
          (fallbackCount st) (startTime st) (oldestTweetDate st)
          (newestTweetDate st) (fallbackUsed st).

Definition set_fallbackCount (st : Stats) (v : Z) : Stats :=
  mkStats (requestCount st) (rateLimitHits st) (retriesCount st)
          (uniqueTweets st) v (startTime st) (oldestTweetDate st)
          (newestTweetDate st) (fallbackUsed st).

Definition set_oldestTweetDate (st : Stats) (d : option num) : Stats :=
  mkStats (requestCount st) (rateLimitHits st) (retriesCount st)
          (uniqueTweets st) (fallbackCount st) (startTime st) d
          (newestTweetDate st) (fallbackUsed st).

Definition set_newestTweetDate (st : Stats) (d : option num) : Stats :=
  mkStats (requestCount st) (rateLimitHits st) (retriesCount st)
          (uniqueTweets st) (fallbackCount st) (startTime st)
          (oldestTweetDate st) d (fallbackUsed st).

(** [this.config]: the numeric tuning the modelled functions read. *)
Record Config : Type := mkConfig {
  maxTweets : Z;
  minDelayBetweenRequests : Z;
  maxDelayBetweenRequests : Z;
  rateLimitThreshold : Z;
  sessionDuration : Z
}.

Definition defaultConfig : Config :=
  mkConfig 50000 1000 3000 3 (30 * 60 * 1000).

(** The command-line options [collectTweets] reads. *)
Record Options : Type := mkOptions {
  startDate : option string;
  endDate : option string
}.

(** ** Rate-limit controller *)

Local Open Scope Q_scope.

(** [x || d] on a delay argument: [null], [undefined] and [0] give the
    default. *)
Definition delay_or (x : option Q) (d : Z) : Q :=
  match x with
  | Some q => if Qeq_bool q 0 then inject_Z d else q
  | None => inject_Z d
  end.

(** [gaussianRand]: the mean of six [Math.random()] draws. *)
Definition gaussianRand (draws : list Q) : Q :=
  fold_left Qplus (firstn 6 draws) 0 / 6.

(** [randomDelay(min, max)]: the number of milliseconds it sleeps, from the
    six draws it makes. *)
Definition randomDelay (cfg : Config) (min max : option Q) (draws : list Q)
  : Z :=
  let minDelay := delay_or min (minDelayBetweenRequests cfg) in
  let maxDelay := delay_or max (maxDelayBetweenRequests cfg) in
  Qfloor (minDelay + gaussianRand draws * (maxDelay - minDelay)).

(** What one call of [handleRateLimit] computes. *)
Record RateLimitWait : Type := mkRateLimitWait {
  exponentialDelay : Q;
  jitter : Q;
  delay : Q;
  slept : Z
}.

(** [handleRateLimit(retryCount = 1)].  [rnd] is the [Math.random()] draw of
    the jitter, [draws] those of the sleep that follows. *)
Definition handleRateLimit (cfg : Config) (retryCount : option Z)
  (rnd : Q) (draws : list Q) (st : Stats) : RateLimitWait * Stats :=
  let retryCount := match retryCount with Some n => n | None => 1%Z end in
  let st := set_rateLimitHits st (rateLimitHits st + 1)%Z in
  let baseDelay := 60000 in
  let maxDelay := inject_Z (15 * 60 * 1000) in
  let exponentialDelay := baseDelay * 2 ^ (retryCount - 1) in
  let jitter := rnd * (1 # 10) * exponentialDelay in
  let delay := Qmin (exponentialDelay + jitter) maxDelay in
  let slept :=
    randomDelay cfg (Some delay) (Some (delay * (11 # 10))) draws in
  (mkRateLimitWait exponentialDelay jitter delay slept, st).

Local Close Scope Q_scope.

(** ** Record normalizer and primary collector *)

Section Collector.

(** [Date.prototype.toISOString] on a valid time value. *)
Variable isoString : Z -> string.

(** The time value of [new Date(s)] for a string [s]. *)
Variable parseDate : string -> num.

(** [scraper.searchTweets(query, limit, SearchMode.Latest)]: the records the
    lazy sequence yields before it is exhausted or throws ([collectTweets]
    swallows the error, so both end the loop alike).  An element is [None]
    for [null]/[undefined]. *)
Variable searchTweets : string -> Z -> list (option RawTweet).

(** The pipeline's own account name, [this.username]. *)
Variable this_username : string.

(** [new Date(z).toISOString()], which throws on an invalid date. *)
Definition toISOString (z : Z) : exc string :=
  if validTime z then Ok (isoString z) else Throw "RangeError".

(** Lines 335-338: the explicit [timestamp], else [timeParsed?.getTime()].
    [None] is [undefined]. *)
Definition resolveTimestamp (tweet : RawTweet) : option num :=
  match raw_timestamp tweet with
  | Some t => if falsy_num t then raw_timeParsed tweet else Some t
  | None => raw_timeParsed tweet
  end.

(** Line 342: [if (timestamp < 1e12) timestamp *= 1000]. *)
Definition scaleTimestamp (t : num) : num :=
  if Js.lt t (Num (10 ^ 12)) then mulz t 1000 else t.

(** The stats updates of lines 349-361. *)
Definition noteTweetDate (st : Stats) (tweetDate : num) : Stats :=
  let st :=
    match oldestTweetDate st with
    | None => set_oldestTweetDate st (Some tweetDate)
    | Some d =>
        if Js.lt tweetDate d then set_oldestTweetDate st (Some tweetDate)
        else st
    end in
  match newestTweetDate st with
  | None => set_newestTweetDate st (Some tweetDate)
  | Some d =>
      if Js.gt tweetDate d then set_newestTweetDate st (Some tweetDate)
      else st
  end.

(** [processTweetData(tweet)]: the canonical record or [None] for [null],
    with the stats after the call. *)
Definition processTweetData (st : Stats) (tweet : option RawTweet)
  : option Tweet * Stats :=
  match tweet with
  | None => (None, st)
  | Some tweet =>
      match raw_id tweet with
      | None => (None, st)
      | Some tid =>
          if negb (truthy_str tid) then (None, st) else
          match resolveTimestamp tweet with
          | None => (None, st)
          | Some t =>
              if falsy_num t then (None, st) else
              match scaleTimestamp t with
              | NaN => (None, st)
              | Num ts =>
                  if ts <=? 0 then (None, st) else
                  let st := noteTweetDate st (newDate (Num ts)) in
                  match toISOString ts with
                  | Throw _ => (None, st)
                  | Ok iso =>
                      (Some
                         {| id := tid;
                            text := raw_text tweet;
                            username :=
                              match raw_username tweet with
                              | Some u =>
                                  if truthy_str u then u else this_username
                              | None => this_username
                              end;
                            timestamp := Some ts;
                            createdAt := iso;
                            isReply := to_bool (raw_isReply tweet);
                            isRetweet := to_bool (raw_isRetweet tweet);
                            likes := or_default (raw_likes tweet) 0;
                            retweetCount :=
                              or_default (raw_retweets tweet) 0;
                            replies := or_default (raw_replies tweet) 0;
                            photos := or_empty (raw_photos tweet);
                            videos := or_empty (raw_videos tweet);
                            urls := or_empty (raw_urls tweet);
                            permanentUrl := raw_permanentUrl tweet;
                            quotedStatusId := raw_quotedStatusId tweet;
                            inReplyToStatusId :=
                              raw_inReplyToStatusId tweet;
                            hashtags := or_empty (raw_hashtags tweet) |},
                       st)
                  end
              end
          end
      end
  end.

(** [new Date(processedTweet.timestamp)]; [new Date(null)] is the epoch. *)
Definition dateOfTimestamp (t : option Z) : num :=
  match t with
  | Some z => newDate (Num z)
  | None => Num 0
  end.

(** The date filter of lines 527-533: does the record go into the map? *)
Definition inDateRange (opts : Options) (t : Tweet) : bool :=
  match startDate opts, endDate opts with
  | Some s, Some e =>
      if truthy_str s && truthy_str e
      then Js.ge (dateOfTimestamp (timestamp t)) (newDate (parseDate s))
           && Js.le (dateOfTimestamp (timestamp t)) (newDate (parseDate e))
      else true
  | _, _ => true
  end.

Definition TweetMap : Type := @jsmap (option string) Tweet.

(** One iteration of the [for await] loop, lines 521-537. *)
Definition collectStep (opts : Options) (acc : TweetMap * Stats)
  (tweet : option RawTweet) : TweetMap * Stats :=
  let (allTweets, st) := acc in
  match tweet with
  | None => (allTweets, st)
  | Some raw =>
      if map_has key_eqb allTweets (raw_id raw) then (allTweets, st) else
      match processTweetData st (Some raw) with
      | (None, st) => (allTweets, st)
      | (Some processedTweet, st) =>
          if inDateRange opts processedTweet
          then (map_set key_eqb allTweets (raw_id raw) processedTweet, st)
          else (allTweets, st)
      end
  end.

(** The loop over the yielded records, from the map and stats so far. *)
Definition collectLoop (opts : Options) (results : list (option RawTweet))
  (acc : TweetMap * Stats) : TweetMap * Stats :=
  fold_left (collectStep opts) results acc.

(** [collectTweets(scraper)], lines 507-543: the collected array and the
    stats after the run.  The loop reads neither [maxTweets] nor the
    stagnation counters declared before it; the limit is only handed to
    [searchTweets]. *)
Definition collectTweets (cfg : Config) (opts : Options) (st : Stats)
  : list Tweet * Stats :=
  let searchResults :=
    searchTweets (String.append "from:" this_username) (maxTweets cfg) in
  let (allTweets, st) := collectLoop opts searchResults ([], st) in
  (map_values allTweets, st).

(** [run()], as far as storage goes: the array handed to
    [dataOrganizer.saveTweets], from which every stored artefact is
    computed, or [None] when nothing was collected and nothing is saved. *)
Definition run_saved (cfg : Config) (opts : Options) (st : Stats)
  : option (list Tweet) :=
  let (allTweets, _) := collectTweets cfg opts st in
  match allTweets with
  | [] => None
  | _ => Some allTweets
  end.

End Collector.

(** ** Fallback collector *)

Module Fallback.

(** What the in-page script reads from one [article] element. *)
Record Article : Type := mkArticle {
  data_tweet_id : option string;
  lang_text : option string;
  time_datetime : option string;
  count_spans : list string
}.

(** The object the in-page script builds for an element. *)
Record Scraped : Type := mkScraped {
  id : option string;
  text : string;
  timestamp : option string;
  metrics : list string
}.

(** The [map] and [filter] of lines 443-460. *)
Definition scrape (elements : list Article) : list Scraped :=
  filter (fun t => truthy_ostr (id t))
    (List.map
       (fun tweet =>
          {| id := data_tweet_id tweet;
             text := match lang_text tweet with
                     | Some s => if truthy_str s then s else ""
                     | None => ""
                     end;
             timestamp := time_datetime tweet;
             metrics := count_spans tweet |})
       elements).

(** A value held by the [Set]: a string, [undefined], or an object known by
    its reference.  [page.evaluate] hands back freshly built objects, so every
    scraped object has a reference of its own. *)
Inductive value : Type :=
| VUndefined
| VStr (s : string)
| VObj (ref : nat) (o : Scraped).

(** SameValueZero, the equality of [Set.prototype.has] and [add]. *)
Definition sameValueZero (a b : value) : bool :=
  match a, b with
  | VUndefined, VUndefined => true
  | VStr x, VStr y => String.eqb x y
  | VObj r _, VObj r' _ => Nat.eqb r r'
  | _, _ => false
  end.

Definition set_has (s : list value) (v : value) : bool :=
  existsb (sameValueZero v) s.

Definition set_add (s : list value) (v : value) : list value :=
  if set_has s v then s else s ++ [v].

(** [tweet.id] as a value. *)
Definition id_value (t : Scraped) : value :=
  match id t with
  | Some s => VStr s
  | None => VUndefined
  end.

(** The variables of the scroll loop. *)
Record LoopState : Type := mkLoopState {
  tweets : list value;
  nextRef : nat;
  lastTweetCount : Z;
  unchangedCount : Z;
  stats : Stats
}.

(** Lines 463-468, for one scraped object; it is allocated at [nextRef]. *)
Definition addScraped (s : LoopState) (tweet : Scraped) : LoopState :=
  let obj := VObj (nextRef s) tweet in
  if negb (set_has (tweets s) (id_value tweet))
  then mkLoopState (set_add (tweets s) obj) (S (nextRef s))
         (lastTweetCount s) (unchangedCount s)
         (set_fallbackCount (stats s) (fallbackCount (stats s) + 1))
  else mkLoopState (tweets s) (S (nextRef s)) (lastTweetCount s)
         (unchangedCount s) (stats s).

(** Lines 470-475. *)
Definition noteProgress (s : LoopState) : LoopState :=
  let size := Z.of_nat (List.length (tweets s)) in
  if size =? lastTweetCount s
  then mkLoopState (tweets s) (nextRef s) (lastTweetCount s)
         (unchangedCount s + 1) (stats s)
  else mkLoopState (tweets s) (nextRef s) size 0 (stats s).

(** One pass through the body of the [while] loop on the elements visible
    after the scroll. *)
Definition cycle (s : LoopState) (elements : list Article) : LoopState :=
  noteProgress (fold_left addScraped (scrape elements) s).

(** The [while] loop of lines 429-476.  Each entry of [cycles] is what the
    environment answers in one iteration: the clock read by the loop test and
    the elements on the page.  The loop ends when its test fails; it also ends
    when the answers run out (the page call threw). *)
Fixpoint scrollLoop (cfg : Config) (sessionStartTime : Z)
  (cycles : list (Z * list Article)) (s : LoopState) : LoopState :=
  match cycles with
  | [] => s
  | (now, elements) :: rest =>
      if (unchangedCount s <? 3)
         && (now - sessionStartTime <? sessionDuration cfg)
      then scrollLoop cfg sessionStartTime rest (cycle s elements)
      else s
  end.

(** [fallbackTask], the function handed to the cluster (lines 396-481), from
    the search page on: the [Set] and the statistics when its scroll loop
    ends.  It starts from the [Set] in the state [s0] in which
    [collectWithFallback] created it. *)
Definition fallbackTask (cfg : Config) (sessionStartTime : Z)
  (cycles : list (Z * list Article)) (s0 : LoopState) : LoopState :=
  scrollLoop cfg sessionStartTime cycles s0.

(** What a call of [collectWithFallback] leaves behind: the array it returns,
    and the state the queued task reaches when it has run. *)
Record FallbackRun : Type := mkFallbackRun {
  returned : list value;
  task : LoopState
}.

(** [collectWithFallback(searchQuery)], lines 388-487.  [cluster.task]
    registers [fallbackTask] and [cluster.queue({})] puts a job in the queue
    and resolves; the job runs later.  So [Array.from(tweets)] is taken from
    the [Set] as it was created, and the task fills that [Set] afterwards. *)
Definition collectWithFallback (cfg : Config) (sessionStartTime : Z)
  (cycles : list (Z * list Article)) (st : Stats) : FallbackRun :=
  let s0 := mkLoopState [] 0 0 0 st in
  {| returned := tweets s0;
     task := fallbackTask cfg sessionStartTime cycles s0 |}.

(** The ids of the stored objects. *)
Definition stored_ids (vs : list value) : list (option string) :=
  flat_map (fun v => match v with
                     | VObj _ o => [id o]
                     | _ => []
                     end) vs.

End Fallback.

(** ** Data organizer: the analytics snapshot *)

Module DataOrganizer.

(** The value of a division of two integers: [NaN], an infinity, or a
    finite double, given by the rational it stands for. *)
Inductive quotient : Type :=
| QNaN
| QInf (negative : bool)
| QFin (q : Q).

(** [2 ^ k] for an integer [k]. *)
Definition pow2 (k : Z) : Q :=
  if 0 <=? k then inject_Z (2 ^ k) else 1 # Z.to_pos (2 ^ (- k)).

(** The integer nearest [q], the even one on a tie. *)
Definition roundEven (q : Q) : Z :=
  let f := Qfloor q in
  match Qcompare (q - inject_Z f) (1 # 2) with
  | Lt => f
  | Gt => f + 1
  | Eq => if Z.even f then f else f + 1
  end.

(** The [e] with [2 ^ e <= q < 2 ^ (e + 1)], for a positive [q]. *)
Definition exponent (q : Q) : Z :=
  let e0 := Z.log2 (Qnum q) - Z.log2 (Z.pos (Qden q)) in
  if Qle_bool (pow2 e0) q then e0 else e0 - 1.

(** The double that a real-number result is rounded to: 53 significant bits,
    exponents from -1022 to 1023, round to nearest, ties to even. *)
Definition toDouble (q : Q) : quotient :=
  let a := Qabs q in
  if Qeq_bool a 0 then QFin 0
  else
    let e := Z.max (exponent a) (-1022) in
    let ulp := pow2 (e - 52) in
    let r := (inject_Z (roundEven (a / ulp)) * ulp)%Q in
    if Qle_bool (pow2 1024) r then QInf (Qnum q <? 0)
    else QFin (if Qnum q <? 0 then - r else r)%Q.

(** [a / b] for an integer [a] and a length [b]: the double nearest the
    quotient.  (The sum [a] is taken as exact, as it is below [2 ^ 53].) *)
Definition divide (a : Z) (b : nat) : quotient :=
  match b with
  | O => if a =? 0 then QNaN else QInf (a <? 0)
  | S _ => toDouble (a # Pos.of_nat b)
  end.

Definition digits (n : Z) : string :=
  NilZero.string_of_uint (N.to_uint (Z.to_N n)).

(** [x.toFixed(2)], for [|x| < 1e21]: the multiple of 0.01 nearest the value
    of the double, the larger one in magnitude on a tie, written with two
    decimals. *)
Definition toFixed2 (x : quotient) : string :=
  match x with
  | QNaN => "NaN"
  | QInf false => "Infinity"
  | QInf true => "-Infinity"
  | QFin q =>
      let neg := Qlt_le_dec q 0 in
      let a := Qabs q in
      let n := Qfloor (a * 100 + (1 # 2))%Q in
      let frac := n mod 100 in
      String.append (if neg then "-" else "")
        (String.append (digits (n / 100))
           (String.append "."
              (String.append (if frac <? 10 then "0" else "")
                 (digits frac))))
  end.

(** [t.replies] of a stored record (the snapshot has a field of that name
    too). *)
Definition tweetReplies (t : Tweet) : Z := replies t.

Record TopTweet : Type := mkTopTweet {
  top_id : string;
  top_text : string;
  top_likes : Z;
  top_retweetCount : Z;
  top_url : option string
}.

Record Engagement : Type := mkEngagement {
  totalLikes : Z;
  totalRetweetCount : Z;
  totalReplies : Z;
  averageLikes : string;
  topTweets : list TopTweet
}.

Record TimeRange : Type := mkTimeRange {
  start : string;
  end_ : string
}.

Record ContentTypes : Type := mkContentTypes {
  withImages : Z;
  withVideos : Z;
  withLinks : Z;
  textOnly : Z
}.

Record Analytics : Type := mkAnalytics {
  totalTweets : Z;
  directTweets : Z;
  replies : Z;
  retweets : Z;
  engagement : Engagement;
  timeRange : TimeRange;
  contentTypes : ContentTypes
}.

Definition count {A : Type} (f : A -> bool) (l : list A) : Z :=
  Z.of_nat (List.length (filter f l)).

(** [l.reduce((sum, t) => sum + (f(t) || 0), 0)]. *)
Definition total (f : Tweet -> Z) (l : list Tweet) : Z :=
  fold_left (fun sum t => sum + f t) l 0.

Definition nonEmpty {A : Type} (l : list A) : bool :=
  match l with
  | [] => false
  | _ => true
  end.

(** [t.timestamp !== null]. *)
Definition notNull (t : option Z) : bool :=
  match t with
  | Some _ => true
  | None => false
  end.

(** [l.map((t) => t.timestamp)] on records whose timestamp is not [null]. *)
Fixpoint timestamps (l : list Tweet) : list Z :=
  match l with
  | [] => []
  | t :: l' =>
      match timestamp t with
      | Some z => z :: timestamps l'
      | None => timestamps l'
      end
  end.

(** One entry of [topTweets]; [t.text.slice] throws on a missing text. *)
Definition topTweet (t : Tweet) : exc TopTweet :=
  match text t with
  | None => Throw "TypeError"
  | Some s =>
      Ok {| top_id := id t;
            top_text := substring 0 100 s;
            top_likes := likes t;
            top_retweetCount := retweetCount t;
            top_url := permanentUrl t |}
  end.

Fixpoint mapExc {A B : Type} (f : A -> exc B) (l : list A) : exc (list B) :=
  match l with
  | [] => Ok []
  | x :: l' =>
      match f x with
      | Throw m => Throw m
      | Ok y =>
          match mapExc f l' with
          | Throw m => Throw m
          | Ok ys => Ok (y :: ys)
          end
      end
  end.

Section Analytics.

(** [format(new Date(z), 'yyyy-MM-dd')] of date-fns on a valid time value;
    it depends on the local time zone. *)
Variable formatDate : Z -> string.

(** [format(new Date(z), 'yyyy-MM-dd')], which throws on an invalid date. *)
Definition format (z : Z) : exc string :=
  if validTime z then Ok (formatDate z) else Throw "RangeError".

(** The snapshot of a non-empty list, lines 182-246, in evaluation order. *)
Definition snapshot (tweets : list Tweet) : exc Analytics :=
  let validTweets := filter (fun t => notNull (timestamp t)) tweets in
  let validDates :=
    sort (fun a b => a - b) (timestamps validTweets) in
  let tweetsForEngagement := filter (fun t => negb (isRetweet t)) tweets in
  match
    mapExc topTweet
      (slice0 5 (sort (fun a b => likes b - likes a) tweetsForEngagement))
  with
  | Throw m => Throw m
  | Ok tops =>
      let eng :=
        {| totalLikes := total likes tweetsForEngagement;
           totalRetweetCount := total retweetCount tweetsForEngagement;
           totalReplies := total tweetReplies tweetsForEngagement;
           averageLikes :=
             toFixed2 (divide (total likes tweetsForEngagement)
                         (List.length tweetsForEngagement));
           topTweets := tops |} in
      let range :=
        match validDates with
        | [] => Ok (mkTimeRange "N/A" "N/A")
        | first :: _ =>
            match format first with
            | Throw m => Throw m
            | Ok s =>
                match format (last validDates first) with
                | Throw m => Throw m
                | Ok e => Ok (mkTimeRange s e)
                end
            end
        end in
      match range with
      | Throw m => Throw m
      | Ok range =>
          Ok {| totalTweets := Z.of_nat (List.length tweets);
                directTweets :=
                  count (fun t => negb (isReply t) && negb (isRetweet t))
                    tweets;
                replies := count isReply tweets;
                retweets := count isRetweet tweets;
                engagement := eng;
                timeRange := range;
                contentTypes :=
                  {| withImages := count (fun t => nonEmpty (photos t))
                                     tweets;
                     withVideos := count (fun t => nonEmpty (videos t))
                                     tweets;
                     withLinks := count (fun t => nonEmpty (urls t)) tweets;
                     textOnly :=
                       count (fun t => negb (nonEmpty (photos t))
                                       && negb (nonEmpty (videos t))
                                       && negb (nonEmpty (urls t)))
                         tweets |} |}
      end
  end.

(** [generateAnalytics(tweets)]. *)
Definition generateAnalytics (tweets : list Tweet) : exc Analytics :=
  match tweets with
  | [] =>
      Ok {| totalTweets := 0;
            directTweets := 0;
            replies := 0;
            retweets := 0;
            engagement :=
              {| totalLikes := 0;
                 totalRetweetCount := 0;
                 totalReplies := 0;
                 averageLikes := "0.00";
                 topTweets := [] |};
            timeRange := {| start := "N/A"; end_ := "N/A" |};
            contentTypes :=
              {| withImages := 0;
                 withVideos := 0;
                 withLinks := 0;
                 textOnly := 0 |} |}
  | _ :: _ => snapshot tweets
  end.

End Analytics.

End DataOrganizer.

(** ** Merge engine *)

Module Merge.

(** The options object of [createMergedCharacter]; [None] is an absent
    (undefined) property, which takes the default. *)
Record MergeOptions : Type := mkMergeOptions {
  tweetsPerAccount : option Z;
  filterRetweets : option bool;
  sortBy : option string
}.

(** A value of a property of [accountBreakdown], which is a plain object:
    a count, or the string that [+ 1] makes of a member the object
    inherits. *)
Inductive Count : Type :=
| Times (n : Z)
| Text (s : string).

(** The names a plain object inherits from [Object.prototype]. *)
Definition inheritedNames : list string :=
  ["constructor"; "__defineGetter__"; "__defineSetter__"; "hasOwnProperty";
   "__lookupGetter__"; "__lookupSetter__"; "isPrototypeOf";
   "propertyIsEnumerable"; "toString"; "valueOf"; "__proto__";
   "toLocaleString"].

(** The string [+ 1] converts the inherited member [k] to: [__proto__] reads
    as the prototype object, the other members are built-in functions, whose
    text is given as Node prints it. *)
Definition memberText (k : string) : string :=
  if String.eqb k "__proto__" then "[object Object]"
  else String.append "function "
         (String.append (if String.eqb k "constructor" then "Object" else k)
            "() { [native code] }").

(** [obj[k]] on the plain object with the own properties [o] (in the order
    they were created): an own property, else an inherited member, else
    [undefined], which is [None]. *)
Definition getCount (o : @jsmap string Count) (k : string) : option Count :=
  match map_get String.eqb o k with
  | Some c => Some c
  | None =>
      if existsb (String.eqb k) inheritedNames
      then Some (Text (memberText k))
      else None
  end.

(** [(x || 0) + 1]. *)
Definition plusOne (x : option Count) : Count :=
  match x with
  | None => Times 1
  | Some (Times n) => Times (n + 1)
  | Some (Text s) => if truthy_str s then Text (String.append s "1")
                     else Times 1
  end.

(** [obj[k] = v] for a count or string [v]: the setter of [__proto__] ignores
    a value that is not an object, so nothing is stored under that name. *)
Definition setCount (o : @jsmap string Count) (k : string) (v : Count)
  : @jsmap string Count :=
  if String.eqb k "__proto__" then o else map_set String.eqb o k v.

(** [mergedStats] of the merge loops. *)
Record MergedStats : Type := mkMergedStats {
  totalTweets : Z;
  accountBreakdown : @jsmap string Count;
  oldest : option num;
  newest : option num
}.

Definition emptyStats : MergedStats := mkMergedStats 0 [] None None.

(** What the capped merge hands to storage: [mergedArray] and the
    [mergeStats] counters. *)
Record MergeResult : Type := mkMergeResult {
  mergedArray : list Tweet;
  mergedStats : MergedStats
}.

(** [new Date(tweet.timestamp)]. *)
Definition tweetDate (t : Tweet) : num :=
  match timestamp t with
  | Some z => newDate (Num z)
  | None => Num 0
  end.

(** [b - a] on two dates; a [NaN] result counts as [0] for [sort]. *)
Definition dateDiff (b a : num) : Z :=
  match b, a with
  | Num y, Num x => y - x
  | _, _ => 0
  end.

(** The comparator of lines 887-899. *)
Definition compareBy (sortBy : string) (a b : Tweet) : Z :=
  if String.eqb sortBy "likes" then likes b - likes a
  else if String.eqb sortBy "retweets" then retweetCount b - retweetCount a
  else if String.eqb sortBy "date" then dateDiff (tweetDate b) (tweetDate a)
  else (likes b + retweetCount b) - (likes a + retweetCount a).


(** Lines 882-885: the tweets of an account the retweet filter leaves. *)
Definition eligible (filterRetweets : bool) (accountTweets : list Tweet)
  : list Tweet :=
  if filterRetweets
  then filter (fun tweet => negb (isRetweet tweet)) accountTweets
  else accountTweets.

(** Lines 881-901: the tweets one account contributes. *)
Definition selectTop (filterRetweets : bool) (sortBy : string)
  (tweetsPerAccount : Z) (accountTweets : list Tweet) : list Tweet :=
  let filteredTweets := eligible filterRetweets accountTweets in
  let sortedTweets := sort (compareBy sortBy) filteredTweets in
  slice0 tweetsPerAccount sortedTweets.

(** The statistics updates both merge loops make for an admitted tweet. *)
Definition countTweet (account : string) (stats : MergedStats)
  (tweet : Tweet) : MergedStats :=
  let n := plusOne (getCount (accountBreakdown stats) account) in
  let d := tweetDate tweet in
  let oldest' := match oldest stats with
                 | None => Some d
                 | Some o => if Js.lt d o then Some d else Some o
                 end in
  let newest' := match newest stats with
                 | None => Some d
                 | Some o => if Js.gt d o then Some d else Some o
                 end in
  mkMergedStats (totalTweets stats + 1)
    (setCount (accountBreakdown stats) account n)
    oldest' newest'.

Definition MergeState : Type := (@jsmap string Tweet * MergedStats)%type.

(** The [forEach] body of lines 904-916: the map entry is set whether or not
    the id is already there. *)
Definition addTop (account : string) (acc : MergeState) (tweet : Tweet)
  : MergeState :=
  let (mergedTweets, stats) := acc in
  (map_set String.eqb mergedTweets (id tweet) tweet,
   countTweet account stats tweet).

(** The [forEach] body of lines 627-641 in [mergeCharacters]: an id already
    in the map is skipped.  ([mergeCharacters] itself does not get this far:
    its first step, line 604, calls [this.dataOrganizer.loadTweets], which
    [DataOrganizer] does not define.) *)
Definition addIfNew (account : string) (acc : MergeState) (tweet : Tweet)
  : MergeState :=
  let (mergedTweets, stats) := acc in
  if negb (map_has String.eqb mergedTweets (id tweet))
  then (map_set String.eqb mergedTweets (id tweet) tweet,
        countTweet account stats tweet)
  else acc.

(** The answers [promptForMergeOptions] returns. *)
Record Answers : Type := mkAnswers {
  answer_tweetsPerAccount : Z;
  excludeRetweets : bool;
  rankingMethod : string
}.

Section Engine.

(** [getTweetsForAccount(account)]: the raw tweets of the account's latest
    dataset, [[]] when it cannot be read. *)
Variable getTweetsForAccount : string -> list Tweet.

(** [getLatestDateForAccount(account)], [None] for [null]. *)
Variable getLatestDateForAccount : string -> option string.

(** One round of the loop over the source accounts, lines 874-920. *)
Definition mergeAccount (filterRetweets : bool) (sortBy : string)
  (tweetsPerAccount : Z) (acc : MergeState) (account : string)
  : MergeState :=
  let topTweets :=
    selectTop filterRetweets sortBy tweetsPerAccount
      (getTweetsForAccount account) in
  fold_left (addTop account) topTweets acc.

(** [createMergedCharacter(sourceAccounts, options)]: the merged array and
    the counters of [mergeStats], or the error thrown when no source account
    has a dataset.  Failures of the file system are not modelled. *)
Definition createMergedCharacter (sourceAccounts : list string)
  (options : MergeOptions) : exc MergeResult :=
  let tweetsPerAccount :=
    match tweetsPerAccount options with Some k => k | None => 50 end in
  let filterRetweets :=
    match filterRetweets options with Some b => b | None => true end in
  let sortBy :=
    match sortBy options with Some s => s | None => "total" end in
  let validDates :=
    filter (fun d => match d with Some _ => true | None => false end)
      (List.map getLatestDateForAccount sourceAccounts) in
  match validDates with
  | [] => Throw "No valid dates found in source accounts"
  | _ :: _ =>
      let (mergedTweets, stats) :=
        fold_left (mergeAccount filterRetweets sortBy tweetsPerAccount)
          sourceAccounts ([], emptyStats) in
      Ok (mkMergeResult (map_values mergedTweets) stats)
  end.

(** [main()] of [merge_characters.js], given the command-line arguments and
    the answers to the prompts.  It exits with an error when the new
    character's name is missing. *)
Definition main (newCharacter : option string) (character1 character2 : string)
  (answers : Answers) : exc MergeResult :=
  let sourceAccounts := [character1; character2] in
  if negb (truthy_ostr newCharacter)
     || (Z.of_nat (List.length sourceAccounts) <? 2)
  then Throw "Usage: node merge_characters.js <new_name> <account1> <account2>"
  else
    createMergedCharacter sourceAccounts
      {| tweetsPerAccount := Some (answer_tweetsPerAccount answers);
         filterRetweets := Some (negb (excludeRetweets answers));
         sortBy := Some (rankingMethod answers) |}.

End Engine.

End Merge.

(** ** Notions the properties are stated with *)

(** A raw record lacks an identifier. *)
Definition lacksId (r : RawTweet) : Prop :=
  truthy_ostr (raw_id r) = false.

(** No timestamp to resolve: the timestamp field is absent or falsy ([0] or
    [NaN]), and there is no parsed date to fall back on. *)
Definition unresolvable (r : RawTweet) : Prop :=
  match raw_timestamp r with
  | Some t => falsy_num t = true
  | None => True
  end /\ raw_timeParsed r = None.

(** The resolved timestamp is [NaN], or not positive once scaled. *)
Definition badTimestamp (r : RawTweet) : Prop :=
  exists t, resolveTimestamp r = Some t /\
            match scaleTimestamp t with
            | NaN => True
            | Num ms => ms <= 0
            end.

Definition rejected (r : RawTweet) : Prop :=
  lacksId r \/ unresolvable r \/ badTimestamp r.

(** The millisecond timestamp [processTweetData] gives a raw record, if it
    accepts it. *)
Definition timestampMillis (isoString : Z -> string) (this_username : string)
  (st : Stats) (r : RawTweet) : option Z :=
  match fst (processTweetData isoString this_username st (Some r)) with
  | Some t => timestamp t
  | None => None
  end.

(** The raw record [r] with its timestamp field set to [ms]. *)
Definition withTimestamp (r : RawTweet) (ms : Z) : RawTweet :=
  mkRawTweet (raw_id r) (raw_text r) (raw_username r) (Some (Num ms))
    (raw_timeParsed r) (raw_isReply r) (raw_isRetweet r) (raw_likes r)
    (raw_retweets r) (raw_replies r) (raw_photos r) (raw_videos r)
    (raw_urls r) (raw_permanentUrl r) (raw_quotedStatusId r)
    (raw_inReplyToStatusId r) (raw_hashtags r).

(** The stored record [t] was built by [processTweetData] from a record the
    sequence yielded. *)
Definition fromSequence (isoString : Z -> string) (this_username : string)
  (results : list (option RawTweet)) (t : Tweet) : Prop :=
  exists r st1 st2,
    In (Some r) results /\
    processTweetData isoString this_username st1 (Some r) = (Some t, st2).

(** [new Date(t.timestamp)] is a valid date, as it is for every record
    [processTweetData] builds. *)
Definition wellDated (t : Tweet) : Prop :=
  Merge.tweetDate t <> NaN.


(** The number of tweets the capped merge takes from the accounts, before
    they go into the map. *)
Definition selectedCount (getTweetsForAccount : string -> list Tweet)
  (filterRetweets : bool) (sortBy : string) (tweetsPerAccount : Z)
  (sourceAccounts : list string) : nat :=
  list_sum
    (List.map
       (fun a => List.length
                   (Merge.selectTop filterRetweets sortBy tweetsPerAccount
                      (getTweetsForAccount a)))
       sourceAccounts).

(** A stored timestamp is [null] or a valid time value. *)
Definition validTimestamp (t : Tweet) : Prop :=
  match timestamp t with
  | Some z => validTime z = true
  | None => True
  end.

(** ** Sample data *)

Module Sample.

(** A raw record with the given id, text and timestamp and nothing else. *)
Definition raw (i : option string) (txt : string) (t : option num)
  : RawTweet :=
  mkRawTweet i (Some txt) None t None None None None None None None None
    None None None None None.

(** A stored record. *)
Definition tweet (i txt : string) (ms : Z) (rt : bool) (l r : Z) : Tweet :=
  mkTweet i (Some txt) "user" (Some ms) "" false rt l r 0 [] [] [] None None
    None [].

Definition iso (z : Z) : string := "".
Definition parse (s : string) : num := NaN.
Definition fmt (z : Z) : string := "".
Definition noOptions : Options := mkOptions None None.
Definition stats0 : Stats := initialStats 0.

(** Two distinct, well-formed raw records. *)
Definition r1 : RawTweet := raw (Some "1") "hello world" (Some (Num 1700000000)).
Definition r2 : RawTweet := raw (Some "2") "older" (Some (Num 1600000000)).

(** Five batches of one record each: the first record four times, then a new
    one. *)
Definition stagnantBatches : list (list (option RawTweet)) :=
  [[Some r1]; [Some r1]; [Some r1]; [Some r1]; [Some r2]].

(** The post with id 1 as the page shows it. *)
Definition article1 : Fallback.Article :=
  Fallback.mkArticle (Some "1") (Some "hello world")
    (Some "2023-11-14T22:13:20.000Z") ["3"; "5"].

(** Two scroll cycles, one second apart, with the same post on the page. *)
Definition samePostTwice : list (Z * list Fallback.Article) :=
  [(1000, [article1]); (2000, [article1])].

(** Datasets of two accounts that both hold a tweet with id 1. *)
Definition sharedIdStore (account : string) : list Tweet :=
  if String.eqb account "a" then [tweet "1" "from a" 1700000000000 false 9 1]
  else if String.eqb account "b"
       then [tweet "1" "from b" 1700000000000 false 2 0]
  else [].

(** Datasets of two accounts, the first of which holds a retweet. *)
Definition retweetStore (account : string) : list Tweet :=
  if String.eqb account "a"
  then [tweet "10" "RT @x hi" 1700000000000 true 5 5;
        tweet "11" "own words" 1700000001000 false 1 0]
  else if String.eqb account "b"
       then [tweet "20" "hello" 1700000002000 false 3 0]
  else [].

(** Datasets of two accounts with three tweets each. *)
Definition rankedStore (account : string) : list Tweet :=
  if String.eqb account "a"
  then [tweet "1" "one" 1700000000000 false 1 0;
        tweet "2" "two" 1700000001000 false 7 2;
        tweet "3" "three" 1700000002000 false 4 4]
  else [tweet "4" "four" 1700000003000 false 0 0;
        tweet "5" "five" 1700000004000 false 6 0;
        tweet "6" "six" 1700000005000 false 2 1].

(** Every account has a dataset of that date. *)
Definition dated (account : string) : option string := Some "2024-01-01".

(** A search capability that yields the same records for every query. *)
Definition yields (l : list (option RawTweet)) (q : string) (limit : Z)
  : list (option RawTweet) := l.

End Sample.

(** ** Notions for the further properties of the collector *)

(** The stats' date bounds enclose the time [ms], as far as they are valid
    dates: a bound that is an invalid date says nothing. *)
Definition enclosedBy (st : Stats) (ms : Z) : Prop :=
  match oldestTweetDate st with
  | Some (Num o) => o <= ms
  | Some NaN => True
  | None => False
  end /\
  match newestTweetDate st with
  | Some (Num n) => ms <= n
  | Some NaN => True
  | None => False
  end.

(** The stats agree on everything but the two date bounds. *)
Definition sameCounters (st st' : Stats) : Prop :=
  requestCount st' = requestCount st /\
  rateLimitHits st' = rateLimitHits st /\
  retriesCount st' = retriesCount st /\
  uniqueTweets st' = uniqueTweets st /\
  fallbackCount st' = fallbackCount st /\
  startTime st' = startTime st /\
  fallbackUsed st' = fallbackUsed st.

(** Further sample data. *)
Module Sample2.

Definition year2023 : Options :=
  mkOptions (Some "2023-01-01") (Some "2023-12-31").

(** A date parser that knows the two bounds above. *)
Definition parse (s : string) : num :=
  if String.eqb s "2023-01-01" then Num 1672531200000
  else if String.eqb s "2023-12-31" then Num 1703980800000
  else NaN.

End Sample2.

(** ** Notions for the further properties of the delays *)

(** Every draw is a value [Math.random()] can return. *)
Definition unitDraws (draws : list Q) : Prop :=
  Forall (fun r => (0 <= r)%Q /\ (r < 1)%Q) draws.

(** ** Session manager *)

Module Session.

(** [config.twitter.maxRetries] and [retryDelay]. *)
Record AuthConfig : Type := mkAuthConfig {
  maxRetries : Z;
  retryDelay : Z
}.

(** How [fs.access] on the cookie file settles. *)
Inductive access : Type :=
| Accessible
| AccessError.

(** The value of [await fs.access(path).catch(() => false)]: [undefined]
    ([None]) when the file is accessible, [false] otherwise. *)
Definition awaitedAccess (a : access) : option bool :=
  match a with
  | Accessible => None
  | AccessError => Some false
  end.

(** What the session manager meets outside itself. *)
Record Env : Type := mkEnv {
  cookieFile : access;
  (** do reading, parsing and [setCookies] go through? *)
  cookiesReadable : bool;
  (** [scraper.isLoggedIn()] on the restored cookies *)
  cookieSession : exc bool;
  TWITTER_USERNAME : option string;
  TWITTER_PASSWORD : option string;
  TWITTER_EMAIL : option string;
  (** does the k-th login attempt, counted from 0, end logged in? *)
  loginSucceeds : nat -> bool;
  (** the [Math.random()] draw of the jitter after the k-th failure *)
  jitterDraw : nat -> Q
}.

(** [loadCookies()]. *)
Definition loadCookies (env : Env) : bool :=
  if to_bool (awaitedAccess (cookieFile env))
  then cookiesReadable env
  else false.

(** What [initializeScraper] did. *)
Record Outcome : Type := mkOutcome {
  authenticated : bool;
  loginAttempts : nat;
  (** the lower bound [baseDelay + jitter] of every backoff wait *)
  backoffs : list Q;
  cookiesSaved : bool
}.

(** Lines 229-231: the lower bound of the wait after [retryCount]
    failures. *)
Definition backoff (cfg : AuthConfig) (retryCount : Z) (rnd : Q) : Q :=
  let baseDelay := (inject_Z (retryDelay cfg) * 2 ^ (retryCount - 1))%Q in
  let maxJitter := (baseDelay * (2 # 10))%Q in
  let jitter := Qfloor (rnd * maxJitter) in
  (baseDelay + inject_Z jitter)%Q.

(** The [while] loop of lines 198-234, entered with [retryCount] failures
    behind it.  [fuel] bounds the number of iterations. *)
Fixpoint loginLoop (cfg : AuthConfig) (env : Env) (fuel : nat)
  (retryCount : nat) (waits : list Q) : Outcome :=
  match fuel with
  | O => mkOutcome false retryCount waits false
  | S fuel' =>
      if Z.of_nat retryCount <? maxRetries cfg
      then
        if loginSucceeds env retryCount
        then mkOutcome true (S retryCount) waits true
        else
          let retryCount' := S retryCount in
          if maxRetries cfg <=? Z.of_nat retryCount'
          then mkOutcome false retryCount' waits false
          else
            loginLoop cfg env fuel' retryCount'
              (waits ++ [backoff cfg (Z.of_nat retryCount')
                           (jitterDraw env retryCount)])
      else mkOutcome false retryCount waits false
  end.

(** [initializeScraper()]. *)
Definition initializeScraper (cfg : AuthConfig) (env : Env) : Outcome :=
  let viaCookies :=
    if loadCookies env
    then match cookieSession env with
         | Ok true => true
         | _ => false
         end
    else false in
  if viaCookies then mkOutcome true 0 [] false
  else
    if negb (truthy_ostr (TWITTER_USERNAME env))
       || negb (truthy_ostr (TWITTER_PASSWORD env))
       || negb (truthy_ostr (TWITTER_EMAIL env))
    then mkOutcome false 0 [] false
    else loginLoop cfg env (Z.to_nat (maxRetries cfg)) 0 [].

(** The credentials are all there. *)
Definition hasCredentials (env : Env) : Prop :=
  truthy_ostr (TWITTER_USERNAME env) = true /\
  truthy_ostr (TWITTER_PASSWORD env) = true /\
  truthy_ostr (TWITTER_EMAIL env) = true.

(** [logError]'s update of the stored log, lines 1201-1206: the new entry is
    pushed and only the last 100 entries are kept. *)
Definition pushError {A : Type} (existingLogs : list A) (errorLog : A)
  : list A :=
  let existingLogs := (existingLogs ++ [errorLog])%list in
  if 100 <? Z.of_nat (List.length existingLogs)
  then skipn (List.length existingLogs - 100) existingLogs
  else existingLogs.

End Session.

(** Sample data for the session manager. *)
Module Sample3.

(** All credentials set; the third login attempt is the first to succeed. *)
Definition thirdTime : Session.Env :=
  Session.mkEnv Session.Accessible true (Ok true) (Some "bot") (Some "secret")
    (Some "bot@example.org") (fun k => Nat.eqb k 2) (fun _ => (1 # 2)%Q).

Definition fiveRetries : Session.AuthConfig := Session.mkAuthConfig 5 5000.

End Sample3.

(** ** Notions for the further properties of the snapshot *)

(** The tweet carries an image, a video or a link. *)
Definition hasMedia (t : Tweet) : bool :=
  DataOrganizer.nonEmpty (photos t) || DataOrganizer.nonEmpty (videos t)
  || DataOrganizer.nonEmpty (urls t).

(** The tweets the engagement figures are computed from. *)
Definition forEngagement (tweets : list Tweet) : list Tweet :=
  filter (fun t => negb (isRetweet t)) tweets.

(** The tweets [topTweets] is built from: the five most liked of them. *)
Definition topSources (tweets : list Tweet) : list Tweet :=
  slice0 5 (sort (fun a b => likes b - likes a) (forEngagement tweets)).

(** The timestamps of the tweets, in ascending order. *)
Definition sortedDates (tweets : list Tweet) : list Z :=
  sort (fun a b => a - b)
    (DataOrganizer.timestamps
       (filter (fun t => DataOrganizer.notNull (timestamp t)) tweets)).

Definition hasText (t : Tweet) : Prop := text t <> None.

(** ** Notions for the further properties of the merge *)

(** Every entry of the map is stored under the id of its tweet, and no key
    occurs twice. *)
Definition keyedById (m : @jsmap string Tweet) : Prop :=
  NoDup (map_keys m) /\ Forall (fun kv => fst kv = id (snd kv)) m.

(** An account name that is not the name of a member of
    [Object.prototype]. *)
Definition plainName (account : string) : Prop :=
  existsb (String.eqb account) Merge.inheritedNames = false.

(** The sum of the per-account counts, when all of them are numbers. *)
Fixpoint breakdownTotal (m : @jsmap string Merge.Count) : option Z :=
  match m with
  | [] => Some 0
  | (_, Merge.Times n) :: m' =>
      match breakdownTotal m' with
      | Some t => Some (n + t)
      | None => None
      end
  | (_, Merge.Text _) :: _ => None
  end.

(** The per-account counts are numbers that add up to [totalTweets]. *)
Definition countersCover (acc : Merge.MergeState) : Prop :=
  breakdownTotal (Merge.accountBreakdown (snd acc))
  = Some (Merge.totalTweets (snd acc)).

(** The map holds at most [totalTweets] tweets. *)
Definition sizeCovered (acc : Merge.MergeState) : Prop :=
  Z.of_nat (List.length (fst acc)) <= Merge.totalTweets (snd acc).

(** ** The snapshot of a merged dataset *)

Module MergedSnapshot.

(** [s.includes(sub)]. *)
Fixpoint includes (s sub : string) : bool :=
  prefix sub s
  || match s with
     | EmptyString => false
     | String _ s' => includes s' sub
     end.

(** [s.split('T')[0]]: the part of [s] before its first T. *)
Fixpoint beforeT (s : string) : string :=
  match s with
  | EmptyString => EmptyString
  | String c s' => if Ascii.eqb c "T" then EmptyString
                   else String c (beforeT s')
  end.

(** The numbers in a list of time values, or [None] when one is [NaN]. *)
Fixpoint numbers (l : list num) : option (list Z) :=
  match l with
  | [] => Some []
  | NaN :: _ => None
  | Num z :: l' =>
      match numbers l' with
      | Some zs => Some (z :: zs)
      | None => None
      end
  end.

(** One entry of [topTweets]; the stored tweets have no [url] field. *)
Definition topTweet (t : Tweet) : exc DataOrganizer.TopTweet :=
  match text t with
  | None => Throw "TypeError"
  | Some s =>
      Ok (DataOrganizer.mkTopTweet (id t) (substring 0 100 s) (likes t)
            (retweetCount t) None)
  end.

(** [t.text.includes('http')], which throws on a missing text. *)
Definition hasLink (t : Tweet) : exc bool :=
  match text t with
  | None => Throw "TypeError"
  | Some s => Ok (includes s "http")
  end.

Definition countTrue (l : list bool) : Z :=
  Z.of_nat (List.length (filter (fun b => b) l)).

Section Snapshot.

(** [Date.prototype.toISOString] on a valid time value. *)
Variable isoString : Z -> string.

(** [new Date(Math.min(...dates)).toISOString().split('T')[0]] and the same
    with [Math.max], for the dates of the tweets: the spread of no date gives
    an infinity and a [NaN] date gives [NaN], and [toISOString] throws on
    both. *)
Definition dateRange (tweets : list Tweet) : exc DataOrganizer.TimeRange :=
  match numbers (List.map Merge.tweetDate tweets) with
  | None => Throw "RangeError"
  | Some [] => Throw "RangeError"
  | Some (z :: zs) =>
      Ok (DataOrganizer.mkTimeRange
            (beforeT (isoString (fold_left Z.min zs z)))
            (beforeT (isoString (fold_left Z.max zs z))))
  end.

(** [generateStatsFromMergedTweets(tweets)], in evaluation order.  The
    stored tweets have no [replyCount] and no [images] field, so the figures
    read from them are 0.  The array is sorted in place while [topTweets] is
    built. *)
Definition generateStatsFromMergedTweets (tweets : list Tweet)
  : exc DataOrganizer.Analytics :=
  let sorted := sort (fun a b => likes b - likes a) tweets in
  match DataOrganizer.mapExc topTweet (slice0 5 sorted) with
  | Throw m => Throw m
  | Ok tops =>
      match dateRange sorted with
      | Throw m => Throw m
      | Ok range =>
          match DataOrganizer.mapExc hasLink sorted with
          | Throw m => Throw m
          | Ok links =>
              Ok (DataOrganizer.mkAnalytics
                    (Z.of_nat (List.length tweets))
                    (DataOrganizer.count
                       (fun t => negb (isReply t) && negb (isRetweet t))
                       tweets)
                    (DataOrganizer.count isReply tweets)
                    (DataOrganizer.count isRetweet tweets)
                    (DataOrganizer.mkEngagement
                       (DataOrganizer.total likes tweets)
                       (DataOrganizer.total retweetCount tweets)
                       0
                       (DataOrganizer.toFixed2
                          (DataOrganizer.divide
                             (DataOrganizer.total likes tweets)
                             (List.length tweets)))
                       tops)
                    range
                    (DataOrganizer.mkContentTypes
                       0
                       (DataOrganizer.count
                          (fun t => DataOrganizer.nonEmpty (videos t)) sorted)
                       (countTrue links)
                       (Z.of_nat
                          (List.length
                             (filter
                                (fun p =>
                                   negb (DataOrganizer.nonEmpty
                                           (videos (fst p)))
                                   && negb (snd p))
                                (combine sorted links))))))
          end
      end
  end.

End Snapshot.

End MergedSnapshot.

(** ** Notions for the further properties of the fallback collector *)

(** The set holds objects only, each under a reference below [nextRef], and
    [lastTweetCount] is its size. *)
Definition settled (s : Fallback.LoopState) : Prop :=
  Forall (fun v => exists r o, v = Fallback.VObj r o
                               /\ (r < Fallback.nextRef s)%nat)
    (Fallback.tweets s) /\
  Fallback.lastTweetCount s = Z.of_nat (List.length (Fallback.tweets s)).

(** The objects scraped in the given cycles, in order. *)
Definition scrapedIn (cycles : list (Z * list Fallback.Article))
  : list Fallback.Scraped :=
  flat_map (fun c => Fallback.scrape (snd c)) cycles.

(** The number of cycles the scroll loop runs, when [stagnant] cycles in a row
    before them showed no element with an id: it goes on while fewer than
    three cycles in a row showed none and the session time is not over. *)
Fixpoint cyclesRun (cfg : Config) (sessionStartTime : Z) (stagnant : Z)
  (cycles : list (Z * list Fallback.Article)) : nat :=
  match cycles with
  | [] => O
  | (now, elements) :: rest =>
      if (stagnant <? 3) && (now - sessionStartTime <? sessionDuration cfg)
      then S (cyclesRun cfg sessionStartTime
                (match Fallback.scrape elements with
                 | [] => stagnant + 1
                 | _ :: _ => 0
                 end) rest)
      else O
  end.

(** A cycle that the loop test lets through as far as the clock goes, and
    that shows at least one element with an id. *)
Definition showsPosts (cfg : Config) (sessionStartTime : Z)
  (c : Z * list Fallback.Article) : Prop :=
  fst c - sessionStartTime < sessionDuration cfg /\
  Fallback.scrape (snd c) <> [].

(** ** Tweet filter *)

Module TweetFilter.

(** [this.options]; an absent property is [None], an absent flag is
    falsy. *)
Record FilterOptions : Type := mkFilterOptions {
  tweetTypes : option (list string);
  contentTypes : option (list string);
  filterByEngagement : bool;
  minLikes : option Z;
  minRetweets : option Z;
  filterByDate : bool;
  startDate : option string;
  endDate : option string;
  excludeKeywords : bool;
  keywordsToExclude : option (list string)
}.

(** [this.options = {}], as the constructor leaves it. *)
Definition noOptions : FilterOptions :=
  mkFilterOptions None None false None None false None None false None.






Section Filter.

(** The time value of [new Date(s)] for a string [s]. *)
Variable parseDate : string -> num.

(** [String.prototype.toLowerCase]. *)
Variable toLowerCase : string -> string.






End Filter.




End TweetFilter.

(** Sample data for the tweet filter. *)
Module Sample4.




End Sample4.

(** ** Fine-tuning data *)

(** [DataOrganizer.generateFinetuningData].  A character of a [string] stands
    for one code unit of the JS string; the texts modelled are those whose
    code units lie below 256. *)
Module Finetuning.

(** The class [\s], which is also what [trim] strips, among the code units
    below 256: tab, line feed, vertical tab, form feed, carriage return,
    space and no-break space. *)
Definition isSpace (c : ascii) : bool :=
  let n := N_of_ascii c in
  ((9 <=? n)%N && (n <=? 13)%N) || (n =? 32)%N || (n =? 160)%N.

(** The rest of [s] after the literal [p], when [s] begins with it. *)
Fixpoint after (p s : string) : option string :=
  match p with
  | EmptyString => Some s
  | String a p' =>
      match s with
      | EmptyString => None
      | String b s' => if Ascii.eqb a b then after p' s' else None
      end
  end.

(** [s] begins with a character that [[^\s]] matches. *)
Definition nonSpaceNext (s : string) : bool :=
  match s with
  | EmptyString => false
  | String c _ => negb (isSpace c)
  end.

(** The literal [p] followed by [[^\s]+] matches at the start of [s]. *)
Definition lit (p s : string) : bool :=
  match after p s with
  | Some r => nonSpaceNext r
  | None => false
  end.

(** [/(?:https?:\/\/|www\.)[^\s]+/] matches at the start of [s]. *)
Definition urlAt (s : string) : bool :=
  lit "http://" s || lit "https://" s || lit "www." s.

(** [.replace(/(?:https?:\/\/|www\.)[^\s]+/g, '')].  A match runs from its
    first character to the next white-space character or the end ([[^\s]+] is
    greedy and nothing follows it, and no character of the three literals is
    white space); [inMatch] says that the scan is inside a match, and the
    search resumes at the character that ends it. *)
Fixpoint removeUrls (inMatch : bool) (s : string) : string :=
  match s with
  | EmptyString => EmptyString
  | String c s' =>
      if inMatch && negb (isSpace c) then removeUrls true s'
      else if urlAt s then removeUrls true s'
      else String c (removeUrls false s')
  end.

(** [[^\s#]]. *)
Definition tagChar (c : ascii) : bool :=
  negb (isSpace c) && negb (Ascii.eqb c "#").

(** [/#[^\s#]+/] matches at the start of [s]. *)
Definition tagAt (s : string) : bool :=
  match s with
  | String c (String d _) => Ascii.eqb c "#" && tagChar d
  | _ => false
  end.

(** [.replace(/#[^\s#]+/g, '')]: a match runs from its [#] to the next
    white-space character, the next [#] or the end. *)
Fixpoint removeHashtags (inMatch : bool) (s : string) : string :=
  match s with
  | EmptyString => EmptyString
  | String c s' =>
      if inMatch && tagChar c then removeHashtags true s'
      else if tagAt s then removeHashtags true s'
      else String c (removeHashtags false s')
  end.

(** [.replace(/\s+/g, ' ')]: each maximal run of white space becomes one
    space. *)
Fixpoint collapse (inMatch : bool) (s : string) : string :=
  match s with
  | EmptyString => EmptyString
  | String c s' =>
      if isSpace c
      then if inMatch then collapse true s' else String " " (collapse true s')
      else String c (collapse false s')
  end.

Fixpoint trimStart (s : string) : string :=
  match s with
  | EmptyString => EmptyString
  | String c s' => if isSpace c then trimStart s' else s
  end.

Fixpoint trimEnd (s : string) : string :=
  match s with
  | EmptyString => EmptyString
  | String c s' =>
      match trimEnd s' with
      | EmptyString => if isSpace c then EmptyString else String c EmptyString
      | r => String c r
      end
  end.

(** [.trim()]. *)
Definition trim (s : string) : string := trimEnd (trimStart s).

(** The chain of replacements on [tweet.text]. *)
Definition cleanText (s : string) : string :=
  trim (collapse false (removeHashtags false (removeUrls false s))).

(** The first [filter]. *)
Definition kept (tweet : Tweet) : bool :=
  negb (isRetweet tweet) && truthy_ostr (text tweet)
  && DataOrganizer.notNull (timestamp tweet).

(** The [map] callback: [None] is the [null] it returns for a text that
    cleans to nothing.  The entry [{ text: cleanText }] is represented by its
    text.  A tweet without a text does not reach the callback. *)
Definition entry (tweet : Tweet) : option string :=
  match text tweet with
  | Some s => if truthy_str (cleanText s) then Some (cleanText s) else None
  | None => None
  end.

(** The last [filter]: the entry is not [null] and its text is not empty. *)
Definition filled (e : option string) : bool :=
  match e with
  | Some s => (0 <? length s)%nat
  | None => false
  end.

(** The entries that pass the last [filter]. *)
Fixpoint texts (l : list (option string)) : list string :=
  match l with
  | [] => []
  | e :: l' =>
      if filled e
      then match e with
           | Some s => s :: texts l'
           | None => texts l'
           end
      else texts l'
  end.

Definition generateFinetuningData (tweets : list Tweet) : list string :=
  texts (List.map entry (List.filter kept tweets)).

End Finetuning.

(** The pattern tested by [at_] matches somewhere in [s]. *)
Fixpoint occurs (at_ : string -> bool) (s : string) : bool :=
  at_ s ||
  match s with
  | EmptyString => false
  | String _ s' => occurs at_ s'
  end.

(** [s] holds a match of the URL pattern; of the hashtag pattern. *)
Definition hasUrl (s : string) : bool := occurs Finetuning.urlAt s.

Definition hasTag (s : string) : bool := occurs Finetuning.tagAt s.

(** [s] begins with a white-space character. *)
Definition spaceNext (s : string) : bool :=
  match s with
  | EmptyString => false
  | String c _ => Finetuning.isSpace c
  end.

(** Every white-space character of [s] is a space that is followed by a
    character that is not white space. *)
Fixpoint spaced (s : string) : bool :=
  match s with
  | EmptyString => true
  | String c s' =>
      (if Finetuning.isSpace c
       then Ascii.eqb c " " && Finetuning.nonSpaceNext s'
       else true)
      && spaced s'
  end.

(** [s] is not empty, neither begins nor ends with white space, and its words
    are separated by single spaces. *)
Definition tidy (s : string) : bool :=
  Finetuning.nonSpaceNext s && spaced s.

(** As [spaced], but a space may also end the string. *)
Fixpoint loose (s : string) : bool :=
  match s with
  | EmptyString => true
  | String c s' =>
      (if Finetuning.isSpace c
       then Ascii.eqb c " " && negb (spaceNext s')
       else true)
      && loose s'
  end.

Definition isHash (c : ascii) : bool := Ascii.eqb c "#".

Definition noStop (c : ascii) : bool := false.

(** [out] repeats [inp] character by character up to its end, up to a
    white-space character of [out], or up to a common character that [stop]
    accepts. *)
Fixpoint follows (stop : ascii -> bool) (out inp : string) : Prop :=
  match out with
  | EmptyString => True
  | String c o =>
      Finetuning.isSpace c = true \/
      exists i, inp = String c i /\ (stop c = true \/ follows stop o i)
  end.

(** A tweet that [generateFinetuningData] turns into the entry [e]. *)
Definition sourceOf (e : string) (tweet : Tweet) : Prop :=
  isRetweet tweet = false /\ timestamp tweet <> None /\
  exists s, text tweet = Some s /\ s <> "" /\ Finetuning.cleanText s = e.

Module Sample5.

Definition post : string :=
  "gm  frens, read https://t.co/abc #alpha#beta now " ++ "www.x.io".

(** An own post, a retweet and a post that is a link only. *)
Definition timeline : list Tweet :=
  [Sample.tweet "1" post 1700000000000 false 3 1;
   Sample.tweet "2" "RT gm #gm" 1700000001000 true 0 0;
   Sample.tweet "3" " https://t.co/xyz " 1700000002000 false 0 0].

End Sample5.

(** * Properties *)

(** ** Record normalizer *)

Lemma processTweetData_rejected iso user st r :
  rejected r -> processTweetData iso user st (Some r) = (None, st).
Proof.
  unfold processTweetData.
  intros [Hid | [[Hts Hparsed] | (t & Hres & Hbad)]].
  - unfold lacksId in Hid. destruct (raw_id r) as [tid|]; [|reflexivity].
    simpl in Hid. now rewrite Hid.
  - destruct (raw_id r) as [tid|]; [|reflexivity].
    destruct (negb (truthy_str tid)); [reflexivity|].
    unfold resolveTimestamp.
    destruct (raw_timestamp r) as [t|]; [rewrite Hts|]; now rewrite Hparsed.
  - destruct (raw_id r) as [tid|]; [|reflexivity].
    destruct (negb (truthy_str tid)); [reflexivity|].
    rewrite Hres. destruct (falsy_num t); [reflexivity|].
    destruct (scaleTimestamp t) as [|ms]; [reflexivity|].
    apply Z.leb_le in Hbad. now rewrite Hbad.
Qed.

Lemma collectStep_rejected iso parse user opts acc r :
  rejected r -> collectStep iso parse user opts acc (Some r) = acc.
Proof.
  intros Hr. destruct acc as [m st]. unfold collectStep.
  destruct (map_has key_eqb m (raw_id r)); [reflexivity|].
  now rewrite (processTweetData_rejected iso user st r Hr).
Qed.

Lemma collectLoop_skip iso parse user opts pre post acc r :
  rejected r ->
  collectLoop iso parse user opts (pre ++ Some r :: post)%list acc =
  collectLoop iso parse user opts (pre ++ post)%list acc.
Proof.
  intros Hr. unfold collectLoop. rewrite !fold_left_app. simpl.
  now rewrite collectStep_rejected.
Qed.

Lemma In_map_set {K V : Type} (eqb : K -> K -> bool) (m : @jsmap K V) k v kv :
  In kv (map_set eqb m k v) -> In kv m \/ snd kv = v.
Proof.
  induction m as [|[k' v'] m IH]; simpl.
  - intros [<-|[]]. now right.
  - destruct (eqb k k'); simpl.
    + intros [<-|H]; [now right | left; now right].
    + intros [<-|H]; [left; now left|].
      destruct (IH H) as [H'|H']; [left; now right | now right].
Qed.

Lemma collectStep_provenance iso parse user opts results acc x :
  In x results ->
  Forall (fromSequence iso user results) (map_values (fst acc)) ->
  Forall (fromSequence iso user results)
    (map_values (fst (collectStep iso parse user opts acc x))).
Proof.
  intros Hx Hacc. destruct acc as [m st]. unfold collectStep.
  destruct x as [raw|]; [|exact Hacc].
  destruct (map_has key_eqb m (raw_id raw)); [exact Hacc|].
  destruct (processTweetData iso user st (Some raw)) as [[t|] st'] eqn:E;
    [|exact Hacc].
  destruct (inDateRange parse opts t); [|exact Hacc].
  simpl in *. apply Forall_forall. intros t' Ht'.
  unfold map_values in Ht'. apply in_map_iff in Ht' as (kv & <- & Hkv).
  apply In_map_set in Hkv as [Hkv | ->].
  - rewrite Forall_forall in Hacc. apply Hacc.
    unfold map_values. now apply in_map.
  - now exists raw, st, st'.
Qed.

Lemma collectLoop_provenance iso parse user opts results :
  forall part acc,
    incl part results ->
    Forall (fromSequence iso user results) (map_values (fst acc)) ->
    Forall (fromSequence iso user results)
      (map_values (fst (collectLoop iso parse user opts part acc))).
Proof.
  induction part as [|x part IH]; intros acc Hincl Hacc; simpl.
  - exact Hacc.
  - apply IH.
    + intros y Hy. apply Hincl. now right.
    + apply collectStep_provenance; [apply Hincl; now left | exact Hacc].
Qed.

Lemma unresolvable_iff (r : RawTweet) :
  unresolvable r <-> resolveTimestamp r = None.
Proof.
  unfold unresolvable, resolveTimestamp.
  destruct (raw_timestamp r) as [t|].
  - destruct (falsy_num t); split.
    + intros [_ H]. exact H.
    + intros H. split; [reflexivity | exact H].
    + intros [H _]. discriminate H.
    + intros H. discriminate H.
  - split; [intros [_ H]; exact H | intros H; split; [exact I | exact H]].
Qed.

(** The three kinds of rejected record, one by one. *)
Example scenario_rejected_kinds :
  lacksId (Sample.raw None "no id" (Some (Num 1700000000))) /\
  lacksId (Sample.raw (Some "") "empty id" (Some (Num 1700000000))) /\
  unresolvable (Sample.raw (Some "1") "no time" None) /\
  unresolvable (Sample.raw (Some "1") "epoch" (Some (Num 0))) /\
  unresolvable (Sample.raw (Some "1") "not a number" (Some NaN)) /\
  badTimestamp (Sample.raw (Some "1") "negative" (Some (Num (-5)))).
Proof.
  repeat split.
  exists (Num (-5)). split; [reflexivity|]. simpl. lia.
Qed.

(** C1. A raw record that lacks an identifier, or has no timestamp to resolve
    (the timestamp field is absent, [0] or [NaN] and there is no parsed
    date), or whose resolved timestamp is NaN or non-positive after scaling,
    is rejected by [processTweetData] (which returns null and leaves the
    stats alone); removing it from the sequence the search yields changes
    neither the collected array nor what is saved; and every record that is
    collected was built from a record of the sequence that is not of this
    kind. *)
Theorem rejected_record_never_stored
  (iso : Z -> string) (parse : string -> num) (user : string)
  (r : RawTweet) :
  rejected r ->
  (forall st, processTweetData iso user st (Some r) = (None, st)) /\
  (forall search search' cfg opts st pre post,
      search (String.append "from:" user) (maxTweets cfg)
        = (pre ++ Some r :: post)%list ->
      search' (String.append "from:" user) (maxTweets cfg)
        = (pre ++ post)%list ->
      collectTweets iso parse search user cfg opts st
        = collectTweets iso parse search' user cfg opts st /\
      run_saved iso parse search user cfg opts st
        = run_saved iso parse search' user cfg opts st) /\
  (forall search cfg opts st t,
      In t (fst (collectTweets iso parse search user cfg opts st)) ->
      exists r' st1 st2,
        In (Some r') (search (String.append "from:" user) (maxTweets cfg)) /\
        ~ rejected r' /\
        processTweetData iso user st1 (Some r') = (Some t, st2)).
Proof.
  intros Hr. split; [|split].
  - intros st. now apply processTweetData_rejected.
  - intros search search' cfg opts st pre post Hs Hs'.
    assert (Hc : collectTweets iso parse search user cfg opts st
                 = collectTweets iso parse search' user cfg opts st).
    { unfold collectTweets. rewrite Hs, Hs'.
      now rewrite (collectLoop_skip iso parse user opts pre post _ r Hr). }
    split; [exact Hc|]. unfold run_saved. now rewrite Hc.
  - intros search cfg opts st t Ht.
    unfold collectTweets in Ht.
    set (results := search (String.append "from:" user) (maxTweets cfg)) in *.
    pose proof (collectLoop_provenance iso parse user opts results results
                  ([], st) (incl_refl _) (Forall_nil _)) as Hall.
    destruct (collectLoop iso parse user opts results ([], st)) as [m st'].
    simpl in Ht, Hall. rewrite Forall_forall in Hall.
    destruct (Hall t Ht) as (r' & st1 & st2 & Hin & Hp).
    exists r', st1, st2. repeat split; trivial.
    intros Hr'. rewrite (processTweetData_rejected iso user st1 r' Hr') in Hp.
    discriminate.
Qed.

Lemma rejected_record_never_stored_witness :
  rejected (Sample.raw (Some "1") "epoch" (Some (Num 0))) /\
  forall st,
    processTweetData Sample.iso "user" st
      (Some (Sample.raw (Some "1") "epoch" (Some (Num 0)))) = (None, st).
Proof.
  assert (H : rejected (Sample.raw (Some "1") "epoch" (Some (Num 0)))).
  { right. left. split; reflexivity. }
  split; [exact H|].
  exact (proj1 (rejected_record_never_stored Sample.iso Sample.parse "user"
                  (Sample.raw (Some "1") "epoch" (Some (Num 0))) H)).
Defined.

(** What [processTweetData] does with a record whose id is present and whose
    timestamp field holds a positive, valid time [ms]. *)
Lemma timestampMillis_withTimestamp iso user st r ms :
  truthy_ostr (raw_id r) = true ->
  0 < ms ->
  validTime (if ms <? 10 ^ 12 then ms * 1000 else ms) = true ->
  timestampMillis iso user st (withTimestamp r ms)
  = Some (if ms <? 10 ^ 12 then ms * 1000 else ms).
Proof.
  intros Hid Hpos Hvalid.
  unfold timestampMillis, processTweetData, withTimestamp; simpl.
  destruct (raw_id r) as [tid|]; [|discriminate]. simpl in Hid. rewrite Hid.
  simpl. unfold resolveTimestamp; simpl.
  assert (Hz : (ms =? 0) = false) by (apply Z.eqb_neq; lia).
  rewrite Hz. simpl. rewrite Hz. unfold scaleTimestamp. simpl.
  change (Z.pow_pos 10 12) with (10 ^ 12).
  destruct (ms <? 10 ^ 12) eqn:Hlt; simpl.
  - assert (Hle : (ms * 1000 <=? 0) = false) by (apply Z.leb_gt; lia).
    rewrite Hle. unfold toISOString. now rewrite Hvalid.
  - assert (Hle : (ms <=? 0) = false) by (apply Z.leb_gt; lia).
    rewrite Hle. unfold toISOString. now rewrite Hvalid.
Qed.

(** An accepted record has an id, and its millisecond timestamp is positive
    and a valid time. *)
Lemma timestampMillis_accepted iso user st r ms :
  timestampMillis iso user st r = Some ms ->
  truthy_ostr (raw_id r) = true /\ 0 < ms /\ validTime ms = true.
Proof.
  unfold timestampMillis, processTweetData.
  destruct (raw_id r) as [tid|]; [|discriminate]. simpl.
  destruct (truthy_str tid); [|discriminate]. simpl.
  destruct (resolveTimestamp r) as [t|]; [|discriminate].
  destruct (falsy_num t); [discriminate|].
  destruct (scaleTimestamp t) as [|z]; [discriminate|].
  destruct (z <=? 0) eqn:Hle; [discriminate|].
  unfold toISOString. destruct (validTime z) eqn:Hv; [|discriminate].
  simpl. intros [= <-]. apply Z.leb_gt in Hle. auto.
Qed.

(** C2, as the code has it.  Normalizing again the millisecond value of an
    accepted record gives the same value when that value is at least 1e12,
    and multiplies it by 1000 once more when it is below 1e12. *)
Theorem timestamp_renormalization
  (iso : Z -> string) (user : string) (r : RawTweet) (st st' : Stats)
  (ms : Z) :
  timestampMillis iso user st r = Some ms ->
  (10 ^ 12 <= ms ->
   timestampMillis iso user st' (withTimestamp r ms) = Some ms) /\
  (ms < 10 ^ 12 ->
   timestampMillis iso user st' (withTimestamp r ms) = Some (ms * 1000)).
Proof.
  intros H. apply timestampMillis_accepted in H as (Hid & Hpos & Hvalid).
  split; intros Hms.
  - rewrite timestampMillis_withTimestamp; trivial.
    + apply Z.ltb_ge in Hms. now rewrite Hms.
    + apply Z.ltb_ge in Hms. now rewrite Hms.
  - assert (Hlt : (ms <? 10 ^ 12) = true) by now apply Z.ltb_lt.
    rewrite timestampMillis_withTimestamp; trivial.
    + now rewrite Hlt.
    + rewrite Hlt. unfold validTime, maxTime.
      apply andb_true_iff. split; apply Z.leb_le; lia.
Qed.

Lemma timestamp_renormalization_witness :
  timestampMillis Sample.iso "user" Sample.stats0
    (Sample.raw (Some "1") "hello world" (Some (Num 1700000000)))
  = Some 1700000000000 /\
  timestampMillis Sample.iso "user" Sample.stats0
    (withTimestamp
       (Sample.raw (Some "1") "hello world" (Some (Num 1700000000)))
       1700000000000)
  = Some 1700000000000.
Proof.
  assert (H : timestampMillis Sample.iso "user" Sample.stats0
                (Sample.raw (Some "1") "hello world"
                   (Some (Num 1700000000)))
              = Some 1700000000000) by reflexivity.
  split; [exact H|].
  apply (proj1 (timestamp_renormalization Sample.iso "user" _
                  Sample.stats0 Sample.stats0 _ H)).
  lia.
Defined.

(** C2 as stated fails: a timestamp of 946684800 seconds (1 January 2000) is
    normalized to 946684800000 ms, which is below 1e12 and is scaled again
    when normalized a second time. *)
Lemma timestamp_normalization_not_idempotent :
  ~ (forall (r : RawTweet) (ms : Z),
        timestampMillis Sample.iso "user" Sample.stats0 r = Some ms ->
        timestampMillis Sample.iso "user" Sample.stats0 (withTimestamp r ms)
        = Some ms).
Proof.
  intros H.
  specialize (H (Sample.raw (Some "1") "y2k" (Some (Num 946684800)))
                946684800000 eq_refl).
  vm_compute in H. discriminate.
Qed.

(** ** Rate-limit controller *)

Local Open Scope Q_scope.

Lemma exponentialDelay_value cfg n rnd draws st :
  (1 <= n)%Z ->
  exponentialDelay (fst (handleRateLimit cfg (Some n) rnd draws st))
  == 60000 * inject_Z (2 ^ (n - 1)).
Proof.
  intros Hn. simpl. rewrite Zpower_Qpower by lia. reflexivity.
Qed.

Lemma exponentialDelay_from_5 (n : Z) :
  (5 <= n)%Z -> 960000 <= 60000 * inject_Z (2 ^ (n - 1)).
Proof.
  intros Hn.
  assert (H16 : (2 ^ 4 <= 2 ^ (n - 1))%Z) by (apply Z.pow_le_mono_r; lia).
  change (2 ^ 4)%Z with 16%Z in H16.
  assert (Hq : inject_Z 16 <= inject_Z (2 ^ (n - 1)))
    by (rewrite <- Zle_Qle; exact H16).
  change (inject_Z 16) with (16 # 1) in Hq.
  setoid_replace 960000 with (60000 * (16 # 1)) by reflexivity.
  apply Qmult_le_l; [reflexivity | exact Hq].
Qed.

(** C3. For an attempt number [n >= 1] and a [Math.random()] draw in [0, 1),
    the delay [handleRateLimit] computes is
    [min(60000 * 2^(n-1) * (1 + j), 900000)] for a jitter factor [j] between
    0 and 0.1, and from attempt 5 on it is the 15-minute cap; every call,
    whatever its arguments, adds exactly one to [stats.rateLimitHits]. *)
Theorem handleRateLimit_delay (cfg : Config) (draws : list Q) (st : Stats) :
  (forall (n : Z) (rnd : Q),
      (1 <= n)%Z -> 0 <= rnd -> rnd < 1 ->
      (exists j : Q,
          0 <= j /\ j <= 1 # 10 /\
          delay (fst (handleRateLimit cfg (Some n) rnd draws st))
          == Qmin (60000 * 2 ^ (n - 1) * (1 + j)) 900000) /\
      ((5 <= n)%Z ->
       delay (fst (handleRateLimit cfg (Some n) rnd draws st)) == 900000)) /\
  (forall (retryCount : option Z) (rnd : Q),
      rateLimitHits (snd (handleRateLimit cfg retryCount rnd draws st))
      = (rateLimitHits st + 1)%Z).
Proof.
  split; [|reflexivity].
  intros n rnd Hn H0 H1. split.
  - exists (rnd * (1 # 10)). split; [|split].
    + apply Qmult_le_0_compat; [exact H0 | discriminate].
    + setoid_replace (1 # 10) with (1 * (1 # 10)) at 2 by reflexivity.
      apply Qmult_le_compat_r; [now apply Qlt_le_weak | discriminate].
    + simpl. apply Q.min_compat; [ring | reflexivity].
  - intros H5. simpl.
    pose proof (exponentialDelay_from_5 n H5) as He.
    rewrite Zpower_Qpower in He by lia.
    change (inject_Z 2) with 2 in He.
    apply Q.min_r.
    assert (Hj : 0 <= rnd * (1 # 10) * (60000 * 2 ^ (n - 1))).
    { apply Qmult_le_0_compat.
      - apply Qmult_le_0_compat; [exact H0 | discriminate].
      - apply Qle_trans with 960000; [discriminate | exact He]. }
    change (inject_Z (15 * 60 * 1000)) with 900000.
    apply Qle_trans with (960000 + 0); [discriminate|].
    apply Qplus_le_compat; assumption.
Qed.

Lemma handleRateLimit_delay_witness :
  delay (fst (handleRateLimit defaultConfig (Some 5%Z) (1 # 2) []
                (initialStats 0))) == 900000 /\
  rateLimitHits (snd (handleRateLimit defaultConfig (Some 5%Z) (1 # 2) []
                        (initialStats 0))) = 1%Z.
Proof.
  destruct (handleRateLimit_delay defaultConfig [] (initialStats 0))
    as (Hdelay & Hhits).
  destruct (Hdelay 5%Z (1 # 2)) as (_ & Hcap).
  - lia.
  - discriminate.
  - reflexivity.
  - split; [apply Hcap; lia | apply Hhits].
Defined.

Local Close Scope Q_scope.

(** ** Primary collector *)

(** The loop never stops before the end of the sequence: collecting from a
    sequence is collecting from its first part and going on with the rest. *)
Lemma collectLoop_app iso parse user opts pre post acc :
  collectLoop iso parse user opts (pre ++ post)%list acc
  = collectLoop iso parse user opts post
      (collectLoop iso parse user opts pre acc).
Proof.
  unfold collectLoop. apply fold_left_app.
Qed.

(** C4, at the failing input.  The sequence yields the record with id 1 four
    times, one record a batch, so that three batches in a row bring nothing
    new, and then the record with id 2.  [collectTweets] reads the sequence
    to its end and returns both records, and it does so whatever [maxTweets]
    is: the limit is only passed on to [searchTweets]. *)
Theorem collectTweets_reads_whole_sequence :
  forall maxTweets : Z,
    List.map id
      (fst (collectTweets Sample.iso Sample.parse
              (Sample.yields (List.concat Sample.stagnantBatches)) "user"
              (mkConfig maxTweets 1000 3000 3 1800000) Sample.noOptions
              Sample.stats0))
    = ["1"; "2"].
Proof.
  intros maxTweets. reflexivity.
Qed.

(** ** Fallback collector *)

(** The set holds objects only, each under a reference below [nextRef]. *)
Lemma addScraped_adds (s : Fallback.LoopState) (t : Fallback.Scraped) :
  Forall (fun v => exists r o, v = Fallback.VObj r o
                               /\ (r < Fallback.nextRef s)%nat)
         (Fallback.tweets s) ->
  Fallback.tweets (Fallback.addScraped s t)
  = (Fallback.tweets s ++ [Fallback.VObj (Fallback.nextRef s) t])%list /\
  Forall (fun v => exists r o, v = Fallback.VObj r o
                               /\ (r < Fallback.nextRef
                                         (Fallback.addScraped s t))%nat)
         (Fallback.tweets (Fallback.addScraped s t)).
Proof.
  intros Hobj. unfold Fallback.addScraped.
  assert (Hid : Fallback.set_has (Fallback.tweets s) (Fallback.id_value t)
                = false).
  { unfold Fallback.set_has. apply not_true_is_false. intros H.
    apply existsb_exists in H as (v & Hv & Heq).
    rewrite Forall_forall in Hobj. destruct (Hobj v Hv) as (r & o & -> & _).
    unfold Fallback.id_value in Heq. now destruct (Fallback.id t). }
  assert (Hnew : Fallback.set_has (Fallback.tweets s)
                   (Fallback.VObj (Fallback.nextRef s) t) = false).
  { unfold Fallback.set_has. apply not_true_is_false. intros H.
    apply existsb_exists in H as (v & Hv & Heq).
    rewrite Forall_forall in Hobj. destruct (Hobj v Hv) as (r & o & -> & Hr).
    simpl in Heq. apply Nat.eqb_eq in Heq. lia. }
  rewrite Hid. simpl. unfold Fallback.set_add. rewrite Hnew.
  split; [reflexivity|].
  apply Forall_app. split.
  - eapply Forall_impl; [|exact Hobj].
    intros v (r & o & -> & Hr). exists r, o. split; [reflexivity | lia].
  - constructor; [|constructor].
    exists (Fallback.nextRef s), t. split; [reflexivity | lia].
Qed.

(** C5, at the failing input.  When two scroll cycles in a row show the post
    with id 1, the [Set] that the task of [collectWithFallback] accumulates
    holds two records with that id when the scroll loop ends: the membership
    test looks for the id string in a set that holds objects.  The counter
    [stats.fallbackCount] has gone up by two as well. *)
Theorem collectWithFallback_stores_id_twice :
  Fallback.stored_ids
    (Fallback.tweets
       (Fallback.task
          (Fallback.collectWithFallback defaultConfig 0 Sample.samePostTwice
             Sample.stats0)))
  = [Some "1"; Some "1"] /\
  fallbackCount
    (Fallback.stats
       (Fallback.task
          (Fallback.collectWithFallback defaultConfig 0 Sample.samePostTwice
             Sample.stats0)))
  = fallbackCount Sample.stats0 + 2.
Proof.
  split; vm_compute; reflexivity.
Qed.

(** ** Sorting and slicing *)

Section SortFacts.

Context {A : Type} (cmp : A -> A -> Z).

Lemma insert_In (x y : A) (l : list A) :
  In y (insert cmp x l) <-> y = x \/ In y l.
Proof.
  induction l as [|z l IH]; simpl.
  - intuition.
  - destruct (cmp x z <=? 0); simpl; [intuition|].
    rewrite IH. intuition.
Qed.

Lemma sort_In (y : A) (l : list A) :
  In y (sort cmp l) <-> In y l.
Proof.
  induction l as [|x l IH]; simpl; [tauto|].
  rewrite insert_In, IH. intuition.
Qed.

Lemma insert_length (x : A) (l : list A) :
  List.length (insert cmp x l) = S (List.length l).
Proof.
  induction l as [|z l IH]; simpl; [reflexivity|].
  destruct (cmp x z <=? 0); simpl; [reflexivity | now rewrite IH].
Qed.

Lemma sort_length (l : list A) :
  List.length (sort cmp l) = List.length l.
Proof.
  induction l as [|x l IH]; simpl; [reflexivity|].
  now rewrite insert_length, IH.
Qed.

(** The comparator is the difference of a key, taken in decreasing order, on
    the elements that satisfy [P]. *)
Variable key : A -> Z.
Variable P : A -> Prop.
Hypothesis cmp_key : forall a b, P a -> P b -> cmp a b = key b - key a.

Lemma insert_sorted (x : A) (l : list A) :
  P x -> Forall P l ->
  StronglySorted (fun x y => key y <= key x) l ->
  StronglySorted (fun x y => key y <= key x) (insert cmp x l).
Proof.
  intros Px Pl Hs. induction Hs as [|z l Hs IH Hz]; simpl.
  - repeat constructor.
  - inversion Pl as [|? ? Pz Pl']; subst.
    rewrite (cmp_key x z Px Pz).
    destruct (key z - key x <=? 0) eqn:E.
    + apply Z.leb_le in E. constructor.
      * now constructor.
      * constructor; [lia|].
        eapply Forall_impl; [|exact Hz]. simpl. intros; lia.
    + apply Z.leb_gt in E. constructor.
      * now apply IH.
      * apply Forall_forall. intros y Hy.
        apply -> insert_In in Hy. destruct Hy as [->|Hy]; [lia|].
        rewrite Forall_forall in Hz. now apply Hz.
Qed.

Lemma sort_sorted (l : list A) :
  Forall P l -> StronglySorted (fun x y => key y <= key x) (sort cmp l).
Proof.
  induction l as [|x l IH]; simpl; intros Pl.
  - constructor.
  - inversion Pl as [|? ? Px Pl']; subst. apply insert_sorted.
    + exact Px.
    + apply Forall_forall. intros y Hy. apply -> sort_In in Hy.
      rewrite Forall_forall in Pl'. now apply Pl'.
    + now apply IH.
Qed.

End SortFacts.

Lemma firstn_In {A : Type} (n : nat) (x : A) (l : list A) :
  In x (firstn n l) -> In x l.
Proof.
  revert n. induction l as [|y l IH]; intros [|n]; simpl; try tauto.
  intros [->|H]; [now left | right; eapply IH; exact H].
Qed.

Lemma firstn_sorted {A : Type} (R : A -> A -> Prop) (n : nat) (l : list A) :
  StronglySorted R l -> StronglySorted R (firstn n l).
Proof.
  intros Hs. revert n. induction Hs as [|x l Hs IH Hx]; intros [|n]; simpl;
    try constructor.
  - apply IH.
  - apply Forall_forall. intros y Hy. rewrite Forall_forall in Hx.
    apply Hx. eapply firstn_In; exact Hy.
Qed.

Lemma slice0_firstn {A : Type} (k : nat) (l : list A) :
  slice0 (Z.of_nat k) l = firstn k l.
Proof.
  unfold slice0.
  assert (H : (Z.of_nat k <? 0) = false) by (apply Z.ltb_ge; lia).
  rewrite H.
  destruct (Nat.le_gt_cases k (List.length l)) as [Hle|Hgt].
  - rewrite Z.min_l by lia. now rewrite Nat2Z.id.
  - rewrite Z.min_r by lia. rewrite Nat2Z.id.
    rewrite !firstn_all2; trivial; lia.
Qed.

Lemma slice0_In {A : Type} (e : Z) (x : A) (l : list A) :
  In x (slice0 e l) -> In x l.
Proof.
  unfold slice0. apply firstn_In.
Qed.

(** ** Merge engine *)



Lemma selectTop_In filterRetweets sortBy k (t : Tweet) (l : list Tweet) :
  In t (Merge.selectTop filterRetweets sortBy k l) ->
  In t (Merge.eligible filterRetweets l).
Proof.
  unfold Merge.selectTop. intros H.
  apply slice0_In in H. now apply (proj1 (sort_In _ _ _)) in H.
Qed.

(** With the retweet filter on, no retweet is among an account's selected
    tweets. *)
Lemma selectTop_drops_retweets sortBy k (t : Tweet) (l : list Tweet) :
  In t (Merge.selectTop true sortBy k l) -> isRetweet t = false.
Proof.
  intros H. apply selectTop_In in H. simpl in H.
  apply filter_In in H as [_ H]. now apply negb_true_iff in H.
Qed.


Lemma selectTop_length filterRetweets sortBy (k : nat) (l : list Tweet) :
  List.length (Merge.selectTop filterRetweets sortBy (Z.of_nat k) l)
  = Nat.min k (List.length (Merge.eligible filterRetweets l)).
Proof.
  unfold Merge.selectTop. rewrite slice0_firstn, length_firstn.
  now rewrite sort_length.
Qed.


(** When every account has at least [k] eligible tweets, exactly [k] are
    taken from each. *)
Lemma selectedCount_exact store filterRetweets sortBy (k : nat) accounts :
  (forall a, In a accounts ->
             (k <= List.length (Merge.eligible filterRetweets (store a)))%nat) ->
  selectedCount store filterRetweets sortBy (Z.of_nat k) accounts
  = (List.length accounts * k)%nat.
Proof.
  unfold selectedCount. induction accounts as [|a accounts IH]; simpl;
    intros H.
  - reflexivity.
  - rewrite selectTop_length, IH by (intros; apply H; now right).
    specialize (H a (or_introl eq_refl)). lia.
Qed.





(** The records [processTweetData] builds carry a valid date. *)
Lemma processTweetData_wellDated iso user st r t st' :
  processTweetData iso user st r = (Some t, st') -> wellDated t.
Proof.
  unfold processTweetData. destruct r as [r|]; [|discriminate].
  destruct (raw_id r) as [tid|]; [|discriminate].
  destruct (negb (truthy_str tid)); [discriminate|].
  destruct (resolveTimestamp r) as [ts|]; [|discriminate].
  destruct (falsy_num ts); [discriminate|].
  destruct (scaleTimestamp ts) as [|ms]; [discriminate|].
  destruct (ms <=? 0); [discriminate|].
  unfold toISOString. destruct (validTime ms) eqn:Hv; [|discriminate].
  intros [= <- _]. unfold wellDated, Merge.tweetDate. simpl.
  rewrite Hv. discriminate.
Qed.

Lemma addTop_values (Q : Tweet -> Prop) account (l : list Tweet) :
  Forall Q l ->
  forall acc : Merge.MergeState,
    Forall Q (map_values (fst acc)) ->
    Forall Q (map_values (fst (fold_left (Merge.addTop account) l acc))).
Proof.
  induction 1 as [|t l Ht Hl IH]; intros [m s] Hacc; simpl.
  - exact Hacc.
  - apply IH. simpl in *. apply Forall_forall. intros t' Ht'.
    unfold map_values in Ht'. apply in_map_iff in Ht' as (kv & <- & Hkv).
    apply In_map_set in Hkv as [Hkv | ->]; [|exact Ht].
    rewrite Forall_forall in Hacc. apply Hacc.
    unfold map_values. now apply in_map.
Qed.

(** Called with the retweet filter on, the capped merge stores no retweet. *)
Lemma createMergedCharacter_filters store dates accounts k sortBy r :
  Merge.createMergedCharacter store dates accounts
    (Merge.mkMergeOptions k (Some true) sortBy) = Ok r ->
  Forall (fun t => isRetweet t = false) (Merge.mergedArray r).
Proof.
  unfold Merge.createMergedCharacter. simpl.
  destruct (filter _ (List.map dates accounts)); [discriminate|].
  set (cap := match k with Some k' => k' | None => 50 end).
  set (key := match sortBy with Some s => s | None => "total" end).
  assert (H : forall acc : Merge.MergeState,
             Forall (fun t => isRetweet t = false) (map_values (fst acc)) ->
             Forall (fun t => isRetweet t = false)
               (map_values
                  (fst (fold_left (Merge.mergeAccount store true key cap)
                          accounts acc)))).
  { induction accounts as [|a accounts IH]; intros acc Hacc; simpl.
    - exact Hacc.
    - apply IH. unfold Merge.mergeAccount. apply addTop_values; trivial.
      apply Forall_forall. intros t Ht.
      eapply selectTop_drops_retweets; exact Ht. }
  specialize (H ([], Merge.emptyStats) (Forall_nil _)).
  destruct (fold_left (Merge.mergeAccount store true key cap) accounts
              ([], Merge.emptyStats)) as [m s].
  intros [= <-]. exact H.
Qed.

(** C6, at the failing input.  When the accounts a and b both hold a tweet
    with id 1, the capped merge of [a; b] stores the one of b, the later
    account, and counts two tweets. *)
Theorem createMergedCharacter_later_account_wins :
  exists r,
    Merge.createMergedCharacter Sample.sharedIdStore Sample.dated ["a"; "b"]
      (Merge.mkMergeOptions None None None) = Ok r /\
    List.map (fun t => (id t, text t)) (Merge.mergedArray r)
    = [("1", Some "from b")] /\
    Merge.totalTweets (Merge.mergedStats r) = 2.
Proof.
  eexists. split; [reflexivity|]. repeat split.
Qed.

(** C9, at the failing input.  When the answer to "Exclude retweets?" is yes,
    [main] calls the merge with [filterRetweets = false], and the retweet
    with id 10 of account a is among the merged tweets. *)
Theorem main_exclude_retweets_keeps_retweets :
  exists r,
    Merge.main Sample.retweetStore Sample.dated (Some "merged") "a" "b"
      (Merge.mkAnswers 50 true "Total engagement (likes + retweets)") = Ok r /\
    List.map (fun t => (id t, isRetweet t)) (Merge.mergedArray r)
    = [("10", true); ("11", false); ("20", false)].
Proof.
  eexists. split; reflexivity.
Qed.

(** ** Analytics snapshot *)

(** C8. On the empty list [generateAnalytics] returns, without throwing, a
    snapshot with [totalTweets = 0], [averageLikes = "0.00"] and the time
    range N/A to N/A. *)
Theorem generateAnalytics_empty (formatDate : Z -> string) :
  exists a,
    DataOrganizer.generateAnalytics formatDate [] = Ok a /\
    DataOrganizer.totalTweets a = 0 /\
    DataOrganizer.averageLikes (DataOrganizer.engagement a) = "0.00" /\
    DataOrganizer.start (DataOrganizer.timeRange a) = "N/A" /\
    DataOrganizer.end_ (DataOrganizer.timeRange a) = "N/A".
Proof.
  eexists. split; [reflexivity|]. repeat split.
Qed.

Lemma filter_all_retweets (tweets : list Tweet) :
  Forall (fun t => isRetweet t = true) tweets ->
  filter (fun t => negb (isRetweet t)) tweets = [].
Proof.
  induction 1 as [|t l Ht Hl IH]; simpl; [reflexivity|].
  now rewrite Ht.
Qed.

Lemma timestamps_In (z : Z) (l : list Tweet) :
  In z (DataOrganizer.timestamps l) ->
  exists t, In t l /\ timestamp t = Some z.
Proof.
  induction l as [|t l IH]; simpl; [tauto|].
  destruct (timestamp t) as [z'|] eqn:E.
  - intros [<-|H].
    + exists t. auto.
    + destruct (IH H) as (t' & Ht' & Hz). exists t'. auto.
  - intros H. destruct (IH H) as (t' & Ht' & Hz). exists t'. auto.
Qed.

Lemma last_In {A : Type} (l : list A) (d : A) :
  l <> [] -> In (last l d) l.
Proof.
  induction l as [|x l IH]; [congruence|]. intros _.
  destruct l as [|y l]; [now left|].
  right. apply IH. discriminate.
Qed.

(** The dates the time range is computed from are valid when the stored
    timestamps are. *)
Lemma validDates_valid (tweets : list Tweet) (z : Z) :
  Forall validTimestamp tweets ->
  In z (sort (fun a b => a - b)
          (DataOrganizer.timestamps
             (filter (fun t => DataOrganizer.notNull (timestamp t)) tweets))) ->
  validTime z = true.
Proof.
  intros Hv Hz. apply (proj1 (sort_In _ _ _)) in Hz.
  apply timestamps_In in Hz as (t & Ht & Hts).
  apply filter_In in Ht as [Ht _].
  rewrite Forall_forall in Hv. specialize (Hv t Ht).
  unfold validTimestamp in Hv. now rewrite Hts in Hv.
Qed.

(** C10. On a non-empty list in which every tweet is a retweet, the snapshot
    [generateAnalytics] returns has [averageLikes = "NaN"]: the total 0 is
    divided by the count 0 of tweets that are not retweets.  It does return
    a snapshot when the stored timestamps are valid times. *)
Theorem generateAnalytics_all_retweets
  (formatDate : Z -> string) (tweets : list Tweet) :
  tweets <> [] ->
  Forall (fun t => isRetweet t = true) tweets ->
  (forall a,
      DataOrganizer.generateAnalytics formatDate tweets = Ok a ->
      DataOrganizer.averageLikes (DataOrganizer.engagement a) = "NaN") /\
  (Forall validTimestamp tweets ->
   exists a,
     DataOrganizer.generateAnalytics formatDate tweets = Ok a /\
     DataOrganizer.averageLikes (DataOrganizer.engagement a) = "NaN" /\
     DataOrganizer.totalLikes (DataOrganizer.engagement a) = 0).
Proof.
  intros Hne Hrt.
  assert (Hgen : DataOrganizer.generateAnalytics formatDate tweets
                 = DataOrganizer.snapshot formatDate tweets).
  { destruct tweets; [congruence | reflexivity]. }
  rewrite Hgen. unfold DataOrganizer.snapshot.
  rewrite (filter_all_retweets tweets Hrt). simpl.
  set (validDates :=
         sort (fun a b => a - b)
           (DataOrganizer.timestamps
              (filter (fun t => DataOrganizer.notNull (timestamp t))
                 tweets))).
  assert (Hvalid : Forall validTimestamp tweets ->
                   forall z, In z validDates -> validTime z = true).
  { intros Hv z Hz. eapply validDates_valid; eauto. }
  clearbody validDates.
  split.
  - intros a. destruct validDates as [|first rest].
    + intros [= <-]. reflexivity.
    + destruct (DataOrganizer.format formatDate first); [|discriminate].
      destruct (DataOrganizer.format formatDate (last (first :: rest) first));
        [|discriminate].
      intros [= <-]. reflexivity.
  - intros Hv. specialize (Hvalid Hv).
    destruct validDates as [|first rest].
    + eexists. split; [reflexivity|]. split; reflexivity.
    + unfold DataOrganizer.format.
      rewrite (Hvalid first) by now left.
      rewrite (Hvalid (last (first :: rest) first))
        by (apply last_In; discriminate).
      eexists. split; [reflexivity|]. split; reflexivity.
Qed.

Lemma generateAnalytics_all_retweets_witness :
  exists a,
    DataOrganizer.generateAnalytics Sample.fmt
      [Sample.tweet "2" "RT @x hi" 1700000000000 true 4 1] = Ok a /\
    DataOrganizer.averageLikes (DataOrganizer.engagement a) = "NaN" /\
    DataOrganizer.totalLikes (DataOrganizer.engagement a) = 0.
Proof.
  apply (proj2 (generateAnalytics_all_retweets Sample.fmt
                  [Sample.tweet "2" "RT @x hi" 1700000000000 true 4 1]
                  ltac:(discriminate)
                  ltac:(repeat constructor))).
  repeat constructor.
Defined.

(** ** The scenarios of the specification, run on the model *)

(** Two raw records with the same id: the first one seen is kept, with its
    timestamp in milliseconds. *)
Example scenario_duplicate_id :
  List.map (fun t => (id t, text t, timestamp t))
    (fst (collectTweets Sample.iso Sample.parse
            (Sample.yields
               [Some (Sample.raw (Some "1") "hello world"
                        (Some (Num 1700000000)));
                Some (Sample.raw (Some "1") "dup" (Some (Num 1700000001)))])
            "user" defaultConfig Sample.noOptions Sample.stats0))
  = [("1", Some "hello world", Some 1700000000000)].
Proof.
  reflexivity.
Qed.

(** A retweet is counted under [retweets] and left out of the engagement
    totals. *)
Example scenario_retweet_counted :
  exists a,
    DataOrganizer.generateAnalytics Sample.fmt
      [Sample.tweet "2" "RT @x hi" 1700000000000 true 4 1;
       Sample.tweet "3" "mine" 1700000000000 false 7 0;
       Sample.tweet "4" "mine too" 1700000000000 false 0 0] = Ok a /\
    DataOrganizer.retweets a = 1 /\
    DataOrganizer.totalLikes (DataOrganizer.engagement a) = 7 /\
    DataOrganizer.averageLikes (DataOrganizer.engagement a) = "3.50".
Proof.
  eexists. split; [reflexivity|]. repeat split.
Qed.

(** The raw exponential delays of attempts 1, 2 and 3. *)
Example scenario_backoff_sequence :
  List.map
    (fun n => exponentialDelay
                (fst (handleRateLimit defaultConfig (Some n) 0%Q []
                        Sample.stats0)))
    [1; 2; 3]
  = [60000%Q; 120000%Q; 240000%Q].
Proof.
  reflexivity.
Qed.

(** * Further properties of the code *)

(** ** Maps *)

Lemma key_eqb_eq (a b : option string) :
  key_eqb a b = true <-> a = b.
Proof.
  destruct a as [x|], b as [y|]; simpl; try (split; congruence).
  rewrite String.eqb_eq. split; congruence.
Qed.

Section MapFacts.

Context {K V : Type} (eqb : K -> K -> bool).
Hypothesis eqb_eq : forall a b, eqb a b = true <-> a = b.

Lemma map_has_In (m : @jsmap K V) (k : K) :
  map_has eqb m k = true <-> In k (map_keys m).
Proof.
  induction m as [|[k' v'] m IH]; simpl.
  - split; [discriminate | tauto].
  - rewrite orb_true_iff, IH, eqb_eq. split; intros [H|H]; auto.
Qed.

Lemma map_keys_set (m : @jsmap K V) (k : K) (v : V) :
  map_keys (map_set eqb m k v)
  = if map_has eqb m k then map_keys m else (map_keys m ++ [k])%list.
Proof.
  induction m as [|[k' v'] m IH]; simpl; [reflexivity|].
  destruct (eqb k k') eqn:E; simpl; [reflexivity|].
  rewrite IH. now destruct (map_has eqb m k).
Qed.

Lemma map_set_NoDup (m : @jsmap K V) (k : K) (v : V) :
  NoDup (map_keys m) -> NoDup (map_keys (map_set eqb m k v)).
Proof.
  intros Hnd. rewrite map_keys_set.
  destruct (map_has eqb m k) eqn:E; [exact Hnd|].
  apply NoDup_app; [exact Hnd | repeat constructor; simpl; tauto |].
  intros x Hx [<-|[]]. apply map_has_In in Hx. congruence.
Qed.

(** Setting a key leaves the entries of the other keys alone. *)
Lemma map_get_set_other (m : @jsmap K V) (k k' : K) (v : V) :
  k' <> k -> map_get eqb (map_set eqb m k v) k' = map_get eqb m k'.
Proof.
  intros Hne. induction m as [|[k0 v0] m IH]; simpl.
  - destruct (eqb k' k) eqn:E; [|reflexivity].
    apply eqb_eq in E. congruence.
  - destruct (eqb k k0) eqn:E; simpl.
    + apply eqb_eq in E. subst k0.
      destruct (eqb k' k) eqn:E'; [|reflexivity].
      apply eqb_eq in E'. congruence.
    + now rewrite IH.
Qed.

Lemma map_get_has (m : @jsmap K V) (k : K) (v : V) :
  map_get eqb m k = Some v -> map_has eqb m k = true.
Proof.
  induction m as [|[k0 v0] m IH]; simpl; [discriminate|].
  destruct (eqb k k0); [reflexivity|]. exact IH.
Qed.

End MapFacts.

(** ** Record normalizer: what an accepted record looks like *)

Lemma processTweetData_accepts iso user st raw t st' :
  processTweetData iso user st (Some raw) = (Some t, st') ->
  exists ts,
    raw_id raw = Some (id t) /\ truthy_str (id t) = true /\
    timestamp t = Some ts /\ 0 < ts /\ validTime ts = true /\
    st' = noteTweetDate st (Num ts).
Proof.
  unfold processTweetData.
  destruct (raw_id raw) as [tid|]; [|discriminate].
  destruct (truthy_str tid) eqn:Hid; [|discriminate]. simpl.
  destruct (resolveTimestamp raw) as [t0|]; [|discriminate].
  destruct (falsy_num t0); [discriminate|].
  destruct (scaleTimestamp t0) as [|ms]; [discriminate|].
  destruct (ms <=? 0) eqn:Hle; [discriminate|].
  unfold toISOString. destruct (validTime ms) eqn:Hv; [|discriminate].
  intros [= <- <-]. exists ms. simpl. rewrite Hv.
  apply Z.leb_gt in Hle. auto 10.
Qed.

Lemma processTweetData_stats iso user st r :
  snd (processTweetData iso user st r) = st \/
  exists d, snd (processTweetData iso user st r) = noteTweetDate st d.
Proof.
  unfold processTweetData.
  destruct r as [raw|]; [|now left].
  destruct (raw_id raw) as [tid|]; [|now left].
  destruct (negb (truthy_str tid)); [now left|].
  destruct (resolveTimestamp raw) as [t0|]; [|now left].
  destruct (falsy_num t0); [now left|].
  destruct (scaleTimestamp t0) as [|ms]; [now left|].
  destruct (ms <=? 0); [now left|].
  right. exists (newDate (Num ms)). now destruct (toISOString iso ms).
Qed.

Lemma noteTweetDate_counters (st : Stats) (d : num) :
  sameCounters st (noteTweetDate st d).
Proof.
  destruct st as [a b c e f g o n h].
  unfold noteTweetDate, sameCounters. simpl.
  destruct o as [o|]; [destruct (Js.lt d o)|];
    simpl; (destruct n as [n|]; [destruct (Js.gt d n)|]);
    simpl; auto 10.
Qed.

Lemma noteTweetDate_oldest (st : Stats) (d : num) :
  oldestTweetDate (noteTweetDate st d)
  = match oldestTweetDate st with
    | None => Some d
    | Some o => if Js.lt d o then Some d else Some o
    end.
Proof.
  destruct st as [a b c e f g o n h].
  unfold noteTweetDate. simpl.
  destruct o as [o|]; [destruct (Js.lt d o)|];
    simpl; (destruct n as [n|]; [destruct (Js.gt d n)|]);
    reflexivity.
Qed.

Lemma noteTweetDate_newest (st : Stats) (d : num) :
  newestTweetDate (noteTweetDate st d)
  = match newestTweetDate st with
    | None => Some d
    | Some n => if Js.gt d n then Some d else Some n
    end.
Proof.
  destruct st as [a b c e f g o n h].
  unfold noteTweetDate. simpl.
  destruct o as [o|]; [destruct (Js.lt d o)|];
    simpl; (destruct n as [n|]; [destruct (Js.gt d n)|]);
    reflexivity.
Qed.

(** The bounds only widen. *)
Lemma noteTweetDate_enclosed (st : Stats) (d : num) (ms : Z) :
  enclosedBy st ms -> enclosedBy (noteTweetDate st d) ms.
Proof.
  unfold enclosedBy. rewrite noteTweetDate_oldest, noteTweetDate_newest.
  intros [Ho Hn]. split.
  - destruct (oldestTweetDate st) as [[|o]|]; try tauto.
    + now destruct d.
    + destruct d as [|z]; simpl; [exact Ho|].
      destruct (z <? o) eqn:E; [apply Z.ltb_lt in E; lia | exact Ho].
  - destruct (newestTweetDate st) as [[|n]|]; try tauto.
    destruct d as [|z]; simpl; [exact Hn|].
    unfold Js.gt, Js.lt.
    destruct (n <? z) eqn:E; [apply Z.ltb_lt in E; lia | exact Hn].
Qed.

Lemma noteTweetDate_covers (st : Stats) (ms : Z) :
  enclosedBy (noteTweetDate st (Num ms)) ms.
Proof.
  unfold enclosedBy. rewrite noteTweetDate_oldest, noteTweetDate_newest.
  split.
  - destruct (oldestTweetDate st) as [[|o]|]; simpl; try lia; trivial.
    destruct (ms <? o) eqn:E; [lia | apply Z.ltb_ge in E; lia].
  - destruct (newestTweetDate st) as [[|n]|]; simpl; try lia; trivial.
    unfold Js.gt, Js.lt.
    destruct (n <? ms) eqn:E; [lia | apply Z.ltb_ge in E; lia].
Qed.

Lemma processTweetData_enclosed iso user st r ms :
  enclosedBy st ms -> enclosedBy (snd (processTweetData iso user st r)) ms.
Proof.
  intros H. destruct (processTweetData_stats iso user st r) as [->|[d ->]];
    [exact H | now apply noteTweetDate_enclosed].
Qed.

(** X5. The record [processTweetData] returns does not depend on the stats,
    and of the stats the call changes nothing but the two date bounds. *)
Theorem processTweetData_frame
  (iso : Z -> string) (user : string) (st st2 : Stats)
  (r : option RawTweet) :
  fst (processTweetData iso user st r)
  = fst (processTweetData iso user st2 r) /\
  sameCounters st (snd (processTweetData iso user st r)).
Proof.
  split.
  - unfold processTweetData.
    destruct r as [raw|]; [|reflexivity].
    destruct (raw_id raw) as [tid|]; [|reflexivity].
    destruct (negb (truthy_str tid)); [reflexivity|].
    destruct (resolveTimestamp raw) as [t0|]; [|reflexivity].
    destruct (falsy_num t0); [reflexivity|].
    destruct (scaleTimestamp t0) as [|ms]; [reflexivity|].
    destruct (ms <=? 0); [reflexivity|].
    now destruct (toISOString iso ms).
  - destruct (processTweetData_stats iso user st r) as [->|[d ->]].
    + unfold sameCounters. auto 10.
    + apply noteTweetDate_counters.
Qed.

(** ** Primary collector: what the loop keeps *)

Lemma In_map_set_inv {K V : Type} (eqb : K -> K -> bool)
  (eqb_eq : forall a b, eqb a b = true <-> a = b)
  (m : @jsmap K V) (k : K) (v : V) (kv : K * V) :
  In kv (map_set eqb m k v) -> In kv m \/ kv = (k, v).
Proof.
  induction m as [|[k' v'] m IH]; simpl.
  - intros [<-|[]]. now right.
  - destruct (eqb k k') eqn:E; simpl.
    + apply eqb_eq in E. subst k'.
      intros [<-|H]; [now right | left; now right].
    + intros [<-|H]; [left; now left|].
      destruct (IH H) as [H'|H']; [left; now right | now right].
Qed.

(** A property of the map and the stats that every iteration keeps holds
    after the loop. *)
Lemma collectLoop_invariant iso parse user opts
  (I : TweetMap * Stats -> Prop) :
  (forall acc x, I acc -> I (collectStep iso parse user opts acc x)) ->
  forall results acc, I acc -> I (collectLoop iso parse user opts results acc).
Proof.
  intros Hstep. unfold collectLoop.
  induction results as [|x results IH]; intros acc Hacc; simpl.
  - exact Hacc.
  - apply IH. now apply Hstep.
Qed.

(** What one iteration does to the map: nothing, or it sets the entry of a
    new id to the record built from the raw record. *)
Lemma collectStep_cases iso parse user opts (acc : TweetMap * Stats) x :
  (fst (collectStep iso parse user opts acc x) = fst acc \/
   exists raw t,
     x = Some raw /\
     map_has key_eqb (fst acc) (raw_id raw) = false /\
     processTweetData iso user (snd acc) (Some raw)
     = (Some t, snd (collectStep iso parse user opts acc x)) /\
     inDateRange parse opts t = true /\
     fst (collectStep iso parse user opts acc x)
     = map_set key_eqb (fst acc) (raw_id raw) t) /\
  snd (collectStep iso parse user opts acc x)
  = match x with
    | Some raw =>
        if map_has key_eqb (fst acc) (raw_id raw) then snd acc
        else snd (processTweetData iso user (snd acc) x)
    | None => snd acc
    end.
Proof.
  destruct acc as [m st]. unfold collectStep. cbn [fst snd].
  destruct x as [raw|]; [|split; [now left | reflexivity]].
  destruct (map_has key_eqb m (raw_id raw)) eqn:Hhas;
    [split; [now left | reflexivity]|].
  destruct (processTweetData iso user st (Some raw)) as [[t|] st'] eqn:E;
    cbn [fst snd]; [|split; [now left | reflexivity]].
  destruct (inDateRange parse opts t) eqn:Hr; cbn [fst snd];
    [|split; [now left | reflexivity]].
  split; [|reflexivity]. right. exists raw, t. auto.
Qed.

(** X1. The array [collectTweets] returns holds no two records with the same
    id. *)
Theorem collectTweets_ids_unique
  (iso : Z -> string) (parse : string -> num)
  (search : string -> Z -> list (option RawTweet)) (user : string)
  (cfg : Config) (opts : Options) (st : Stats) :
  NoDup (List.map id (fst (collectTweets iso parse search user cfg opts st))).
Proof.
  unfold collectTweets.
  set (results := search (String.append "from:" user) (maxTweets cfg)).
  pose proof (collectLoop_invariant iso parse user opts
                (fun acc =>
                   NoDup (map_keys (fst acc)) /\
                   Forall (fun kv => fst kv = Some (id (snd kv))) (fst acc)))
    as Hinv.
  specialize (Hinv).
  assert (Hstep : forall acc x,
             NoDup (map_keys (fst acc)) /\
             Forall (fun kv => fst kv = Some (id (snd kv))) (fst acc) ->
             NoDup (map_keys (fst (collectStep iso parse user opts acc x))) /\
             Forall (fun kv => fst kv = Some (id (snd kv)))
               (fst (collectStep iso parse user opts acc x))).
  { intros acc x [Hnd Hkeys].
    destruct (collectStep_cases iso parse user opts acc x)
      as [[E|(raw & t & _ & _ & Hp & _ & E)] _]; rewrite E; [now split|].
    apply processTweetData_accepts in Hp as (ts & Hid & _).
    split.
    - now apply map_set_NoDup; [apply key_eqb_eq|].
    - apply Forall_forall. intros kv Hkv.
      apply (In_map_set_inv key_eqb key_eqb_eq) in Hkv as [Hkv | ->].
      + rewrite Forall_forall in Hkeys. now apply Hkeys.
      + exact Hid. }
  specialize (Hinv Hstep results ([], st)).
  destruct Hinv as [Hnd Hkeys]; [split; constructor|].
  destruct (collectLoop iso parse user opts results ([], st)) as [m st'].
  simpl in *. unfold map_values.
  apply (NoDup_map_inv Some). rewrite !map_map.
  unfold map_keys in Hnd.
  replace (List.map (fun x => Some (id (snd x))) m) with (List.map fst m);
    [exact Hnd|].
  apply map_ext_in. intros kv Hkv.
  rewrite Forall_forall in Hkeys. now apply Hkeys.
Qed.

(** X2. An entry that is in the map after a first part of the sequence is
    there, unchanged, after the whole sequence: of the records with one id
    the first one accepted is kept. *)
Theorem collectLoop_keeps_entries
  (iso : Z -> string) (parse : string -> num) (user : string)
  (opts : Options) (pre post : list (option RawTweet))
  (acc : TweetMap * Stats) (k : option string) (t : Tweet) :
  map_get key_eqb (fst (collectLoop iso parse user opts pre acc)) k = Some t ->
  map_get key_eqb
    (fst (collectLoop iso parse user opts (pre ++ post)%list acc)) k
  = Some t.
Proof.
  intros H. rewrite collectLoop_app.
  apply (collectLoop_invariant iso parse user opts
           (fun acc => map_get key_eqb (fst acc) k = Some t)); [|exact H].
  intros acc' x Hget. cbv beta.
  destruct (collectStep_cases iso parse user opts acc' x)
    as [[E|(raw & t' & _ & Hhas & _ & _ & E)] _]; rewrite E; [exact Hget|].
  rewrite (map_get_set_other key_eqb key_eqb_eq); [exact Hget|].
  intros ->. apply map_get_has in Hget. congruence.
Qed.

Lemma collectLoop_keeps_entries_witness :
  option_map text
    (map_get key_eqb
       (fst (collectLoop Sample.iso Sample.parse "user" Sample.noOptions
               ([Some Sample.r1]
                ++ [Some (Sample.raw (Some "1") "dup"
                            (Some (Num 1700000001)))])%list
               ([], Sample.stats0)))
       (Some "1"))
  = Some (Some "hello world").
Proof.
  pose proof (collectLoop_keeps_entries Sample.iso Sample.parse "user"
                Sample.noOptions [Some Sample.r1]
                [Some (Sample.raw (Some "1") "dup" (Some (Num 1700000001)))]
                ([], Sample.stats0) (Some "1") _ eq_refl) as H.
  rewrite H. reflexivity.
Defined.

(** X3. With both a start and an end date given, every collected record has
    its timestamp between the two dates, bounds included; when one of the
    two is not a valid date, nothing is collected. *)
Theorem collectTweets_within_date_range
  (iso : Z -> string) (parse : string -> num)
  (search : string -> Z -> list (option RawTweet)) (user : string)
  (cfg : Config) (opts : Options) (st : Stats) (s e : string) :
  startDate opts = Some s -> endDate opts = Some e ->
  s <> "" -> e <> "" ->
  (forall t,
      In t (fst (collectTweets iso parse search user cfg opts st)) ->
      exists ms lo hi,
        timestamp t = Some ms /\
        newDate (parse s) = Num lo /\ newDate (parse e) = Num hi /\
        lo <= ms <= hi) /\
  (newDate (parse s) = NaN \/ newDate (parse e) = NaN ->
   fst (collectTweets iso parse search user cfg opts st) = []).
Proof.
  intros Hs He Hsne Hene.
  assert (Hall : forall t,
             In t (fst (collectTweets iso parse search user cfg opts st)) ->
             exists ms lo hi,
               timestamp t = Some ms /\
               newDate (parse s) = Num lo /\ newDate (parse e) = Num hi /\
               lo <= ms <= hi).
  { unfold collectTweets.
    set (results := search (String.append "from:" user) (maxTweets cfg)).
    pose proof (collectLoop_invariant iso parse user opts
                  (fun acc =>
                     Forall (fun t =>
                               inDateRange parse opts t = true /\
                               exists ms, timestamp t = Some ms /\
                                          validTime ms = true)
                       (map_values (fst acc)))) as Hinv.
    assert (Hfin : Forall (fun t =>
                             inDateRange parse opts t = true /\
                             exists ms, timestamp t = Some ms /\
                                        validTime ms = true)
                     (map_values
                        (fst (collectLoop iso parse user opts results
                                ([], st))))).
    { apply Hinv; [|constructor].
      intros acc x Hacc.
      destruct (collectStep_cases iso parse user opts acc x)
        as [[E|(raw & t & _ & _ & Hp & Hr & E)] _]; rewrite E; [exact Hacc|].
      apply processTweetData_accepts in Hp as (ms & _ & _ & Hts & _ & Hv & _).
      apply Forall_forall. intros t' Ht'. unfold map_values in Ht'.
      apply in_map_iff in Ht' as (kv & <- & Hkv).
      apply In_map_set in Hkv as [Hkv | ->].
      - rewrite Forall_forall in Hacc. apply Hacc.
        unfold map_values. now apply in_map.
      - split; [exact Hr | now exists ms]. }
    destruct (collectLoop iso parse user opts results ([], st)) as [m st'].
    simpl in *. intros t Ht. rewrite Forall_forall in Hfin.
    destruct (Hfin t Ht) as (Hr & ms & Hts & Hv).
    unfold inDateRange in Hr. rewrite Hs, He in Hr.
    assert (Hs' : truthy_str s = true).
    { unfold truthy_str. apply negb_true_iff. now apply String.eqb_neq. }
    assert (He' : truthy_str e = true).
    { unfold truthy_str. apply negb_true_iff. now apply String.eqb_neq. }
    rewrite Hs', He' in Hr. simpl in Hr.
    unfold dateOfTimestamp in Hr. rewrite Hts in Hr. simpl in Hr.
    rewrite Hv in Hr. apply andb_true_iff in Hr as [Hlo Hhi].
    unfold Js.ge, Js.le in Hlo, Hhi.
    destruct (newDate (parse s)) as [|lo]; [discriminate|].
    destruct (newDate (parse e)) as [|hi]; [discriminate|].
    apply Z.leb_le in Hlo, Hhi. exists ms, lo, hi. auto. }
  split; [exact Hall|].
  intros Hnan.
  destruct (fst (collectTweets iso parse search user cfg opts st))
    as [|t l]; [reflexivity|].
  destruct (Hall t (or_introl eq_refl)) as (ms & lo & hi & _ & Hlo & Hhi & _).
  destruct Hnan as [H|H]; congruence.
Qed.

Lemma collectTweets_within_date_range_witness :
  List.map id
    (fst (collectTweets Sample.iso Sample2.parse
            (Sample.yields [Some Sample.r1; Some Sample.r2]) "user"
            defaultConfig Sample2.year2023 Sample.stats0))
  = ["1"] /\
  forall t,
    In t (fst (collectTweets Sample.iso Sample2.parse
                 (Sample.yields [Some Sample.r1; Some Sample.r2]) "user"
                 defaultConfig Sample2.year2023 Sample.stats0)) ->
    exists ms lo hi,
      timestamp t = Some ms /\
      newDate (Sample2.parse "2023-01-01") = Num lo /\
      newDate (Sample2.parse "2023-12-31") = Num hi /\
      lo <= ms <= hi.
Proof.
  split; [reflexivity|].
  apply (collectTweets_within_date_range Sample.iso Sample2.parse
           (Sample.yields [Some Sample.r1; Some Sample.r2]) "user"
           defaultConfig Sample2.year2023 Sample.stats0
           "2023-01-01" "2023-12-31");
    [reflexivity | reflexivity | discriminate | discriminate].
Defined.

(** X4. After a collection run the date bounds in the stats, where they are
    valid dates, enclose the timestamp of every collected record. *)
Theorem collectTweets_stats_enclose
  (iso : Z -> string) (parse : string -> num)
  (search : string -> Z -> list (option RawTweet)) (user : string)
  (cfg : Config) (opts : Options) (st : Stats) (t : Tweet) :
  In t (fst (collectTweets iso parse search user cfg opts st)) ->
  exists ms,
    timestamp t = Some ms /\
    enclosedBy (snd (collectTweets iso parse search user cfg opts st)) ms.
Proof.
  unfold collectTweets.
  set (results := search (String.append "from:" user) (maxTweets cfg)).
  assert (Hfin : Forall (fun t =>
                           exists ms,
                             timestamp t = Some ms /\
                             enclosedBy
                               (snd (collectLoop iso parse user opts results
                                       ([], st))) ms)
                   (map_values
                      (fst (collectLoop iso parse user opts results
                              ([], st))))).
  { apply (collectLoop_invariant iso parse user opts
             (fun acc =>
                Forall (fun t => exists ms, timestamp t = Some ms /\
                                            enclosedBy (snd acc) ms)
                  (map_values (fst acc)))); [|constructor].
    intros acc x Hacc.
    assert (Hold : Forall (fun t => exists ms,
                               timestamp t = Some ms /\
                               enclosedBy
                                 (snd (collectStep iso parse user opts acc x))
                                 ms)
                     (map_values (fst acc))).
    { eapply Forall_impl; [|exact Hacc].
      intros t' (ms & Hts & Henc). exists ms. split; [exact Hts|].
      destruct (collectStep_cases iso parse user opts acc x) as [_ Hsnd].
      rewrite Hsnd. destruct x as [raw|]; [|exact Henc].
      destruct (map_has key_eqb (fst acc) (raw_id raw)); [exact Henc|].
      now apply processTweetData_enclosed. }
    destruct (collectStep_cases iso parse user opts acc x)
      as [[E|(raw & t' & _ & _ & Hp & _ & E)] _]; rewrite E; [exact Hold|].
    apply processTweetData_accepts in Hp as (ms & _ & _ & Hts & _ & _ & Hst).
    apply Forall_forall. intros t'' Ht''. unfold map_values in Ht''.
    apply in_map_iff in Ht'' as (kv & <- & Hkv).
    apply In_map_set in Hkv as [Hkv | ->].
    - rewrite Forall_forall in Hold. apply Hold.
      unfold map_values. now apply in_map.
    - exists ms. split; [exact Hts|]. rewrite Hst.
      apply noteTweetDate_covers. }
  destruct (collectLoop iso parse user opts results ([], st)) as [m st'].
  simpl in *. intros Ht. rewrite Forall_forall in Hfin. now apply Hfin.
Qed.

Lemma collectTweets_stats_enclose_witness :
  exists ms,
    timestamp
      (Sample.tweet "1" "hello world" 1700000000000 false 0 0) = Some ms /\
    enclosedBy
      (snd (collectTweets Sample.iso Sample.parse
              (Sample.yields [Some Sample.r1; Some Sample.r2]) "user"
              defaultConfig Sample.noOptions Sample.stats0)) ms.
Proof.
  apply (collectTweets_stats_enclose Sample.iso Sample.parse
           (Sample.yields [Some Sample.r1; Some Sample.r2]) "user"
           defaultConfig Sample.noOptions Sample.stats0).
  left. reflexivity.
Defined.

(** ** Delays *)

Local Open Scope Q_scope.

Lemma sum_draws_range (l : list Q) (acc : Q) :
  unitDraws l ->
  acc <= fold_left Qplus l acc /\
  fold_left Qplus l acc <= acc + inject_Z (Z.of_nat (List.length l)).
Proof.
  intros H. revert acc. induction H as [|r l [Hr0 Hr1] Hl IH]; intros acc.
  - cbn [fold_left List.length Z.of_nat]. change (inject_Z 0) with 0.
    split; lra.
  - cbn [fold_left List.length]. destruct (IH (acc + r)) as [Hlo Hhi].
    rewrite Nat2Z.inj_succ, <- Z.add_1_r, inject_Z_plus.
    change (inject_Z 1) with 1. split; lra.
Qed.

Lemma gaussianRand_range (draws : list Q) :
  unitDraws draws -> 0 <= gaussianRand draws /\ gaussianRand draws <= 1.
Proof.
  intros H. unfold gaussianRand.
  assert (Hf : unitDraws (firstn 6 draws)).
  { unfold unitDraws in *. rewrite Forall_forall in *.
    intros r Hr. apply H. eapply firstn_In; exact Hr. }
  destruct (sum_draws_range (firstn 6 draws) 0 Hf) as [Hlo Hhi].
  assert (Hlen : inject_Z (Z.of_nat (List.length (firstn 6 draws))) <= 6).
  { change 6 with (inject_Z 6). rewrite <- Zle_Qle.
    rewrite length_firstn. lia. }
  split.
  - apply Qle_shift_div_l; [reflexivity | lra].
  - apply Qle_shift_div_r; [reflexivity | lra].
Qed.

Lemma scaled_floor_bounds (lo hi g : Q) :
  0 <= g -> g <= 1 -> lo <= hi ->
  (Qfloor lo <= Qfloor (lo + g * (hi - lo)))%Z /\
  inject_Z (Qfloor (lo + g * (hi - lo))) <= hi.
Proof.
  intros Hg0 Hg1 Hle.
  assert (H0 : 0 <= g * (hi - lo)) by (apply Qmult_le_0_compat; lra).
  assert (H1 : g * (hi - lo) <= 1 * (hi - lo))
    by (apply Qmult_le_compat_r; lra).
  split.
  - apply Qfloor_resp_le. lra.
  - eapply Qle_trans; [apply Qfloor_le | lra].
Qed.



Lemma handleRateLimit_delay_range cfg n rnd draws st :
  (1 <= n)%Z -> 0 <= rnd ->
  60000 <= delay (fst (handleRateLimit cfg (Some n) rnd draws st)) /\
  delay (fst (handleRateLimit cfg (Some n) rnd draws st)) <= 900000.
Proof.
  intros Hn H0. simpl.
  assert (He : 60000 <= 60000 * 2 ^ (n - 1)).
  { assert (H1 : (2 ^ 0 <= 2 ^ (n - 1))%Z) by (apply Z.pow_le_mono_r; lia).
    change (2 ^ 0)%Z with 1%Z in H1.
    assert (Hq : inject_Z 1 <= inject_Z (2 ^ (n - 1)))
      by (rewrite <- Zle_Qle; exact H1).
    rewrite Zpower_Qpower in Hq by lia.
    change (inject_Z 1) with 1 in Hq. change (inject_Z 2) with 2 in Hq.
    lra. }
  assert (Hj : 0 <= rnd * (1 # 10) * (60000 * 2 ^ (n - 1))).
  { apply Qmult_le_0_compat; [|lra].
    apply Qmult_le_0_compat; [exact H0 | discriminate]. }
  change (inject_Z (15 * 60 * 1000)) with 900000.
  split.
  - apply Q.min_glb; [lra | discriminate].
  - apply Q.le_min_r.
Qed.

(** X7. A rate-limit hit at attempt [n >= 1] makes the pipeline sleep at
    least one minute and at most 16.5 minutes: the sleep is drawn between the
    computed delay and 1.1 times it, so it can exceed the 15-minute cap of
    the delay. *)
Theorem handleRateLimit_sleep_range
  (cfg : Config) (n : Z) (rnd : Q) (draws : list Q) (st : Stats) :
  (1 <= n)%Z -> 0 <= rnd -> unitDraws draws ->
  (60000 <= slept (fst (handleRateLimit cfg (Some n) rnd draws st))
   <= 990000)%Z.
Proof.
  intros Hn H0 Hd.
  destruct (handleRateLimit_delay_range cfg n rnd draws st Hn H0)
    as [Hlo Hhi].
  destruct (gaussianRand_range draws Hd) as [Hg0 Hg1].
  set (d := delay (fst (handleRateLimit cfg (Some n) rnd draws st))) in *.
  assert (Hs : slept (fst (handleRateLimit cfg (Some n) rnd draws st))
               = randomDelay cfg (Some d) (Some (d * (11 # 10))) draws)
    by reflexivity.
  rewrite Hs. unfold randomDelay, delay_or.
  assert (Hd0 : Qeq_bool d 0 = false).
  { apply not_true_is_false. intros H. apply Qeq_bool_eq in H. lra. }
  assert (Hd1 : Qeq_bool (d * (11 # 10)) 0 = false).
  { apply not_true_is_false. intros H. apply Qeq_bool_eq in H. lra. }
  rewrite Hd0, Hd1.
  destruct (scaled_floor_bounds d (d * (11 # 10)) (gaussianRand draws)
              Hg0 Hg1) as [Hfl Hfh]; [lra|].
  split.
  - apply Z.le_trans with (Qfloor d); [|exact Hfl].
    change 60000%Z with (Qfloor 60000). now apply Qfloor_resp_le.
  - rewrite Zle_Qle. change (inject_Z 990000) with 990000. lra.
Qed.

Lemma handleRateLimit_sleep_range_witness :
  (60000 <= slept (fst (handleRateLimit defaultConfig (Some 5%Z) (1 # 2)
                          [9 # 10; 9 # 10; 9 # 10; 9 # 10; 9 # 10; 9 # 10]
                          (initialStats 0)))
   <= 990000)%Z /\
  slept (fst (handleRateLimit defaultConfig (Some 5%Z) (1 # 2)
                [9 # 10; 9 # 10; 9 # 10; 9 # 10; 9 # 10; 9 # 10]
                (initialStats 0))) = 981000%Z.
Proof.
  split; [|reflexivity].
  apply handleRateLimit_sleep_range.
  - lia.
  - discriminate.
  - repeat constructor; discriminate.
Defined.

Local Close Scope Q_scope.

(** ** Session manager *)

Lemma loginLoop_authenticated cfg env :
  forall fuel rc waits,
    Session.authenticated (Session.loginLoop cfg env fuel rc waits) = true ->
    (rc < Session.loginAttempts (Session.loginLoop cfg env fuel rc waits))%nat.
Proof.
  induction fuel as [|fuel IH]; intros rc waits;
    cbn [Session.loginLoop]; [discriminate|].
  destruct (Z.of_nat rc <? Session.maxRetries cfg); [|discriminate].
  destruct (Session.loginSucceeds env rc);
    [cbn [Session.loginAttempts]; lia|].
  destruct (Session.maxRetries cfg <=? Z.of_nat (S rc)); [discriminate|].
  intros H. apply IH in H. lia.
Qed.

(** X8. [loadCookies] never reports saved cookies: the awaited [fs.access]
    is [undefined] when the file is there and [false] when it is not, and
    both are falsy.  So [initializeScraper] authenticates only through a
    login attempt. *)
Theorem loadCookies_never_restores
  (cfg : Session.AuthConfig) (env : Session.Env) :
  Session.loadCookies env = false /\
  (Session.authenticated (Session.initializeScraper cfg env) = true ->
   (1 <= Session.loginAttempts (Session.initializeScraper cfg env))%nat /\
   Session.hasCredentials env).
Proof.
  assert (Hload : Session.loadCookies env = false).
  { unfold Session.loadCookies. now destruct (Session.cookieFile env). }
  split; [exact Hload|].
  unfold Session.initializeScraper. rewrite Hload.
  unfold Session.hasCredentials.
  destruct (truthy_ostr (Session.TWITTER_USERNAME env));
    [|simpl; discriminate].
  destruct (truthy_ostr (Session.TWITTER_PASSWORD env));
    [|simpl; discriminate].
  destruct (truthy_ostr (Session.TWITTER_EMAIL env));
    [|simpl; discriminate].
  cbn [negb orb]. intros Hauth. split; [|auto].
  apply loginLoop_authenticated in Hauth. lia.
Qed.

Lemma loginLoop_first_success cfg env :
  forall fuel rc waits k,
    (rc <= k)%nat -> (k - rc < fuel)%nat ->
    Z.of_nat k < Session.maxRetries cfg ->
    Session.loginSucceeds env k = true ->
    (forall j, (rc <= j < k)%nat -> Session.loginSucceeds env j = false) ->
    let o := Session.loginLoop cfg env fuel rc waits in
    Session.authenticated o = true /\
    Session.loginAttempts o = S k /\
    Session.cookiesSaved o = true /\
    List.length (Session.backoffs o) = (List.length waits + (k - rc))%nat.
Proof.
  induction fuel as [|fuel IH]; intros rc waits k Hle Hfuel Hmax Hk Hbefore;
    [lia|].
  cbn [Session.loginLoop].
  assert (Hrc : (Z.of_nat rc <? Session.maxRetries cfg) = true)
    by (apply Z.ltb_lt; lia).
  rewrite Hrc.
  destruct (Nat.eq_dec rc k) as [->|Hne].
  - rewrite Hk. cbn. repeat split; lia.
  - rewrite (Hbefore rc) by lia.
    assert (Hnext : (Session.maxRetries cfg <=? Z.of_nat (S rc)) = false)
      by (apply Z.leb_gt; lia).
    rewrite Hnext.
    destruct (IH (S rc)
                 (waits ++ [Session.backoff cfg (Z.of_nat (S rc))
                              (Session.jitterDraw env rc)])%list k)
      as (Ha & Hn & Hc & Hb); try lia; trivial.
    + intros j Hj. apply Hbefore. lia.
    + repeat split; trivial. rewrite Hb, length_app. simpl. lia.
Qed.

Lemma loginLoop_all_fail cfg env :
  forall fuel rc waits,
    (Z.to_nat (Session.maxRetries cfg) <= fuel + rc)%nat ->
    Z.of_nat rc < Session.maxRetries cfg ->
    (forall j, (rc <= j)%nat -> Z.of_nat j < Session.maxRetries cfg ->
               Session.loginSucceeds env j = false) ->
    let o := Session.loginLoop cfg env fuel rc waits in
    Session.authenticated o = false /\
    Session.loginAttempts o = Z.to_nat (Session.maxRetries cfg) /\
    Session.cookiesSaved o = false /\
    List.length (Session.backoffs o)
    = (List.length waits
       + (Z.to_nat (Session.maxRetries cfg) - rc - 1))%nat.
Proof.
  induction fuel as [|fuel IH]; intros rc waits Hfuel Hrc Hfail; [lia|].
  cbn [Session.loginLoop].
  assert (Hrc' : (Z.of_nat rc <? Session.maxRetries cfg) = true)
    by (apply Z.ltb_lt; lia).
  rewrite Hrc', (Hfail rc) by lia.
  destruct (Session.maxRetries cfg <=? Z.of_nat (S rc)) eqn:Hnext.
  - apply Z.leb_le in Hnext.
    cbn [Session.authenticated Session.loginAttempts Session.cookiesSaved
         Session.backoffs].
    repeat split; lia.
  - apply Z.leb_gt in Hnext.
    destruct (IH (S rc)
                 (waits ++ [Session.backoff cfg (Z.of_nat (S rc))
                              (Session.jitterDraw env rc)])%list)
      as (Ha & Hn & Hc & Hb); try lia.
    + intros j Hj. apply Hfail. lia.
    + repeat split; trivial. rewrite Hb, length_app. simpl. lia.
Qed.

(** X9. With all three credentials set, [initializeScraper] succeeds at the
    first login attempt that ends logged in, if there is one among the first
    [maxRetries]: it has then made that many attempts and waited once
    between two of them.  If none of them succeeds it gives up after exactly
    [maxRetries] attempts.  With a credential missing it makes no attempt at
    all. *)
Theorem initializeScraper_attempts
  (cfg : Session.AuthConfig) (env : Session.Env) :
  (Session.hasCredentials env ->
   forall k,
     Z.of_nat k < Session.maxRetries cfg ->
     Session.loginSucceeds env k = true ->
     (forall j, (j < k)%nat -> Session.loginSucceeds env j = false) ->
     Session.authenticated (Session.initializeScraper cfg env) = true /\
     Session.loginAttempts (Session.initializeScraper cfg env) = S k /\
     List.length (Session.backoffs (Session.initializeScraper cfg env)) = k) /\
  (Session.hasCredentials env ->
   (forall j, Z.of_nat j < Session.maxRetries cfg ->
              Session.loginSucceeds env j = false) ->
   Session.authenticated (Session.initializeScraper cfg env) = false /\
   Session.loginAttempts (Session.initializeScraper cfg env)
   = Z.to_nat (Session.maxRetries cfg)) /\
  (~ Session.hasCredentials env ->
   Session.authenticated (Session.initializeScraper cfg env) = false /\
   Session.loginAttempts (Session.initializeScraper cfg env) = O).
Proof.
  assert (Hload : Session.loadCookies env = false).
  { unfold Session.loadCookies. now destruct (Session.cookieFile env). }
  unfold Session.initializeScraper, Session.hasCredentials.
  rewrite Hload. split; [|split].
  - intros (Hu & Hp & He) k Hmax Hk Hbefore. rewrite Hu, Hp, He. simpl.
    destruct (loginLoop_first_success cfg env
                (Z.to_nat (Session.maxRetries cfg)) 0 [] k)
      as (Ha & Hn & _ & Hb); try lia; trivial.
    + intros j Hj. apply Hbefore. lia.
    + repeat split; trivial. rewrite Hb. simpl. lia.
  - intros (Hu & Hp & He) Hfail. rewrite Hu, Hp, He. simpl.
    destruct (Z_lt_le_dec 0 (Session.maxRetries cfg)) as [Hpos|Hneg].
    + destruct (loginLoop_all_fail cfg env
                  (Z.to_nat (Session.maxRetries cfg)) 0 [])
        as (Ha & Hn & _); try lia; [|now split].
      intros j _ Hj. now apply Hfail.
    + assert (H0 : Z.to_nat (Session.maxRetries cfg) = O) by lia.
      rewrite H0. simpl. now split.
  - intros Hmiss.
    destruct (truthy_ostr (Session.TWITTER_USERNAME env));
      [|simpl; now split].
    destruct (truthy_ostr (Session.TWITTER_PASSWORD env));
      [|simpl; now split].
    destruct (truthy_ostr (Session.TWITTER_EMAIL env));
      [|simpl; now split].
    exfalso. apply Hmiss. auto.
Qed.

Lemma initializeScraper_attempts_witness :
  Session.authenticated
    (Session.initializeScraper Sample3.fiveRetries Sample3.thirdTime) = true /\
  Session.loginAttempts
    (Session.initializeScraper Sample3.fiveRetries Sample3.thirdTime) = 3%nat /\
  List.length
    (Session.backoffs
       (Session.initializeScraper Sample3.fiveRetries Sample3.thirdTime))
  = 2%nat.
Proof.
  apply (proj1 (initializeScraper_attempts Sample3.fiveRetries
                  Sample3.thirdTime)).
  - repeat split.
  - reflexivity.
  - reflexivity.
  - intros [|[|j]] Hj; [reflexivity | reflexivity | lia].
Defined.

Local Open Scope Q_scope.

Lemma loginLoop_backoffs cfg env :
  forall fuel rc waits,
    exists m,
      Session.backoffs (Session.loginLoop cfg env fuel rc waits)
      = (waits
         ++ List.map
              (fun i => Session.backoff cfg (Z.of_nat (S i))
                          (Session.jitterDraw env i))
              (seq rc m))%list.
Proof.
  induction fuel as [|fuel IH]; intros rc waits; cbn [Session.loginLoop].
  - exists O. simpl. now rewrite app_nil_r.
  - destruct (Z.of_nat rc <? Session.maxRetries cfg);
      [|exists O; simpl; now rewrite app_nil_r].
    destruct (Session.loginSucceeds env rc);
      [exists O; simpl; now rewrite app_nil_r|].
    destruct (Session.maxRetries cfg <=? Z.of_nat (S rc));
      [exists O; simpl; now rewrite app_nil_r|].
    destruct (IH (S rc)
                 (waits ++ [Session.backoff cfg (Z.of_nat (S rc))
                              (Session.jitterDraw env rc)])%list) as [m Hm].
    exists (S m). rewrite Hm, <- app_assoc. reflexivity.
Qed.

Lemma backoff_range cfg (i : nat) (rnd : Q) :
  (0 <= Session.retryDelay cfg)%Z -> 0 <= rnd -> rnd < 1 ->
  inject_Z (Session.retryDelay cfg * 2 ^ Z.of_nat i)
  <= Session.backoff cfg (Z.of_nat (S i)) rnd /\
  Session.backoff cfg (Z.of_nat (S i)) rnd
  <= (12 # 10) * inject_Z (Session.retryDelay cfg * 2 ^ Z.of_nat i).
Proof.
  intros Hd H0 H1. unfold Session.backoff.
  replace (Z.of_nat (S i) - 1)%Z with (Z.of_nat i) by lia.
  rewrite inject_Z_mult, Zpower_Qpower by lia.
  change (inject_Z 2) with 2.
  set (base := inject_Z (Session.retryDelay cfg) * 2 ^ Z.of_nat i).
  assert (Hbase : 0 <= base).
  { unfold base. apply Qmult_le_0_compat.
    - change 0 with (inject_Z 0). now rewrite <- Zle_Qle.
    - rewrite <- (Zpower_Qpower 2) by lia.
      change 0 with (inject_Z 0). rewrite <- Zle_Qle.
      apply Z.pow_nonneg. lia. }
  assert (Hj0 : 0 <= rnd * (base * (2 # 10))).
  { apply Qmult_le_0_compat; [exact H0 | lra]. }
  assert (Hj1 : rnd * (base * (2 # 10)) <= 1 * (base * (2 # 10))).
  { apply Qmult_le_compat_r; lra. }
  pose proof (Qfloor_le (rnd * (base * (2 # 10)))) as Hfl.
  assert (Hfl0 : inject_Z 0 <= inject_Z (Qfloor (rnd * (base * (2 # 10))))).
  { rewrite <- Zle_Qle. change 0%Z with (Qfloor 0).
    now apply Qfloor_resp_le. }
  change (inject_Z 0) with 0 in Hfl0.
  split; lra.
Qed.

(** X10. With a non-negative [retryDelay] and jitter draws in [0, 1), the
    wait after the i-th failed login attempt (counted from 0) starts at a
    value between [retryDelay * 2^i] and 1.2 times that: the waits double
    from one failure to the next. *)
Theorem initializeScraper_backoff_doubles
  (cfg : Session.AuthConfig) (env : Session.Env) (i : nat) (wait : Q) :
  (0 <= Session.retryDelay cfg)%Z ->
  (forall k, 0 <= Session.jitterDraw env k /\ Session.jitterDraw env k < 1) ->
  nth_error (Session.backoffs (Session.initializeScraper cfg env)) i
  = Some wait ->
  inject_Z (Session.retryDelay cfg * 2 ^ Z.of_nat i) <= wait /\
  wait <= (12 # 10) * inject_Z (Session.retryDelay cfg * 2 ^ Z.of_nat i).
Proof.
  intros Hd Hdraw Hnth.
  assert (Hb : exists m,
             Session.backoffs (Session.initializeScraper cfg env)
             = List.map
                 (fun i => Session.backoff cfg (Z.of_nat (S i))
                             (Session.jitterDraw env i))
                 (seq 0 m)).
  { unfold Session.initializeScraper.
    destruct (if Session.loadCookies env then _ else false);
      [exists O; reflexivity|].
    destruct (_ || _ || _); [exists O; reflexivity|].
    destruct (loginLoop_backoffs cfg env
                (Z.to_nat (Session.maxRetries cfg)) 0 []) as [m Hm].
    exists m. exact Hm. }
  destruct Hb as [m Hm]. rewrite Hm in Hnth.
  rewrite nth_error_map in Hnth.
  destruct (nth_error (seq 0 m) i) as [j|] eqn:Hj; [|discriminate].
  assert (Hji : j = i).
  { assert (Hlt : (i < List.length (seq 0 m))%nat)
      by (apply nth_error_Some; congruence).
    rewrite length_seq in Hlt.
    rewrite (nth_error_nth' _ 0%nat) in Hj by (now rewrite length_seq).
    rewrite seq_nth in Hj by exact Hlt. now injection Hj as <-. }
  subst j. simpl in Hnth. injection Hnth as <-.
  destruct (Hdraw i) as [H0 H1]. now apply backoff_range.
Qed.

Lemma initializeScraper_backoff_doubles_witness :
  inject_Z (5000 * 2 ^ 1) <= 11000 /\ 11000 <= (12 # 10) * inject_Z (5000 * 2 ^ 1).
Proof.
  change (5000 * 2 ^ 1)%Z
    with (Session.retryDelay Sample3.fiveRetries * 2 ^ Z.of_nat 1)%Z.
  apply (initializeScraper_backoff_doubles Sample3.fiveRetries
           Sample3.thirdTime 1 11000).
  - discriminate.
  - intros k. split; [discriminate | reflexivity].
  - reflexivity.
Defined.

Local Close Scope Q_scope.

Lemma last_skipn {A : Type} (n : nat) (l : list A) (d : A) :
  (n < List.length l)%nat -> last (skipn n l) d = last l d.
Proof.
  revert l. induction n as [|n IH]; intros l Hn; [reflexivity|].
  destruct l as [|x l]; simpl in Hn; [lia|].
  simpl skipn. rewrite IH by lia.
  destruct l as [|y l]; [simpl in Hn; lia | reflexivity].
Qed.

(** X11. [logError] keeps a rolling log: after it has pushed an entry the
    stored log is the last 100 entries of the old log followed by the new
    entry, so it never holds more than 100 entries, always ends with the new
    one, and loses nothing while it is shorter than that. *)
Theorem pushError_rolling_log {A : Type} (existingLogs : list A)
  (errorLog : A) :
  List.length (Session.pushError existingLogs errorLog)
  = Nat.min (S (List.length existingLogs)) 100 /\
  last (Session.pushError existingLogs errorLog) errorLog = errorLog /\
  (exists dropped,
      (existingLogs ++ [errorLog])%list
      = (dropped ++ Session.pushError existingLogs errorLog)%list /\
      List.length dropped = (S (List.length existingLogs) - 100)%nat).
Proof.
  unfold Session.pushError.
  set (l := (existingLogs ++ [errorLog])%list).
  assert (Hlen : List.length l = S (List.length existingLogs)).
  { unfold l. rewrite length_app. simpl. lia. }
  destruct (100 <? Z.of_nat (List.length l)) eqn:E.
  - apply Z.ltb_lt in E. split; [|split].
    + rewrite length_skipn. lia.
    + rewrite last_skipn by lia. unfold l. now rewrite last_last.
    + exists (firstn (List.length l - 100) l). split.
      * now rewrite firstn_skipn.
      * rewrite length_firstn. lia.
  - apply Z.ltb_ge in E. split; [|split].
    + lia.
    + unfold l. now rewrite last_last.
    + exists []. split; [reflexivity | simpl; lia].
Qed.

(** ** Analytics snapshot: what the figures are *)

Lemma count_cons {A : Type} (f : A -> bool) (x : A) (l : list A) :
  DataOrganizer.count f (x :: l)
  = (if f x then 1 else 0) + DataOrganizer.count f l.
Proof.
  unfold DataOrganizer.count. simpl. destruct (f x); simpl List.length; lia.
Qed.

Lemma count_nonneg {A : Type} (f : A -> bool) (l : list A) :
  0 <= DataOrganizer.count f l.
Proof.
  unfold DataOrganizer.count. lia.
Qed.

(** The snapshot of a non-empty list, when it is returned, field by field. *)
Lemma snapshot_fields fmt (tweets : list Tweet) a :
  DataOrganizer.snapshot fmt tweets = Ok a ->
  exists tops range,
    DataOrganizer.mapExc DataOrganizer.topTweet (topSources tweets) = Ok tops /\
    match sortedDates tweets with
    | [] => range = DataOrganizer.mkTimeRange "N/A" "N/A"
    | first :: _ =>
        validTime first = true /\
        validTime (last (sortedDates tweets) first) = true /\
        range = DataOrganizer.mkTimeRange (fmt first)
                  (fmt (last (sortedDates tweets) first))
    end /\
    a = DataOrganizer.mkAnalytics
          (Z.of_nat (List.length tweets))
          (DataOrganizer.count
             (fun t => negb (isReply t) && negb (isRetweet t)) tweets)
          (DataOrganizer.count isReply tweets)
          (DataOrganizer.count isRetweet tweets)
          (DataOrganizer.mkEngagement
             (DataOrganizer.total likes (forEngagement tweets))
             (DataOrganizer.total retweetCount (forEngagement tweets))
             (DataOrganizer.total DataOrganizer.tweetReplies
                (forEngagement tweets))
             (DataOrganizer.toFixed2
                (DataOrganizer.divide
                   (DataOrganizer.total likes (forEngagement tweets))
                   (List.length (forEngagement tweets))))
             tops)
          range
          (DataOrganizer.mkContentTypes
             (DataOrganizer.count
                (fun t => DataOrganizer.nonEmpty (photos t)) tweets)
             (DataOrganizer.count
                (fun t => DataOrganizer.nonEmpty (videos t)) tweets)
             (DataOrganizer.count
                (fun t => DataOrganizer.nonEmpty (urls t)) tweets)
             (DataOrganizer.count
                (fun t => negb (DataOrganizer.nonEmpty (photos t))
                          && negb (DataOrganizer.nonEmpty (videos t))
                          && negb (DataOrganizer.nonEmpty (urls t)))
                tweets)).
Proof.
  unfold DataOrganizer.snapshot.
  fold (forEngagement tweets). fold (topSources tweets).
  fold (sortedDates tweets).
  destruct (DataOrganizer.mapExc DataOrganizer.topTweet (topSources tweets))
    as [tops|m]; [|discriminate].
  destruct (sortedDates tweets) as [|first rest] eqn:Hd.
  - intros [= <-]. exists tops, (DataOrganizer.mkTimeRange "N/A" "N/A").
    repeat split.
  - unfold DataOrganizer.format.
    destruct (validTime first) eqn:Hv1; [|discriminate].
    destruct (validTime (last (first :: rest) first)) eqn:Hv2;
      [|discriminate].
    intros [= <-]. eexists tops, _. repeat split.
Qed.

(** X12. In a snapshot [generateAnalytics] returns, [totalTweets] is the
    length of the list; the three kinds overlap exactly on the tweets that
    are both a reply and a retweet, which are counted under [replies] and
    under [retweets]; every tweet is text-only or carries media, and a tweet
    with several kinds of media is counted under each of them. *)
Theorem generateAnalytics_counts
  (formatDate : Z -> string) (tweets : list Tweet)
  (a : DataOrganizer.Analytics) :
  DataOrganizer.generateAnalytics formatDate tweets = Ok a ->
  DataOrganizer.totalTweets a = Z.of_nat (List.length tweets) /\
  DataOrganizer.directTweets a + DataOrganizer.replies a
  + DataOrganizer.retweets a
  = DataOrganizer.totalTweets a
    + DataOrganizer.count (fun t => isReply t && isRetweet t) tweets /\
  DataOrganizer.textOnly (DataOrganizer.contentTypes a)
  + DataOrganizer.count hasMedia tweets
  = DataOrganizer.totalTweets a /\
  DataOrganizer.count hasMedia tweets
  <= DataOrganizer.withImages (DataOrganizer.contentTypes a)
     + DataOrganizer.withVideos (DataOrganizer.contentTypes a)
     + DataOrganizer.withLinks (DataOrganizer.contentTypes a).
Proof.
  intros H. destruct tweets as [|t0 l0].
  - injection H as <-. repeat split; reflexivity.
  - change (DataOrganizer.generateAnalytics formatDate (t0 :: l0))
      with (DataOrganizer.snapshot formatDate (t0 :: l0)) in H.
    apply snapshot_fields in H as (tops & range & _ & _ & ->).
    cbn [DataOrganizer.totalTweets DataOrganizer.directTweets
         DataOrganizer.replies DataOrganizer.retweets
         DataOrganizer.contentTypes DataOrganizer.textOnly
         DataOrganizer.withImages DataOrganizer.withVideos
         DataOrganizer.withLinks].
    generalize (t0 :: l0). clear. intros tweets.
    induction tweets as [|t l IH].
    + repeat split; reflexivity.
    + rewrite !count_cons. cbn [List.length].
      rewrite Nat2Z.inj_succ. unfold hasMedia in *.
      destruct IH as (_ & IH2 & IH3 & IH4).
      destruct (isReply t), (isRetweet t),
        (DataOrganizer.nonEmpty (photos t)),
        (DataOrganizer.nonEmpty (videos t)),
        (DataOrganizer.nonEmpty (urls t)); cbn [negb andb orb];
        repeat split; lia.
Qed.

Lemma generateAnalytics_counts_witness :
  exists a,
    DataOrganizer.generateAnalytics Sample.fmt (Sample.retweetStore "a")
    = Ok a /\
    DataOrganizer.totalTweets a = 2 /\
    DataOrganizer.directTweets a + DataOrganizer.replies a
    + DataOrganizer.retweets a
    = DataOrganizer.totalTweets a
      + DataOrganizer.count (fun t => isReply t && isRetweet t)
          (Sample.retweetStore "a").
Proof.
  eexists. split; [reflexivity|].
  destruct (generateAnalytics_counts Sample.fmt (Sample.retweetStore "a") _
              eq_refl) as (H1 & H2 & _).
  split; [exact H1 | exact H2].
Defined.

Section SortPerm.

Context {A : Type} (cmp : A -> A -> Z).

Lemma insert_perm (x : A) (l : list A) :
  Permutation.Permutation (x :: l) (insert cmp x l).
Proof.
  induction l as [|y l IH]; simpl; [reflexivity|].
  destruct (cmp x y <=? 0); [reflexivity|].
  etransitivity; [apply Permutation.perm_swap|].
  now apply Permutation.perm_skip.
Qed.

Lemma sort_perm (l : list A) :
  Permutation.Permutation l (sort cmp l).
Proof.
  induction l as [|x l IH]; simpl; [reflexivity|].
  etransitivity; [apply Permutation.perm_skip; exact IH|].
  apply insert_perm.
Qed.

End SortPerm.

Lemma sorted_app_le {A : Type} (R : A -> A -> Prop) (l1 l2 : list A) :
  StronglySorted R (l1 ++ l2) ->
  forall x y, In x l1 -> In y l2 -> R x y.
Proof.
  induction l1 as [|a l1 IH]; simpl; intros Hs x y Hx Hy; [destruct Hx|].
  inversion Hs as [|? ? Hs' Ha]; subst.
  destruct Hx as [<-|Hx].
  - rewrite Forall_forall in Ha. apply Ha. apply in_or_app. now right.
  - now apply IH.
Qed.

Lemma mapExc_Ok {A B : Type} (f : A -> exc B) (l : list A) (ys : list B) :
  DataOrganizer.mapExc f l = Ok ys -> Forall2 (fun x y => f x = Ok y) l ys.
Proof.
  revert ys. induction l as [|x l IH]; simpl; intros ys.
  - intros [= <-]. constructor.
  - destruct (f x) as [y|] eqn:E; [|discriminate].
    destruct (DataOrganizer.mapExc f l) as [ys'|]; [|discriminate].
    intros [= <-]. constructor; [exact E | now apply IH].
Qed.

Lemma mapExc_succeeds {A B : Type} (f : A -> exc B) (l : list A) :
  (exists ys, DataOrganizer.mapExc f l = Ok ys) <->
  Forall (fun x => exists y, f x = Ok y) l.
Proof.
  induction l as [|x l IH]; simpl.
  - split; [constructor | now exists []].
  - split.
    + intros [ys H]. destruct (f x) as [y|] eqn:E; [|discriminate].
      destruct (DataOrganizer.mapExc f l) as [ys'|]; [|discriminate].
      constructor; [now exists y | apply IH; now exists ys'].
    + intros H. inversion H as [|? ? [y Hy] Hl]; subst.
      apply IH in Hl as [ys Hys]. rewrite Hy, Hys. now exists (y :: ys).
Qed.

Lemma substring_length_le (m : nat) (s : string) :
  (String.length (substring 0 m s) <= m)%nat.
Proof.
  revert s. induction m as [|m IH]; intros s.
  - destruct s; simpl; lia.
  - destruct s as [|c s]; simpl; [lia|]. specialize (IH s). lia.
Qed.

(** X13. In a snapshot [generateAnalytics] returns, [topTweets] lists the
    five most liked tweets that are not retweets (all of them when there are
    fewer), most liked first, each with its text cut to 100 characters: no
    tweet left out has more likes than a listed one. *)
Theorem generateAnalytics_topTweets
  (formatDate : Z -> string) (tweets : list Tweet)
  (a : DataOrganizer.Analytics) :
  DataOrganizer.generateAnalytics formatDate tweets = Ok a ->
  List.length (DataOrganizer.topTweets (DataOrganizer.engagement a))
  = Nat.min 5 (List.length (forEngagement tweets)) /\
  StronglySorted
    (fun x y => DataOrganizer.top_likes y <= DataOrganizer.top_likes x)
    (DataOrganizer.topTweets (DataOrganizer.engagement a)) /\
  Forall (fun e => (String.length (DataOrganizer.top_text e) <= 100)%nat)
    (DataOrganizer.topTweets (DataOrganizer.engagement a)) /\
  exists rest,
    Permutation.Permutation (forEngagement tweets)
      (topSources tweets ++ rest)%list /\
    Forall2 (fun t e => DataOrganizer.top_id e = id t /\
                        DataOrganizer.top_likes e = likes t)
      (topSources tweets)
      (DataOrganizer.topTweets (DataOrganizer.engagement a)) /\
    forall x y, In x (topSources tweets) -> In y rest -> likes y <= likes x.
Proof.
  intros H.
  assert (Htops : DataOrganizer.mapExc DataOrganizer.topTweet
                    (topSources tweets)
                  = Ok (DataOrganizer.topTweets (DataOrganizer.engagement a))).
  { destruct tweets as [|t0 l0].
    - injection H as <-. reflexivity.
    - change (DataOrganizer.generateAnalytics formatDate (t0 :: l0))
        with (DataOrganizer.snapshot formatDate (t0 :: l0)) in H.
      apply snapshot_fields in H as (tops & range & Ht & _ & ->). exact Ht. }
  apply mapExc_Ok in Htops.
  set (tops := DataOrganizer.topTweets (DataOrganizer.engagement a)) in *.
  set (sorted := sort (fun a b => likes b - likes a) (forEngagement tweets)).
  assert (Hsorted : StronglySorted (fun x y => likes y <= likes x) sorted).
  { apply (sort_sorted (fun a b => likes b - likes a) likes (fun _ => True));
      [reflexivity | apply Forall_forall; trivial]. }
  assert (Hsrc : topSources tweets = firstn 5 sorted).
  { unfold topSources. fold sorted. apply (slice0_firstn 5). }
  assert (Hfields : Forall2 (fun t e => DataOrganizer.top_id e = id t /\
                                        DataOrganizer.top_likes e = likes t /\
                                        (String.length
                                           (DataOrganizer.top_text e)
                                         <= 100)%nat)
                      (topSources tweets) tops).
  { eapply Forall2_impl; [|exact Htops]. intros t e Hte.
    unfold DataOrganizer.topTweet in Hte.
    destruct (text t) as [s|]; [|discriminate]. injection Hte as <-.
    simpl. repeat split. apply substring_length_le. }
  split; [|split; [|split]].
  - rewrite <- (Forall2_length Htops), Hsrc, length_firstn.
    unfold sorted. now rewrite sort_length.
  - assert (Hs5 : StronglySorted (fun x y => likes y <= likes x)
                    (topSources tweets))
      by (rewrite Hsrc; now apply firstn_sorted).
    clear - Hs5 Hfields. induction Hfields as [|t e ts es Hte Hrest IH].
    + constructor.
    + inversion Hs5 as [|? ? Hs' Ht]; subst. constructor; [now apply IH|].
      clear - Ht Hte Hrest. induction Hrest as [|t' e' ts es Hte' _ IH].
      * constructor.
      * inversion Ht; subst. constructor; [|now apply IH].
        destruct Hte as (_ & -> & _). destruct Hte' as (_ & -> & _).
        assumption.
  - clear - Hfields. induction Hfields as [|t e ts es Hte _ IH];
      constructor; [apply Hte | exact IH].
  - exists (skipn 5 sorted). split; [|split].
    + rewrite Hsrc, firstn_skipn. apply sort_perm.
    + eapply Forall2_impl; [|exact Hfields]. intros t e (H1 & H2 & _).
      now split.
    + rewrite Hsrc. apply (sorted_app_le (fun x y => likes y <= likes x)).
      now rewrite firstn_skipn.
Qed.

Lemma generateAnalytics_topTweets_witness :
  exists a,
    DataOrganizer.generateAnalytics Sample.fmt (Sample.rankedStore "a")
    = Ok a /\
    List.length (DataOrganizer.topTweets (DataOrganizer.engagement a))
    = Nat.min 5 (List.length (forEngagement (Sample.rankedStore "a"))) /\
    List.map DataOrganizer.top_id
      (DataOrganizer.topTweets (DataOrganizer.engagement a))
    = ["2"; "3"; "1"].
Proof.
  eexists. split; [reflexivity|].
  split; [|reflexivity].
  apply (generateAnalytics_topTweets Sample.fmt (Sample.rankedStore "a") _
           eq_refl).
Defined.

Lemma timestamps_In_iff (z : Z) (l : list Tweet) :
  In z (DataOrganizer.timestamps l) <->
  exists t, In t l /\ timestamp t = Some z.
Proof.
  split; [apply timestamps_In|].
  intros (t & Ht & Hz). induction l as [|t' l IH]; [destruct Ht|].
  simpl. destruct Ht as [->|Ht].
  - rewrite Hz. now left.
  - destruct (timestamp t'); [right|]; now apply IH.
Qed.

Lemma sortedDates_In (z : Z) (tweets : list Tweet) :
  In z (sortedDates tweets) <->
  exists t, In t tweets /\ timestamp t = Some z.
Proof.
  unfold sortedDates. rewrite sort_In, timestamps_In_iff.
  split; intros (t & Ht & Hz); exists t.
  - apply filter_In in Ht as [Ht _]. now split.
  - split; [|exact Hz]. apply filter_In. split; [exact Ht|].
    now rewrite Hz.
Qed.

Lemma sortedDates_ascending (tweets : list Tweet) :
  StronglySorted Z.le (sortedDates tweets).
Proof.
  unfold sortedDates.
  assert (H : StronglySorted (fun x y => - y <= - x)
                (sort (fun a b => a - b)
                   (DataOrganizer.timestamps
                      (filter (fun t => DataOrganizer.notNull (timestamp t))
                         tweets)))).
  { apply (sort_sorted (fun a b => a - b) Z.opp (fun _ => True));
      [intros; lia | apply Forall_forall; trivial]. }
  revert H. generalize (sort (fun a b => a - b)
                          (DataOrganizer.timestamps
                             (filter (fun t => DataOrganizer.notNull
                                                 (timestamp t)) tweets))).
  intros l H. induction H as [|x l Hs IH Hx]; constructor; [exact IH|].
  eapply Forall_impl; [|exact Hx]. simpl. intros; lia.
Qed.

Lemma sorted_last_greatest (l : list Z) (d z : Z) :
  StronglySorted Z.le l -> In z l -> z <= last l d.
Proof.
  intros Hs. revert z. induction Hs as [|x l Hs IH Hx]; intros z Hz;
    [destruct Hz|].
  destruct l as [|y l].
  - destruct Hz as [<-|[]]. simpl. lia.
  - change (last (x :: y :: l) d) with (last (y :: l) d).
    destruct Hz as [<-|Hz].
    + rewrite Forall_forall in Hx.
      apply Z.le_trans with y; [apply Hx; now left | apply IH; now left].
    + now apply IH.
Qed.

(** X14. In a snapshot [generateAnalytics] returns, [timeRange] is N/A to N/A
    when no tweet has a timestamp; otherwise its start and end are the
    formatted dates of the least and the greatest timestamp among the
    tweets. *)
Theorem generateAnalytics_timeRange
  (formatDate : Z -> string) (tweets : list Tweet)
  (a : DataOrganizer.Analytics) :
  DataOrganizer.generateAnalytics formatDate tweets = Ok a ->
  ((forall t, In t tweets -> timestamp t = None) ->
   DataOrganizer.timeRange a = DataOrganizer.mkTimeRange "N/A" "N/A") /\
  (forall t0 z0,
      In t0 tweets -> timestamp t0 = Some z0 ->
      exists lo hi,
        (exists t, In t tweets /\ timestamp t = Some lo) /\
        (exists t, In t tweets /\ timestamp t = Some hi) /\
        (forall t z, In t tweets -> timestamp t = Some z -> lo <= z <= hi) /\
        DataOrganizer.timeRange a
        = DataOrganizer.mkTimeRange (formatDate lo) (formatDate hi)).
Proof.
  intros H.
  assert (Hr : match sortedDates tweets with
               | [] => DataOrganizer.timeRange a
                       = DataOrganizer.mkTimeRange "N/A" "N/A"
               | first :: _ =>
                   DataOrganizer.timeRange a
                   = DataOrganizer.mkTimeRange (formatDate first)
                       (formatDate (last (sortedDates tweets) first))
               end).
  { destruct tweets as [|t0 l0].
    - injection H as <-. reflexivity.
    - change (DataOrganizer.generateAnalytics formatDate (t0 :: l0))
        with (DataOrganizer.snapshot formatDate (t0 :: l0)) in H.
      apply snapshot_fields in H as (tops & range & _ & Hrange & ->).
      destruct (sortedDates (t0 :: l0)) as [|first rest].
      + now subst range.
      + destruct Hrange as (_ & _ & ->). reflexivity. }
  pose proof (sortedDates_ascending tweets) as Hasc.
  pose proof (fun z => sortedDates_In z tweets) as Hin.
  destruct (sortedDates tweets) as [|first rest] eqn:Hd.
  - split; [intros _; exact Hr|].
    intros t0 z0 Ht0 Hz0.
    destruct (proj2 (Hin z0)) as []. now exists t0.
  - split.
    + intros Hnone.
      destruct (proj1 (Hin first) (or_introl eq_refl)) as (t & Ht & Hz).
      rewrite (Hnone t Ht) in Hz. discriminate.
    + intros t0 z0 _ _.
      exists first, (last (first :: rest) first).
      split; [apply Hin; now left|].
      split; [apply Hin; apply last_In; discriminate|].
      split; [|exact Hr].
      intros t z Ht Hz.
      assert (Hz' : In z (first :: rest)) by (apply Hin; now exists t).
      split.
      * inversion Hasc as [|? ? _ Hfirst]; subst.
        destruct Hz' as [<-|Hz']; [lia|].
        rewrite Forall_forall in Hfirst. now apply Hfirst.
      * now apply sorted_last_greatest.
Qed.

Lemma generateAnalytics_timeRange_witness :
  exists a,
    DataOrganizer.generateAnalytics Sample.fmt (Sample.rankedStore "a")
    = Ok a /\
    exists lo hi,
      (forall t z, In t (Sample.rankedStore "a") -> timestamp t = Some z ->
                   lo <= z <= hi) /\
      DataOrganizer.timeRange a
      = DataOrganizer.mkTimeRange (Sample.fmt lo) (Sample.fmt hi).
Proof.
  eexists. split; [reflexivity|].
  destruct (proj2 (generateAnalytics_timeRange Sample.fmt
                     (Sample.rankedStore "a") _ eq_refl)
              (Sample.tweet "1" "one" 1700000000000 false 1 0)
              1700000000000 (or_introl eq_refl) eq_refl)
    as (lo & hi & _ & _ & Hb & Hr).
  exists lo, hi. split; [exact Hb | exact Hr].
Defined.

(** X15. [generateAnalytics] returns a snapshot exactly when each of the five
    most liked tweets that are not retweets has a text and the least and the
    greatest timestamp are valid dates; otherwise it throws. *)
Theorem generateAnalytics_succeeds_iff
  (formatDate : Z -> string) (tweets : list Tweet) :
  (exists a, DataOrganizer.generateAnalytics formatDate tweets = Ok a) <->
  Forall hasText (topSources tweets) /\
  match sortedDates tweets with
  | [] => True
  | first :: _ =>
      validTime first = true /\
      validTime (last (sortedDates tweets) first) = true
  end.
Proof.
  destruct tweets as [|t0 l0].
  - simpl. split; [intros _; split; [constructor | exact I]|].
    intros _. eexists. reflexivity.
  - change (DataOrganizer.generateAnalytics formatDate (t0 :: l0))
      with (DataOrganizer.snapshot formatDate (t0 :: l0)).
    assert (Htext : forall t, (exists y, DataOrganizer.topTweet t = Ok y)
                              <-> hasText t).
    { intros t. unfold DataOrganizer.topTweet, hasText.
      destruct (text t) as [s|].
      - split; [discriminate | intros _; eexists; reflexivity].
      - split; [intros [y Hy]; discriminate | congruence]. }
    split.
    + intros [a Ha]. apply snapshot_fields in Ha
        as (tops & range & Htops & Hrange & _).
      split.
      * assert (Hall : Forall (fun x => exists y,
                                   DataOrganizer.topTweet x = Ok y)
                         (topSources (t0 :: l0)))
          by (apply mapExc_succeeds; now exists tops).
        eapply Forall_impl; [|exact Hall]. intros t. apply Htext.
      * destruct (sortedDates (t0 :: l0)); [exact I | tauto].
    + intros [Htxt Hdates].
      assert (Hall : Forall (fun x => exists y,
                                 DataOrganizer.topTweet x = Ok y)
                       (topSources (t0 :: l0))).
      { eapply Forall_impl; [|exact Htxt]. intros t. apply Htext. }
      apply mapExc_succeeds in Hall as [tops Htops].
      unfold DataOrganizer.snapshot.
      fold (forEngagement (t0 :: l0)). fold (topSources (t0 :: l0)).
      fold (sortedDates (t0 :: l0)). rewrite Htops.
      destruct (sortedDates (t0 :: l0)) as [|first rest].
      * eexists. reflexivity.
      * destruct Hdates as [H1 H2]. unfold DataOrganizer.format.
        rewrite H1, H2. eexists. reflexivity.
Qed.

(** ** Merge engine: the map and its counters *)

Lemma keyedById_set (m : @jsmap string Tweet) (t : Tweet) :
  keyedById m -> keyedById (map_set String.eqb m (id t) t).
Proof.
  intros [Hnd Hk]. split.
  - apply map_set_NoDup; [apply String.eqb_eq | exact Hnd].
  - apply Forall_forall. intros kv Hkv.
    apply (In_map_set_inv String.eqb String.eqb_eq) in Hkv as [Hkv | ->].
    + rewrite Forall_forall in Hk. now apply Hk.
    + reflexivity.
Qed.

Lemma keyedById_ids (m : @jsmap string Tweet) :
  keyedById m -> NoDup (List.map id (map_values m)).
Proof.
  intros [Hnd Hk]. unfold map_values, map_keys in *. rewrite map_map.
  replace (List.map (fun x => id (snd x)) m) with (List.map fst m);
    [exact Hnd|].
  apply map_ext_in. intros kv Hkv. rewrite Forall_forall in Hk.
  now apply Hk.
Qed.

Lemma map_set_length {K V : Type} (eqb : K -> K -> bool)
  (m : @jsmap K V) (k : K) (v : V) :
  List.length (map_set eqb m k v)
  = if map_has eqb m k then List.length m else S (List.length m).
Proof.
  induction m as [|[k' v'] m IH]; simpl; [reflexivity|].
  destruct (eqb k k'); simpl; [reflexivity|].
  rewrite IH. now destruct (map_has eqb m k).
Qed.

Lemma plainName_own (account : string) :
  plainName account -> String.eqb account "__proto__" = false.
Proof.
  unfold plainName, Merge.inheritedNames. cbn [existsb].
  intros H. repeat (apply orb_false_elim in H; destruct H as [? H]).
  assumption.
Qed.

Lemma breakdownTotal_set (m : @jsmap string Merge.Count) (account : string)
  (t : Z) :
  breakdownTotal m = Some t ->
  breakdownTotal
    (map_set String.eqb m account
       (Merge.plusOne (map_get String.eqb m account)))
  = Some (t + 1).
Proof.
  revert t. induction m as [|[k v] m IH]; intros t H.
  - injection H as <-. reflexivity.
  - cbn [map_set map_get]. cbn [breakdownTotal] in H.
    destruct v as [n|txt]; [|discriminate H].
    destruct (breakdownTotal m) as [t'|] eqn:E; [|discriminate H].
    injection H as <-.
    destruct (String.eqb account k).
    + cbn [Merge.plusOne breakdownTotal]. rewrite E. f_equal. lia.
    + cbn [breakdownTotal]. rewrite (IH t' eq_refl). f_equal. lia.
Qed.

Lemma countTweet_total account stats tweet :
  Merge.totalTweets (Merge.countTweet account stats tweet)
  = Merge.totalTweets stats + 1.
Proof. reflexivity. Qed.

Lemma countTweet_breakdown account stats tweet (t : Z) :
  plainName account ->
  breakdownTotal (Merge.accountBreakdown stats) = Some t ->
  breakdownTotal (Merge.accountBreakdown
                    (Merge.countTweet account stats tweet))
  = Some (t + 1).
Proof.
  intros Hplain H. unfold Merge.countTweet. cbn [Merge.accountBreakdown].
  unfold Merge.setCount. rewrite (plainName_own account Hplain).
  unfold Merge.getCount. unfold plainName in Hplain. rewrite Hplain.
  replace (match map_get String.eqb (Merge.accountBreakdown stats) account
           with
           | Some c => Some c
           | None => None
           end)
    with (map_get String.eqb (Merge.accountBreakdown stats) account)
    by (destruct (map_get String.eqb (Merge.accountBreakdown stats) account);
        reflexivity).
  apply breakdownTotal_set, H.
Qed.

Lemma addTop_keeps account (acc : Merge.MergeState) (t : Tweet) :
  (keyedById (fst acc) -> keyedById (fst (Merge.addTop account acc t))) /\
  (sizeCovered acc -> sizeCovered (Merge.addTop account acc t)) /\
  (plainName account ->
   countersCover acc -> countersCover (Merge.addTop account acc t)).
Proof.
  destruct acc as [m s]. unfold Merge.addTop. cbn [fst snd].
  split; [|split].
  - apply keyedById_set.
  - unfold sizeCovered. cbn [fst snd]. intros Hl.
    rewrite countTweet_total, map_set_length.
    destruct (map_has String.eqb m (id t)); lia.
  - unfold countersCover. cbn [fst snd]. intros Hplain Hb.
    rewrite countTweet_total. now apply countTweet_breakdown.
Qed.

(** The guarded loop body of lines 627-641 leaves an entry that is there. *)
Lemma addIfNew_keeps_first account (acc : Merge.MergeState) (t : Tweet) :
  map_has String.eqb (fst acc) (id t) = true ->
  Merge.addIfNew account acc t = acc.
Proof.
  destruct acc as [m s]. unfold Merge.addIfNew. cbn [fst].
  intros ->. reflexivity.
Qed.

Lemma fold_keeps {A B : Type} (I : A -> Prop) (f : A -> B -> A) :
  (forall a b, I a -> I (f a b)) ->
  forall l a, I a -> I (fold_left f l a).
Proof.
  intros Hf. induction l as [|b l IH]; intros a Ha; simpl; [exact Ha|].
  apply IH. now apply Hf.
Qed.

Lemma fold_keeps_on {A B : Type} (P : B -> Prop) (I : A -> Prop)
  (f : A -> B -> A) :
  (forall a b, P b -> I a -> I (f a b)) ->
  forall l a, Forall P l -> I a -> I (fold_left f l a).
Proof.
  intros Hf. induction l as [|b l IH]; intros a Hl Ha; simpl; [exact Ha|].
  inversion Hl as [|? ? Hb Hl']; subst. apply IH; [exact Hl'|].
  now apply Hf.
Qed.

Lemma mergeAccount_keeps store filterRetweets sortBy k
  (acc : Merge.MergeState) account :
  (keyedById (fst acc) ->
   keyedById (fst (Merge.mergeAccount store filterRetweets sortBy k acc
                     account))) /\
  (sizeCovered acc ->
   sizeCovered (Merge.mergeAccount store filterRetweets sortBy k acc
                  account)) /\
  (plainName account ->
   countersCover acc ->
   countersCover (Merge.mergeAccount store filterRetweets sortBy k acc
                    account)).
Proof.
  unfold Merge.mergeAccount. split; [|split].
  - intros H. apply (fold_keeps (fun a => keyedById (fst a))); [|exact H].
    intros a t. apply addTop_keeps.
  - intros H. apply (fold_keeps sizeCovered); [|exact H].
    intros a t. apply addTop_keeps.
  - intros Hplain H. apply (fold_keeps countersCover); [|exact H].
    intros a t. now apply addTop_keeps.
Qed.

Lemma emptyMerge_ok :
  keyedById (fst (([], Merge.emptyStats) : Merge.MergeState)) /\
  sizeCovered ([], Merge.emptyStats) /\
  countersCover ([], Merge.emptyStats).
Proof.
  split; [split; constructor|]. split; [unfold sizeCovered; simpl; lia|].
  reflexivity.
Qed.

Lemma createMergedCharacter_sized store dates accounts options r :
  Merge.createMergedCharacter store dates accounts options = Ok r ->
  NoDup (List.map id (Merge.mergedArray r)) /\
  Z.of_nat (List.length (Merge.mergedArray r))
  <= Merge.totalTweets (Merge.mergedStats r).
Proof.
  unfold Merge.createMergedCharacter.
  destruct (filter _ (List.map dates accounts)); [discriminate|].
  set (step := Merge.mergeAccount store _ _ _).
  assert (H : keyedById (fst (fold_left step accounts
                                ([], Merge.emptyStats))) /\
              sizeCovered (fold_left step accounts
                             ([], Merge.emptyStats))).
  { apply (fold_keeps (fun a => keyedById (fst a) /\ sizeCovered a));
      [|split; apply emptyMerge_ok].
    intros a account [H1 H2].
    split; now apply mergeAccount_keeps. }
  destruct (fold_left step accounts ([], Merge.emptyStats)) as [m s].
  intros [= <-]. destruct H as [Hk Hl]. unfold sizeCovered in Hl.
  cbn [fst snd] in *. cbn [Merge.mergedStats Merge.mergedArray].
  split; [now apply keyedById_ids|].
  unfold map_values. now rewrite length_map.
Qed.

(** The per-account counts of an account that bears the name of a member of
    [Object.prototype]: a string for [constructor], nothing for
    [__proto__]. *)
Example scenario_inherited_account_names :
  Merge.accountBreakdown
    (Merge.countTweet "constructor" Merge.emptyStats
       (Sample.tweet "1" "one" 1700000000000 false 1 0))
  = [("constructor", Merge.Text "function Object() { [native code] }1")] /\
  Merge.accountBreakdown
    (Merge.countTweet "__proto__" Merge.emptyStats
       (Sample.tweet "1" "one" 1700000000000 false 1 0))
  = [] /\
  Merge.accountBreakdown
    (Merge.countTweet "alice"
       (Merge.countTweet "alice" Merge.emptyStats
          (Sample.tweet "1" "one" 1700000000000 false 1 0))
       (Sample.tweet "2" "two" 1700000000000 false 1 0))
  = [("alice", Merge.Times 2)].
Proof. repeat split. Qed.

(** X16. The merged array of [createMergedCharacter] never holds two tweets
    with the same id, and [totalTweets] is at least the number of tweets in
    the array, since a tweet is counted again each time its id comes up.
    When no source account bears the name of a member of [Object.prototype]
    (such as constructor or __proto__), the per-account counts of
    [accountBreakdown] are numbers that add up to [totalTweets]. *)
Theorem createMergedCharacter_map_and_counters
  (store : string -> list Tweet) (dates : string -> option string)
  (accounts : list string) (options : Merge.MergeOptions)
  (r : Merge.MergeResult) :
  Merge.createMergedCharacter store dates accounts options = Ok r ->
  NoDup (List.map id (Merge.mergedArray r)) /\
  Z.of_nat (List.length (Merge.mergedArray r))
  <= Merge.totalTweets (Merge.mergedStats r) /\
  (Forall plainName accounts ->
   breakdownTotal (Merge.accountBreakdown (Merge.mergedStats r))
   = Some (Merge.totalTweets (Merge.mergedStats r))).
Proof.
  intros Hr.
  destruct (createMergedCharacter_sized store dates accounts options r Hr)
    as [Hnd Hsize].
  split; [exact Hnd|]. split; [exact Hsize|].
  intros Hplain. revert Hr. unfold Merge.createMergedCharacter.
  destruct (filter _ (List.map dates accounts)); [discriminate|].
  set (step := Merge.mergeAccount store _ _ _).
  assert (H : countersCover (fold_left step accounts
                               ([], Merge.emptyStats))).
  { apply (fold_keeps_on plainName countersCover); trivial;
      [|apply emptyMerge_ok].
    intros a account Hp Ha. now apply mergeAccount_keeps. }
  destruct (fold_left step accounts ([], Merge.emptyStats)) as [m s].
  intros [= <-]. exact H.
Qed.

Lemma createMergedCharacter_map_and_counters_witness :
  exists r,
    Merge.createMergedCharacter Sample.sharedIdStore Sample.dated ["a"; "b"]
      (Merge.mkMergeOptions None None None) = Ok r /\
    NoDup (List.map id (Merge.mergedArray r)) /\
    Z.of_nat (List.length (Merge.mergedArray r))
    <= Merge.totalTweets (Merge.mergedStats r) /\
    breakdownTotal (Merge.accountBreakdown (Merge.mergedStats r))
    = Some (Merge.totalTweets (Merge.mergedStats r)).
Proof.
  eexists. split; [reflexivity|].
  destruct (createMergedCharacter_map_and_counters Sample.sharedIdStore
              Sample.dated ["a"; "b"] (Merge.mkMergeOptions None None None)
              _ eq_refl) as (H1 & H2 & H3).
  split; [exact H1|]. split; [exact H2|].
  apply H3. repeat constructor.
Defined.

Lemma numbers_Some (l : list num) :
  (exists zs, MergedSnapshot.numbers l = Some zs) <->
  Forall (fun d => d <> NaN) l.
Proof.
  induction l as [|d l IH]; simpl.
  - split; [constructor | now exists []].
  - destruct d as [|z].
    + split; [intros [zs H]; discriminate|].
      intros H. inversion H; congruence.
    + split.
      * intros [zs H].
        destruct (MergedSnapshot.numbers l) as [zs'|]; [|discriminate].
        constructor; [discriminate | apply IH; now exists zs'].
      * intros H. inversion H as [|? ? _ Hl]; subst.
        apply IH in Hl as [zs Hzs]. rewrite Hzs. now exists (z :: zs).
Qed.

Lemma numbers_length (l : list num) (zs : list Z) :
  MergedSnapshot.numbers l = Some zs -> List.length zs = List.length l.
Proof.
  revert zs. induction l as [|d l IH]; simpl; intros zs.
  - now intros [= <-].
  - destruct d as [|z]; [discriminate|].
    destruct (MergedSnapshot.numbers l) as [zs'|]; [|discriminate].
    intros [= <-]. simpl. now rewrite (IH zs').
Qed.

(** X18. [generateStatsFromMergedTweets] returns a snapshot exactly when the
    list is not empty, every tweet has a text and every timestamp is a valid
    date; otherwise it throws.  In particular it throws on the empty list, so
    the stats step of a capped merge that selected no tweet fails. *)
Theorem generateStatsFromMergedTweets_succeeds_iff
  (isoString : Z -> string) (tweets : list Tweet) :
  ((exists a,
       MergedSnapshot.generateStatsFromMergedTweets isoString tweets = Ok a)
   <-> tweets <> [] /\ Forall hasText tweets /\ Forall wellDated tweets) /\
  (forall store dates accounts options r,
      Merge.createMergedCharacter store dates accounts options = Ok r ->
      Merge.totalTweets (Merge.mergedStats r) = 0 ->
      MergedSnapshot.generateStatsFromMergedTweets isoString
        (Merge.mergedArray r)
      = Throw "RangeError").
Proof.
  split.
  - unfold MergedSnapshot.generateStatsFromMergedTweets.
    set (sorted := sort (fun a b => likes b - likes a) tweets).
    assert (Hin : forall t, In t sorted <-> In t tweets)
      by (intros t; apply sort_In).
    assert (Hlen : List.length sorted = List.length tweets)
      by apply sort_length.
    assert (Htop : forall t, (exists y, MergedSnapshot.topTweet t = Ok y)
                             <-> hasText t).
    { intros t. unfold MergedSnapshot.topTweet, hasText.
      destruct (text t).
      - split; [discriminate | intros _; eexists; reflexivity].
      - split; [intros [y Hy]; discriminate | congruence]. }
    assert (Hlink : forall t, (exists y, MergedSnapshot.hasLink t = Ok y)
                              <-> hasText t).
    { intros t. unfold MergedSnapshot.hasLink, hasText.
      destruct (text t).
      - split; [discriminate | intros _; eexists; reflexivity].
      - split; [intros [y Hy]; discriminate | congruence]. }
    split.
    + intros [a Ha].
      destruct (DataOrganizer.mapExc MergedSnapshot.topTweet
                  (slice0 5 sorted)) as [tops|]; [|discriminate].
      unfold MergedSnapshot.dateRange in Ha.
      destruct (MergedSnapshot.numbers (List.map Merge.tweetDate sorted))
        as [[|z zs]|] eqn:Hnum; try discriminate.
      destruct (DataOrganizer.mapExc MergedSnapshot.hasLink sorted)
        as [links|] eqn:Hl; [|discriminate].
      split; [|split].
      * intros Hempty. apply numbers_length in Hnum.
        rewrite length_map, Hlen, Hempty in Hnum. discriminate.
      * assert (Hall : Forall (fun x => exists y,
                                   MergedSnapshot.hasLink x = Ok y) sorted)
          by (apply mapExc_succeeds; now exists links).
        apply Forall_forall. intros t Ht. apply Hlink.
        rewrite Forall_forall in Hall. apply Hall. now apply Hin.
      * assert (Hall : Forall (fun d => d <> NaN)
                         (List.map Merge.tweetDate sorted))
          by (apply numbers_Some; eexists; exact Hnum).
        apply Forall_forall. intros t Ht. unfold wellDated.
        rewrite Forall_forall in Hall. apply Hall.
        apply in_map. now apply Hin.
    + intros (Hne & Htext & Hdated).
      assert (Htops : exists tops,
                 DataOrganizer.mapExc MergedSnapshot.topTweet
                   (slice0 5 sorted) = Ok tops).
      { apply mapExc_succeeds. apply Forall_forall. intros t Ht.
        apply Htop. rewrite Forall_forall in Htext. apply Htext.
        apply Hin. eapply slice0_In; exact Ht. }
      destruct Htops as [tops ->].
      assert (Hnum : exists zs,
                 MergedSnapshot.numbers (List.map Merge.tweetDate sorted)
                 = Some zs).
      { apply numbers_Some. apply Forall_forall. intros d Hd.
        apply in_map_iff in Hd as (t & <- & Ht).
        rewrite Forall_forall in Hdated. apply Hdated. now apply Hin. }
      destruct Hnum as [zs Hzs]. unfold MergedSnapshot.dateRange.
      rewrite Hzs.
      destruct zs as [|z zs].
      { apply numbers_length in Hzs. rewrite length_map, Hlen in Hzs.
        destruct tweets; [congruence | discriminate]. }
      assert (Hlinks : exists links,
                 DataOrganizer.mapExc MergedSnapshot.hasLink sorted
                 = Ok links).
      { apply mapExc_succeeds. apply Forall_forall. intros t Ht.
        apply Hlink. rewrite Forall_forall in Htext. apply Htext.
        now apply Hin. }
      destruct Hlinks as [links ->]. eexists. reflexivity.
  - intros store dates accounts options r Hr H0.
    unfold Merge.createMergedCharacter in Hr.
    destruct (filter _ (List.map dates accounts)); [discriminate|].
    set (step := Merge.mergeAccount store _ _ _) in Hr.
    assert (H : sizeCovered (fold_left step accounts
                               ([], Merge.emptyStats))).
    { apply (fold_keeps sizeCovered); [|apply emptyMerge_ok].
      intros a account. apply mergeAccount_keeps. }
    destruct (fold_left step accounts ([], Merge.emptyStats)) as [m s].
    injection Hr as <-. rename H into Hl. unfold sizeCovered in Hl.
    cbn [fst snd] in Hl.
    cbn [Merge.mergedStats Merge.mergedArray] in *.
    destruct m as [|kv m]; [reflexivity | simpl in Hl; lia].
Qed.

Lemma generateStatsFromMergedTweets_succeeds_iff_witness :
  exists r,
    Merge.createMergedCharacter Sample.rankedStore Sample.dated ["a"; "b"]
      (Merge.mkMergeOptions (Some 0) None None) = Ok r /\
    MergedSnapshot.generateStatsFromMergedTweets Sample.iso
      (Merge.mergedArray r)
    = Throw "RangeError".
Proof.
  eexists. split; [reflexivity|].
  apply (proj2 (generateStatsFromMergedTweets_succeeds_iff Sample.iso [])
           Sample.rankedStore Sample.dated ["a"; "b"]
           (Merge.mkMergeOptions (Some 0) None None));
    reflexivity.
Defined.

Lemma total_split (f : Tweet -> Z) (p : Tweet -> bool) (l : list Tweet) :
  DataOrganizer.total f l
  = DataOrganizer.total f (filter (fun t => negb (p t)) l)
    + DataOrganizer.total f (filter p l).
Proof.
  unfold DataOrganizer.total.
  assert (H : forall l acc,
             fold_left (fun sum t => sum + f t) l acc
             = acc + fold_left (fun sum t => sum + f t) l 0).
  { clear. induction l as [|t l IH]; intros acc; simpl; [lia|].
    rewrite (IH (acc + f t)), (IH (f t)). lia. }
  induction l as [|t l IH]; simpl; [reflexivity|].
  rewrite (H l (f t)), IH.
  destruct (p t); simpl.
  - rewrite (H (filter p l) (f t)). lia.
  - rewrite (H (filter (fun t => negb (p t)) l) (f t)). lia.
Qed.

(** X19. Where both snapshots of a list are returned, the one of a merged
    dataset counts the retweets in its engagement totals and the one of an
    account leaves them out: the totals differ by the likes and the retweet
    counts of the retweets.  The merged snapshot reports no replies and no
    images at all, whatever the tweets hold. *)
Theorem merged_snapshot_counts_retweets
  (isoString formatDate : Z -> string) (tweets : list Tweet)
  (merged account : DataOrganizer.Analytics) :
  MergedSnapshot.generateStatsFromMergedTweets isoString tweets = Ok merged ->
  DataOrganizer.generateAnalytics formatDate tweets = Ok account ->
  DataOrganizer.totalLikes (DataOrganizer.engagement merged)
  = DataOrganizer.totalLikes (DataOrganizer.engagement account)
    + DataOrganizer.total likes (filter isRetweet tweets) /\
  DataOrganizer.totalRetweetCount (DataOrganizer.engagement merged)
  = DataOrganizer.totalRetweetCount (DataOrganizer.engagement account)
    + DataOrganizer.total retweetCount (filter isRetweet tweets) /\
  DataOrganizer.totalReplies (DataOrganizer.engagement merged) = 0 /\
  DataOrganizer.withImages (DataOrganizer.contentTypes merged) = 0 /\
  DataOrganizer.totalTweets merged = DataOrganizer.totalTweets account.
Proof.
  intros Hm Ha.
  unfold MergedSnapshot.generateStatsFromMergedTweets in Hm.
  destruct (DataOrganizer.mapExc MergedSnapshot.topTweet _) as [tops|];
    [|discriminate].
  destruct (MergedSnapshot.dateRange isoString _) as [range|];
    [|discriminate].
  destruct (DataOrganizer.mapExc MergedSnapshot.hasLink _) as [links|];
    [|discriminate].
  injection Hm as <-.
  destruct tweets as [|t0 l0].
  - injection Ha as <-. repeat split.
  - change (DataOrganizer.generateAnalytics formatDate (t0 :: l0))
      with (DataOrganizer.snapshot formatDate (t0 :: l0)) in Ha.
    apply snapshot_fields in Ha as (tops' & range' & _ & _ & ->).
    cbn [DataOrganizer.engagement DataOrganizer.totalLikes
         DataOrganizer.totalRetweetCount DataOrganizer.totalReplies
         DataOrganizer.contentTypes DataOrganizer.withImages
         DataOrganizer.totalTweets].
    unfold forEngagement.
    split; [apply (total_split likes isRetweet)|].
    split; [apply (total_split retweetCount isRetweet)|].
    repeat split.
Qed.

Lemma merged_snapshot_counts_retweets_witness :
  exists merged account,
    MergedSnapshot.generateStatsFromMergedTweets Sample.iso
      (Sample.retweetStore "a") = Ok merged /\
    DataOrganizer.generateAnalytics Sample.fmt (Sample.retweetStore "a")
    = Ok account /\
    DataOrganizer.totalLikes (DataOrganizer.engagement merged) = 6 /\
    DataOrganizer.totalLikes (DataOrganizer.engagement account) = 1 /\
    DataOrganizer.totalLikes (DataOrganizer.engagement merged)
    = DataOrganizer.totalLikes (DataOrganizer.engagement account)
      + DataOrganizer.total likes
          (filter isRetweet (Sample.retweetStore "a")).
Proof.
  eexists. eexists. split; [reflexivity|]. split; [reflexivity|].
  split; [reflexivity|]. split; [reflexivity|].
  apply (merged_snapshot_counts_retweets Sample.iso Sample.fmt
           (Sample.retweetStore "a") _ _ eq_refl eq_refl).
Defined.

(** ** Fallback collector: what the scroll loop does *)

Lemma addScraped_fold (l : list Fallback.Scraped) :
  forall s,
    Forall (fun v => exists r o, v = Fallback.VObj r o
                                 /\ (r < Fallback.nextRef s)%nat)
      (Fallback.tweets s) ->
    let s' := fold_left Fallback.addScraped l s in
    Forall (fun v => exists r o, v = Fallback.VObj r o
                                 /\ (r < Fallback.nextRef s')%nat)
      (Fallback.tweets s') /\
    List.length (Fallback.tweets s')
    = (List.length (Fallback.tweets s) + List.length l)%nat /\
    Fallback.stored_ids (Fallback.tweets s')
    = (Fallback.stored_ids (Fallback.tweets s)
       ++ List.map Fallback.id l)%list /\
    fallbackCount (Fallback.stats s')
    = fallbackCount (Fallback.stats s) + Z.of_nat (List.length l) /\
    Fallback.lastTweetCount s' = Fallback.lastTweetCount s /\
    Fallback.unchangedCount s' = Fallback.unchangedCount s.
Proof.
  induction l as [|t l IH]; intros s Hobj; cbn [fold_left].
  - cbn zeta. rewrite app_nil_r. cbn [List.length].
    repeat split; trivial; lia.
  - destruct (addScraped_adds s t Hobj) as [Hadd Hobj'].
    assert (Hstep : fallbackCount (Fallback.stats (Fallback.addScraped s t))
                    = fallbackCount (Fallback.stats s) + 1 /\
                    Fallback.lastTweetCount (Fallback.addScraped s t)
                    = Fallback.lastTweetCount s /\
                    Fallback.unchangedCount (Fallback.addScraped s t)
                    = Fallback.unchangedCount s).
    { assert (Hlen : List.length
                       (Fallback.tweets (Fallback.addScraped s t))
                     = S (List.length (Fallback.tweets s))).
      { rewrite Hadd, length_app. simpl. lia. }
      unfold Fallback.addScraped in *.
      destruct (negb (Fallback.set_has (Fallback.tweets s)
                        (Fallback.id_value t))).
      - repeat split.
      - cbn [Fallback.tweets] in Hlen. lia. }
    destruct Hstep as (Hc & Hl & Hu).
    destruct (IH (Fallback.addScraped s t) Hobj')
      as (H1 & H2 & H3 & H4 & H5 & H6).
    cbn zeta in *.
    split; [exact H1|]. split.
    { rewrite H2, Hadd, length_app. simpl. lia. }
    split.
    { rewrite H3, Hadd. unfold Fallback.stored_ids.
      rewrite flat_map_app. simpl. now rewrite <- app_assoc. }
    split.
    { rewrite H4, Hc. cbn [List.length]. lia. }
    split; congruence.
Qed.

Lemma cycle_settled (s : Fallback.LoopState)
  (elements : list Fallback.Article) :
  settled s ->
  settled (Fallback.cycle s elements) /\
  List.length (Fallback.tweets (Fallback.cycle s elements))
  = (List.length (Fallback.tweets s)
     + List.length (Fallback.scrape elements))%nat /\
  Fallback.stored_ids (Fallback.tweets (Fallback.cycle s elements))
  = (Fallback.stored_ids (Fallback.tweets s)
     ++ List.map Fallback.id (Fallback.scrape elements))%list /\
  fallbackCount (Fallback.stats (Fallback.cycle s elements))
  = fallbackCount (Fallback.stats s)
    + Z.of_nat (List.length (Fallback.scrape elements)) /\
  Fallback.unchangedCount (Fallback.cycle s elements)
  = match Fallback.scrape elements with
    | [] => Fallback.unchangedCount s + 1
    | _ :: _ => 0
    end.
Proof.
  intros [Hobj Hlast]. unfold Fallback.cycle.
  destruct (addScraped_fold (Fallback.scrape elements) s Hobj)
    as (H1 & H2 & H3 & H4 & H6 & H7).
  cbn zeta in *.
  set (s' := fold_left Fallback.addScraped (Fallback.scrape elements) s)
    in *.
  unfold Fallback.noteProgress.
  destruct (Z.of_nat (List.length (Fallback.tweets s'))
            =? Fallback.lastTweetCount s') eqn:E;
    cbn [Fallback.tweets Fallback.stats Fallback.unchangedCount
         Fallback.lastTweetCount Fallback.nextRef].
  - apply Z.eqb_eq in E.
    assert (Hnil : Fallback.scrape elements = []).
    { destruct (Fallback.scrape elements); [reflexivity|].
      simpl in H2. lia. }
    rewrite Hnil in *. unfold settled.
    cbn [Fallback.tweets Fallback.lastTweetCount Fallback.nextRef].
    repeat split; trivial; lia.
  - apply Z.eqb_neq in E.
    assert (Hcons : Fallback.scrape elements <> []).
    { intros Hnil. rewrite Hnil in H2. simpl in H2. lia. }
    unfold settled.
    cbn [Fallback.tweets Fallback.lastTweetCount Fallback.nextRef].
    repeat split; trivial.
    destruct (Fallback.scrape elements); [congruence | reflexivity].
Qed.

Lemma scrollLoop_cyclesRun cfg start :
  forall cycles s,
    settled s ->
    let s' := Fallback.scrollLoop cfg start cycles s in
    let executed :=
      firstn (cyclesRun cfg start (Fallback.unchangedCount s) cycles)
        cycles in
    settled s' /\
    Fallback.stored_ids (Fallback.tweets s')
    = (Fallback.stored_ids (Fallback.tweets s)
       ++ List.map Fallback.id (scrapedIn executed))%list /\
    fallbackCount (Fallback.stats s')
    = fallbackCount (Fallback.stats s)
      + Z.of_nat (List.length (scrapedIn executed)).
Proof.
  induction cycles as [|[now elements] cycles IH]; intros s Hs;
    cbn [Fallback.scrollLoop cyclesRun].
  - cbn zeta. cbn [firstn]. unfold scrapedIn. cbn [flat_map List.map].
    rewrite app_nil_r. cbn [List.length]. repeat split; try apply Hs; lia.
  - destruct ((Fallback.unchangedCount s <? 3)
              && (now - start <? sessionDuration cfg)).
    + destruct (cycle_settled s elements Hs)
        as (Hs' & _ & Hids & Hcount & Hun).
      destruct (IH (Fallback.cycle s elements) Hs')
        as (Hfin & Hids' & Hcount').
      cbn zeta in *. rewrite Hun in Hids', Hcount'.
      cbn [firstn]. unfold scrapedIn in *. cbn [flat_map snd].
      rewrite map_app, length_app, Hids', Hids, Hcount', Hcount.
      rewrite <- app_assoc. repeat split; try apply Hfin; lia.
    + cbn zeta. cbn [firstn]. unfold scrapedIn. cbn [flat_map List.map].
      rewrite app_nil_r. cbn [List.length]. repeat split; try apply Hs; lia.
Qed.

(** X20. The array [collectWithFallback] returns is made before the queued
    task has run and is empty, whatever the page shows.  The task runs the
    scroll cycles while fewer than three in a row showed no element with an
    id and the session time is not over; when it ends, the [Set] holds one
    object for every element with an id scraped in those cycles, in the order
    scraped, and [stats.fallbackCount] has gone up by the number of objects
    in the [Set]. *)
Theorem collectWithFallback_counts_stored
  (cfg : Config) (sessionStartTime : Z)
  (cycles : list (Z * list Fallback.Article)) (st : Stats) :
  let run := Fallback.collectWithFallback cfg sessionStartTime cycles st in
  let executed := firstn (cyclesRun cfg sessionStartTime 0 cycles) cycles in
  Fallback.returned run = [] /\
  Fallback.stored_ids (Fallback.tweets (Fallback.task run))
  = List.map Fallback.id (scrapedIn executed) /\
  List.length (Fallback.tweets (Fallback.task run))
  = List.length (scrapedIn executed) /\
  fallbackCount (Fallback.stats (Fallback.task run))
  = fallbackCount st
    + Z.of_nat (List.length (Fallback.tweets (Fallback.task run))).
Proof.
  cbn zeta. unfold Fallback.collectWithFallback, Fallback.fallbackTask.
  cbn [Fallback.returned Fallback.task Fallback.tweets].
  assert (Hinit : settled (Fallback.mkLoopState [] 0 0 0 st))
    by (split; [constructor | reflexivity]).
  destruct (scrollLoop_cyclesRun cfg sessionStartTime cycles _ Hinit)
    as ([Hobj _] & Hids & Hcount).
  cbn zeta in *.
  cbn [Fallback.tweets Fallback.stats Fallback.unchangedCount] in Hids, Hcount.
  set (s' := Fallback.scrollLoop cfg sessionStartTime cycles
               (Fallback.mkLoopState [] 0 0 0 st)) in *.
  assert (Hlen : List.length (Fallback.stored_ids (Fallback.tweets s'))
                 = List.length (Fallback.tweets s')).
  { clear - Hobj. induction Hobj as [|v l (r & o & -> & _) _ IH];
      [reflexivity|]. simpl. now rewrite IH. }
  simpl in Hids.
  assert (Hsize : List.length (Fallback.tweets s')
                  = List.length
                      (scrapedIn
                         (firstn (cyclesRun cfg sessionStartTime 0 cycles)
                            cycles))).
  { rewrite <- Hlen, Hids. now rewrite length_map. }
  split; [reflexivity|]. split; [exact Hids|]. split; [exact Hsize|].
  rewrite Hcount, Hsize. reflexivity.
Qed.

Lemma scrollLoop_while_posts cfg start rest :
  forall pre s,
    settled s -> Fallback.unchangedCount s = 0 ->
    Forall (showsPosts cfg start) pre ->
    exists s',
      Fallback.scrollLoop cfg start (pre ++ rest)%list s
      = Fallback.scrollLoop cfg start rest s' /\
      settled s' /\ Fallback.unchangedCount s' = 0 /\
      Fallback.stored_ids (Fallback.tweets s')
      = (Fallback.stored_ids (Fallback.tweets s)
         ++ List.map Fallback.id (scrapedIn pre))%list.
Proof.
  induction pre as [|[now elements] pre IH]; intros s Hs Hu Hpre.
  - exists s. simpl. rewrite app_nil_r. auto.
  - inversion Hpre as [|? ? [Htime Hposts] Hpre']; subst.
    cbn [fst snd] in Htime, Hposts.
    cbn [app Fallback.scrollLoop]. rewrite Hu.
    assert (Ht : (now - start <? sessionDuration cfg) = true)
      by now apply Z.ltb_lt.
    rewrite Ht. cbn [Z.ltb Z.compare andb].
    destruct (cycle_settled s elements Hs) as (Hs' & _ & Hids & _ & Hun).
    assert (Hu' : Fallback.unchangedCount (Fallback.cycle s elements) = 0).
    { rewrite Hun. destruct (Fallback.scrape elements); congruence. }
    destruct (IH (Fallback.cycle s elements) Hs' Hu' Hpre')
      as (s' & Heq & Hs'' & Hu'' & Hids').
    exists s'. repeat split; trivial; try apply Hs''.
    rewrite Hids', Hids. unfold scrapedIn. cbn [flat_map snd].
    now rewrite map_app, <- app_assoc.
Qed.

Lemma scrollLoop_empty_cycle cfg start now elements rest s :
  settled s -> Fallback.scrape elements = [] ->
  Fallback.scrollLoop cfg start ((now, elements) :: rest) s = s \/
  exists s',
    Fallback.scrollLoop cfg start ((now, elements) :: rest) s
    = Fallback.scrollLoop cfg start rest s' /\
    settled s' /\
    Fallback.unchangedCount s' = Fallback.unchangedCount s + 1 /\
    Fallback.stored_ids (Fallback.tweets s')
    = Fallback.stored_ids (Fallback.tweets s).
Proof.
  intros Hs Hnil. cbn [Fallback.scrollLoop].
  destruct ((Fallback.unchangedCount s <? 3)
            && (now - start <? sessionDuration cfg)); [|now left].
  right. destruct (cycle_settled s elements Hs) as (Hs' & _ & Hids & _ & Hun).
  rewrite Hnil in *. simpl in Hids. rewrite app_nil_r in Hids.
  exists (Fallback.cycle s elements). auto.
Qed.

(** X21. The stagnation counter of the fallback task's scroll loop counts the
    cycles that show no post with an id, not the cycles that show no new
    post.  While every cycle shows a post and the session time is not over,
    every cycle is run and its posts go into the [Set], whether or not they
    were seen before; and after three cycles in a row without any post the
    loop has stopped, whatever would follow. *)
Theorem collectWithFallback_stagnation
  (cfg : Config) (start : Z) (st : Stats)
  (shown : list (Z * list Fallback.Article)) :
  Forall (showsPosts cfg start) shown ->
  Fallback.stored_ids
    (Fallback.tweets
       (Fallback.task (Fallback.collectWithFallback cfg start shown st)))
  = List.map Fallback.id (scrapedIn shown) /\
  (forall c1 c2 c3 rest,
      Fallback.scrape (snd c1) = [] ->
      Fallback.scrape (snd c2) = [] ->
      Fallback.scrape (snd c3) = [] ->
      Fallback.stored_ids
        (Fallback.tweets
           (Fallback.task
              (Fallback.collectWithFallback cfg start
                 (shown ++ c1 :: c2 :: c3 :: rest)%list st)))
      = List.map Fallback.id (scrapedIn shown)).
Proof.
  intros Hshown.
  assert (Hinit : settled (Fallback.mkLoopState [] 0 0 0 st))
    by (split; [constructor | reflexivity]).
  unfold Fallback.collectWithFallback, Fallback.fallbackTask.
  cbn [Fallback.task]. split.
  - destruct (scrollLoop_while_posts cfg start [] shown _ Hinit eq_refl
                Hshown) as (s' & Heq & _ & _ & Hids).
    rewrite app_nil_r in Heq. rewrite Heq. exact Hids.
  - intros [n1 e1] [n2 e2] [n3 e3] rest H1 H2 H3. cbn [snd] in *.
    destruct (scrollLoop_while_posts cfg start
                ((n1, e1) :: (n2, e2) :: (n3, e3) :: rest) shown _ Hinit
                eq_refl Hshown) as (s0 & Heq & Hs0 & Hu0 & Hids0).
    rewrite Heq. simpl in Hids0.
    destruct (scrollLoop_empty_cycle cfg start n1 e1
                ((n2, e2) :: (n3, e3) :: rest) s0 Hs0 H1)
      as [->|(s1 & -> & Hs1 & Hu1 & Hids1)]; [exact Hids0|].
    destruct (scrollLoop_empty_cycle cfg start n2 e2
                ((n3, e3) :: rest) s1 Hs1 H2)
      as [->|(s2 & -> & Hs2 & Hu2 & Hids2)]; [congruence|].
    destruct (scrollLoop_empty_cycle cfg start n3 e3 rest s2 Hs2 H3)
      as [->|(s3 & -> & Hs3 & Hu3 & Hids3)]; [congruence|].
    assert (Hstop : Fallback.scrollLoop cfg start rest s3 = s3).
    { destruct rest as [|[n e] rest]; [reflexivity|].
      cbn [Fallback.scrollLoop].
      replace (Fallback.unchangedCount s3) with 3 by lia. reflexivity. }
    rewrite Hstop. congruence.
Qed.

Lemma collectWithFallback_stagnation_witness :
  Fallback.stored_ids
    (Fallback.tweets
       (Fallback.task
          (Fallback.collectWithFallback defaultConfig 0 Sample.samePostTwice
             Sample.stats0)))
  = List.map Fallback.id (scrapedIn Sample.samePostTwice).
Proof.
  apply (collectWithFallback_stagnation defaultConfig 0 Sample.stats0
           Sample.samePostTwice).
  repeat constructor; simpl; discriminate.
Defined.

(** ** Tweet filter *)









(** ** Fine-tuning data *)

Example scenario_cleanText :
  Finetuning.cleanText Sample5.post = "gm frens, read now".
Proof. reflexivity. Qed.

Example scenario_generateFinetuningData :
  Finetuning.generateFinetuningData Sample5.timeline = ["gm frens, read now"].
Proof. reflexivity. Qed.

Lemma follows_noStop (stop : ascii -> bool) (out inp : string) :
  follows noStop out inp -> follows stop out inp.
Proof.
  revert inp. induction out as [|c o IH]; intros inp H; [exact I|].
  simpl in *. destruct H as [H | (i & -> & [H | H])].
  - left. exact H.
  - discriminate H.
  - right. exists i. split; [reflexivity|]. right. apply IH, H.
Qed.

Lemma lit_follows (stop : ascii -> bool) (p out inp : string) :
  forallb (fun a => negb (Finetuning.isSpace a) && negb (stop a))
    (list_ascii_of_string p) = true ->
  follows stop out inp ->
  Finetuning.lit p out = true -> Finetuning.lit p inp = true.
Proof.
  unfold Finetuning.lit. revert out inp.
  induction p as [|a p IH]; intros out inp Hp Hf H.
  - destruct out as [|c o]; [discriminate H|]. simpl in H, Hf.
    destruct Hf as [Hs | (i & -> & _)].
    + rewrite Hs in H. discriminate H.
    + exact H.
  - cbn [list_ascii_of_string forallb] in Hp.
    apply andb_prop in Hp. destruct Hp as [Ha Hp].
    apply andb_prop in Ha. destruct Ha as [Ha1 Ha2].
    destruct out as [|c o]; [discriminate H|].
    cbn [Finetuning.after] in H.
    destruct (Ascii.eqb_spec a c) as [<- | ]; [|discriminate H].
    simpl in Hf. destruct Hf as [Hs | (i & -> & [Hs | Hf])].
    + rewrite Hs in Ha1. discriminate Ha1.
    + rewrite Hs in Ha2. discriminate Ha2.
    + cbn [Finetuning.after]. rewrite Ascii.eqb_refl.
      apply (IH o i Hp Hf H).
Qed.

Lemma urlAt_follows (out inp : string) :
  follows isHash out inp ->
  Finetuning.urlAt out = true -> Finetuning.urlAt inp = true.
Proof.
  intros Hf H. unfold Finetuning.urlAt in *.
  apply orb_prop in H. destruct H as [H | H].
  - apply orb_prop in H. destruct H as [H | H].
    + rewrite (lit_follows isHash "http://" _ _ eq_refl Hf H). reflexivity.
    + rewrite (lit_follows isHash "https://" _ _ eq_refl Hf H).
      apply orb_true_iff. left. apply orb_true_r.
  - rewrite (lit_follows isHash "www." _ _ eq_refl Hf H). apply orb_true_r.
Qed.

Lemma tagAt_follows (out inp : string) :
  follows noStop out inp ->
  Finetuning.tagAt out = true -> Finetuning.tagAt inp = true.
Proof.
  intros Hf H. destruct out as [|c [|d o]]; try discriminate H.
  cbn [Finetuning.tagAt] in H. apply andb_prop in H. destruct H as [Hc Hd].
  apply Ascii.eqb_eq in Hc. subst c.
  simpl in Hf. destruct Hf as [Hs | (i & -> & [Hs | [Hs | (j & -> & _)]])];
    try discriminate Hs.
  - unfold Finetuning.tagChar in Hd. rewrite Hs in Hd. discriminate Hd.
  - cbn [Finetuning.tagAt]. rewrite Hd. reflexivity.
Qed.

(** What the patterns share: neither matches at a white-space character, and
    a match carries over along [follows]. *)
Section Occurs.

Variable at_ : string -> bool.
Hypothesis at_space : forall s, at_ (String " " s) = false.
Hypothesis at_follows :
  forall out inp, follows noStop out inp -> at_ out = true -> at_ inp = true.

Lemma at_cons (c : ascii) (out inp : string) :
  follows noStop out inp ->
  at_ (String c inp) = false -> at_ (String c out) = false.
Proof.
  intros Hf H. destruct (at_ (String c out)) eqn:V; [|reflexivity].
  rewrite <- H. symmetry. apply (at_follows (String c out)); [|exact V].
  simpl. right. exists inp. split; [reflexivity|]. right. exact Hf.
Qed.

Lemma collapse_follows (s : string) :
  follows noStop (Finetuning.collapse false s) s.
Proof.
  induction s as [|a s IH]; [exact I|].
  cbn [Finetuning.collapse]. destruct (Finetuning.isSpace a) eqn:Sp.
  - left. reflexivity.
  - right. exists s. split; [reflexivity|]. right. exact IH.
Qed.

Lemma occurs_collapse (b : bool) (s : string) :
  occurs at_ s = false -> occurs at_ (Finetuning.collapse b s) = false.
Proof.
  revert b. induction s as [|a s IH]; intros b H; [exact H|].
  cbn [occurs] in H. apply orb_false_elim in H. destruct H as [Ha Hs].
  cbn [Finetuning.collapse]. destruct (Finetuning.isSpace a) eqn:Sp.
  - destruct b; [apply IH, Hs|].
    cbn [occurs]. rewrite at_space, (IH true Hs). reflexivity.
  - cbn [occurs]. rewrite (IH false Hs), orb_false_r.
    apply (at_cons a _ s (collapse_follows s) Ha).
Qed.

Lemma occurs_trimStart (s : string) :
  occurs at_ s = false -> occurs at_ (Finetuning.trimStart s) = false.
Proof.
  induction s as [|a s IH]; intros H; [exact H|].
  cbn [Finetuning.trimStart]. destruct (Finetuning.isSpace a); [|exact H].
  cbn [occurs] in H. apply orb_false_elim in H. apply IH, H.
Qed.

Lemma trimEnd_follows (s : string) :
  follows noStop (Finetuning.trimEnd s) s.
Proof.
  induction s as [|a s IH]; [exact I|].
  cbn [Finetuning.trimEnd]. destruct (Finetuning.trimEnd s) as [|d r].
  - destruct (Finetuning.isSpace a); [exact I|].
    right. exists s. split; [reflexivity|]. right. exact I.
  - right. exists s. split; [reflexivity|]. right. exact IH.
Qed.

Lemma at_nil : at_ EmptyString = false.
Proof.
  destruct (at_ EmptyString) eqn:V; [|reflexivity].
  apply (at_follows EmptyString (String " " EmptyString) I) in V.
  rewrite at_space in V. discriminate V.
Qed.

Lemma occurs_trimEnd (s : string) :
  occurs at_ s = false -> occurs at_ (Finetuning.trimEnd s) = false.
Proof.
  induction s as [|a s IH]; intros H; [exact H|].
  cbn [occurs] in H. apply orb_false_elim in H. destruct H as [Ha Hs].
  specialize (IH Hs). pose proof (trimEnd_follows s) as Hf.
  cbn [Finetuning.trimEnd]. destruct (Finetuning.trimEnd s) as [|d r].
  - destruct (Finetuning.isSpace a); [exact IH|].
    cbn [occurs]. rewrite at_nil, (at_cons a _ s Hf Ha). reflexivity.
  - cbn [occurs]. rewrite (at_cons a _ s Hf Ha).
    cbn [occurs] in IH. rewrite IH. reflexivity.
Qed.

Lemma occurs_tidied (s : string) :
  occurs at_ s = false ->
  occurs at_ (Finetuning.trim (Finetuning.collapse false s)) = false.
Proof.
  intros H. apply occurs_trimEnd, occurs_trimStart, occurs_collapse, H.
Qed.

End Occurs.

Lemma removeUrls_true_head (s : string) :
  spaceNext (Finetuning.removeUrls true s) = true
  \/ Finetuning.removeUrls true s = EmptyString.
Proof.
  induction s as [|a s IH]; [right; reflexivity|].
  cbn [Finetuning.removeUrls].
  destruct (true && negb (Finetuning.isSpace a)) eqn:B; [exact IH|].
  destruct (Finetuning.urlAt (String a s)); [exact IH|].
  left. simpl in *. destruct (Finetuning.isSpace a); [reflexivity|discriminate B].
Qed.

Lemma removeUrls_follows (s : string) :
  follows noStop (Finetuning.removeUrls false s) s.
Proof.
  induction s as [|a s IH]; [exact I|].
  cbn [Finetuning.removeUrls andb].
  destruct (Finetuning.urlAt (String a s)).
  - destruct (removeUrls_true_head s) as [H | H].
    + destruct (Finetuning.removeUrls true s) as [|c o]; [exact I|].
      left. exact H.
    + rewrite H. exact I.
  - right. exists s. split; [reflexivity|]. right. exact IH.
Qed.

Lemma removeUrls_clean (b : bool) (s : string) :
  hasUrl (Finetuning.removeUrls b s) = false.
Proof.
  unfold hasUrl. revert b. induction s as [|a s IH]; intros b; [reflexivity|].
  cbn [Finetuning.removeUrls].
  destruct (b && negb (Finetuning.isSpace a)); [apply IH|].
  destruct (Finetuning.urlAt (String a s)) eqn:U; [apply IH|].
  cbn [occurs]. rewrite (IH false), orb_false_r.
  destruct (Finetuning.urlAt (String a (Finetuning.removeUrls false s))) eqn:V;
    [|reflexivity].
  rewrite <- U. symmetry. apply (urlAt_follows _ _ ) with (2 := V).
  simpl. right. exists s. split; [reflexivity|]. right.
  apply follows_noStop, removeUrls_follows.
Qed.

Lemma removeHashtags_true_head (s : string) :
  match Finetuning.removeHashtags true s with
  | EmptyString => True
  | String c _ => Finetuning.tagChar c = false
  end.
Proof.
  induction s as [|a s IH]; [exact I|].
  cbn [Finetuning.removeHashtags andb].
  destruct (Finetuning.tagChar a) eqn:T; [exact IH|].
  destruct (Finetuning.tagAt (String a s)); [exact IH | exact T].
Qed.

Lemma tagAt_hash (a : ascii) (s : string) :
  Finetuning.tagAt (String a s) = true -> a = "#"%char.
Proof.
  destruct s as [|d s]; [discriminate|]. cbn [Finetuning.tagAt].
  intros H. apply andb_prop in H. apply Ascii.eqb_eq, H.
Qed.

Lemma removeHashtags_follows (s : string) :
  follows isHash (Finetuning.removeHashtags false s) s.
Proof.
  induction s as [|a s IH]; [exact I|].
  cbn [Finetuning.removeHashtags andb].
  destruct (Finetuning.tagAt (String a s)) eqn:T.
  - apply tagAt_hash in T. subst a.
    pose proof (removeHashtags_true_head s) as H.
    destruct (Finetuning.removeHashtags true s) as [|c o]; [exact I|].
    unfold Finetuning.tagChar in H. apply andb_false_iff in H.
    destruct H as [H | H].
    + left. apply negb_false_iff, H.
    + apply negb_false_iff, Ascii.eqb_eq in H. subst c.
      right. exists s. split; [reflexivity|]. left. reflexivity.
  - right. exists s. split; [reflexivity|]. right. exact IH.
Qed.

Lemma removeHashtags_keeps_clean (b : bool) (s : string) :
  hasUrl s = false -> hasUrl (Finetuning.removeHashtags b s) = false.
Proof.
  unfold hasUrl. revert b. induction s as [|a s IH]; intros b H; [exact H|].
  cbn [occurs] in H. apply orb_false_elim in H. destruct H as [U H].
  cbn [Finetuning.removeHashtags].
  destruct (b && Finetuning.tagChar a); [apply IH, H|].
  destruct (Finetuning.tagAt (String a s)); [apply IH, H|].
  cbn [occurs]. rewrite (IH false H), orb_false_r.
  destruct (Finetuning.urlAt (String a (Finetuning.removeHashtags false s)))
    eqn:V; [|reflexivity].
  rewrite <- U. symmetry. apply (urlAt_follows _ _) with (2 := V).
  simpl. right. exists s. split; [reflexivity|]. right.
  apply removeHashtags_follows.
Qed.

Lemma removeHashtags_head (s : string) (c : ascii) (o : string) :
  Finetuning.removeHashtags false s = String c o ->
  Finetuning.tagChar c = true -> exists s', s = String c s'.
Proof.
  destruct s as [|a s]; [discriminate|].
  cbn [Finetuning.removeHashtags andb].
  destruct (Finetuning.tagAt (String a s)).
  - intros E T. pose proof (removeHashtags_true_head s) as H.
    rewrite E in H. congruence.
  - intros E _. injection E as -> _. exists s. reflexivity.
Qed.

Lemma removeHashtags_clean (b : bool) (s : string) :
  hasTag (Finetuning.removeHashtags b s) = false.
Proof.
  unfold hasTag. revert b. induction s as [|a s IH]; intros b; [reflexivity|].
  cbn [Finetuning.removeHashtags].
  destruct (b && Finetuning.tagChar a); [apply IH|].
  destruct (Finetuning.tagAt (String a s)) eqn:T; [apply IH|].
  cbn [occurs]. rewrite (IH false), orb_false_r.
  destruct (Finetuning.removeHashtags false s) as [|c o] eqn:E; [reflexivity|].
  cbn [Finetuning.tagAt].
  destruct (Ascii.eqb a "#" && Finetuning.tagChar c) eqn:V; [|reflexivity].
  apply andb_prop in V. destruct V as [Va Vc].
  destruct (removeHashtags_head s c o E Vc) as (s' & ->).
  cbn [Finetuning.tagAt] in T. rewrite Va, Vc in T. discriminate T.
Qed.

Lemma urlAt_space (s : string) : Finetuning.urlAt (String " " s) = false.
Proof. reflexivity. Qed.

Lemma tagAt_space (s : string) : Finetuning.tagAt (String " " s) = false.
Proof. destruct s; reflexivity. Qed.

Lemma urlAt_follows_noStop (out inp : string) :
  follows noStop out inp ->
  Finetuning.urlAt out = true -> Finetuning.urlAt inp = true.
Proof. intros H. apply urlAt_follows, follows_noStop, H. Qed.

Lemma cleanText_no_url (s : string) : hasUrl (Finetuning.cleanText s) = false.
Proof.
  unfold Finetuning.cleanText, hasUrl.
  apply (occurs_tidied _ urlAt_space urlAt_follows_noStop).
  apply removeHashtags_keeps_clean, removeUrls_clean.
Qed.

Lemma cleanText_no_tag (s : string) : hasTag (Finetuning.cleanText s) = false.
Proof.
  unfold Finetuning.cleanText, hasTag.
  apply (occurs_tidied _ tagAt_space tagAt_follows).
  apply removeHashtags_clean.
Qed.

Lemma collapse_true_head (s : string) :
  spaceNext (Finetuning.collapse true s) = false.
Proof.
  induction s as [|a s IH]; [reflexivity|].
  cbn [Finetuning.collapse]. destruct (Finetuning.isSpace a) eqn:Sp.
  - exact IH.
  - exact Sp.
Qed.

Lemma collapse_loose (b : bool) (s : string) :
  loose (Finetuning.collapse b s) = true.
Proof.
  revert b. induction s as [|a s IH]; intros b; [reflexivity|].
  cbn [Finetuning.collapse]. destruct (Finetuning.isSpace a) eqn:Sp.
  - destruct b; [apply IH|].
    cbn [loose]. rewrite collapse_true_head, IH. reflexivity.
  - cbn [loose]. rewrite Sp, IH. reflexivity.
Qed.

Lemma loose_tail (a : ascii) (s : string) :
  loose (String a s) = true -> loose s = true.
Proof. cbn [loose]. intros H. apply andb_prop in H. apply H. Qed.

Lemma trimStart_loose (s : string) :
  loose s = true -> loose (Finetuning.trimStart s) = true.
Proof.
  induction s as [|a s IH]; intros H; [exact H|].
  cbn [Finetuning.trimStart]. destruct (Finetuning.isSpace a); [|exact H].
  apply IH, (loose_tail a s H).
Qed.

Lemma trimStart_head (s : string) :
  spaceNext (Finetuning.trimStart s) = false.
Proof.
  induction s as [|a s IH]; [reflexivity|].
  cbn [Finetuning.trimStart]. destruct (Finetuning.isSpace a) eqn:Sp.
  - exact IH.
  - exact Sp.
Qed.

Lemma trimEnd_cons (c : ascii) (s : string) :
  Finetuning.isSpace c = false ->
  exists r, Finetuning.trimEnd (String c s) = String c r.
Proof.
  intros Sp. cbn [Finetuning.trimEnd].
  destruct (Finetuning.trimEnd s); rewrite ?Sp; eauto.
Qed.

Lemma trimEnd_spaced (s : string) :
  loose s = true -> spaced (Finetuning.trimEnd s) = true.
Proof.
  induction s as [|a s IH]; intros H; [reflexivity|].
  pose proof (IH (loose_tail a s H)) as IHs.
  cbn [loose] in H. apply andb_prop in H. destruct H as [Ha _].
  cbn [Finetuning.trimEnd].
  destruct (Finetuning.trimEnd s) as [|d r] eqn:E.
  - destruct (Finetuning.isSpace a) eqn:Sp; [reflexivity|].
    cbn [spaced]. rewrite Sp. reflexivity.
  - cbn [spaced]. cbn [spaced] in IHs. rewrite IHs, andb_true_r.
    destruct (Finetuning.isSpace a) eqn:Sp; [|reflexivity].
    apply andb_prop in Ha. destruct Ha as [Ha Hn]. rewrite Ha.
    destruct s as [|d' s']; [discriminate E|].
    cbn [spaceNext] in Hn. apply negb_true_iff in Hn.
    destruct (trimEnd_cons d' s' Hn) as (r' & E'). rewrite E' in E.
    injection E as -> _. cbn [Finetuning.nonSpaceNext]. rewrite Hn.
    reflexivity.
Qed.

Lemma cleanText_tidy (s : string) :
  Finetuning.cleanText s <> EmptyString -> tidy (Finetuning.cleanText s) = true.
Proof.
  unfold Finetuning.cleanText, Finetuning.trim.
  set (x := Finetuning.collapse false _). intros Hne.
  unfold tidy. apply andb_true_intro. split.
  - pose proof (trimStart_head x) as Hh.
    destruct (Finetuning.trimStart x) as [|c y]; [elim Hne; reflexivity|].
    cbn [spaceNext] in Hh. destruct (trimEnd_cons c y Hh) as (r & ->).
    cbn [Finetuning.nonSpaceNext]. rewrite Hh. reflexivity.
  - apply trimEnd_spaced, trimStart_loose, collapse_loose.
Qed.

Lemma texts_In (e : string) (l : list (option string)) :
  In e (Finetuning.texts l) <-> In (Some e) l /\ e <> EmptyString.
Proof.
  induction l as [|x l IH]; [simpl; tauto|].
  cbn [Finetuning.texts]. destruct x as [s|]; cbn [Finetuning.filled].
  - destruct s as [|c s]; cbn [length Nat.ltb Nat.leb].
    + rewrite IH. simpl. split.
      * intros [H1 H2]. split; [right; exact H1 | exact H2].
      * intros [[H1 | H1] H2]; [|split; assumption].
        injection H1 as <-. elim H2. reflexivity.
    + simpl. rewrite IH. split.
      * intros [<- | [H1 H2]]; [split; [left; reflexivity | discriminate]|].
        split; [right; exact H1 | exact H2].
      * intros [[H1 | H1] H2]; [left; congruence | right; split; assumption].
  - rewrite IH. simpl. split.
    + intros [H1 H2]. split; [right; exact H1 | exact H2].
    + intros [[H1 | H1] H2]; [discriminate H1 | split; assumption].
Qed.

Lemma truthy_str_iff (s : string) : truthy_str s = true <-> s <> EmptyString.
Proof.
  unfold truthy_str. rewrite negb_true_iff. split.
  - intros H ->. discriminate H.
  - intros H. apply String.eqb_neq, H.
Qed.

Lemma generated_from (tweets : list Tweet) (e : string) :
  In e (Finetuning.generateFinetuningData tweets) <->
  e <> EmptyString /\ exists tweet, In tweet tweets /\ sourceOf e tweet.
Proof.
  unfold Finetuning.generateFinetuningData. rewrite texts_In, in_map_iff.
  split.
  - intros [(t & He & Ht) Hne]. split; [exact Hne|].
    apply filter_In in Ht. destruct Ht as [Ht Hk]. exists t.
    split; [exact Ht|]. unfold Finetuning.kept in Hk.
    apply andb_prop in Hk. destruct Hk as [Hk Hts].
    apply andb_prop in Hk. destruct Hk as [Hrt Htx].
    unfold sourceOf, Finetuning.entry in *.
    destruct (text t) as [s|]; [|discriminate He].
    split; [apply negb_true_iff, Hrt|]. split.
    + destruct (timestamp t); [discriminate | discriminate Hts].
    + exists s. split; [reflexivity|]. split.
      * apply truthy_str_iff, Htx.
      * destruct (truthy_str (Finetuning.cleanText s)); congruence.
  - intros [Hne (t & Ht & Hrt & Hts & s & Htx & Hs & Hc)].
    split; [|exact Hne]. exists t. split.
    + unfold Finetuning.entry. rewrite Htx, Hc.
      apply truthy_str_iff in Hne. rewrite Hne. reflexivity.
    + apply filter_In. split; [exact Ht|]. unfold Finetuning.kept.
      rewrite Hrt, Htx. cbn [truthy_ostr negb andb].
      apply truthy_str_iff in Hs. rewrite Hs.
      destruct (timestamp t); [reflexivity | elim Hts; reflexivity].
Qed.

Lemma removeUrls_id (s : string) :
  hasUrl s = false -> Finetuning.removeUrls false s = s.
Proof.
  unfold hasUrl. induction s as [|a s IH]; intros H; [reflexivity|].
  cbn [occurs] in H. apply orb_false_elim in H. destruct H as [U H].
  cbn [Finetuning.removeUrls andb]. rewrite U, (IH H). reflexivity.
Qed.

Lemma removeHashtags_id (s : string) :
  hasTag s = false -> Finetuning.removeHashtags false s = s.
Proof.
  unfold hasTag. induction s as [|a s IH]; intros H; [reflexivity|].
  cbn [occurs] in H. apply orb_false_elim in H. destruct H as [U H].
  cbn [Finetuning.removeHashtags andb]. rewrite U, (IH H). reflexivity.
Qed.

Lemma collapse_id (b : bool) (s : string) :
  spaced s = true -> (b = true -> spaceNext s = false) ->
  Finetuning.collapse b s = s.
Proof.
  revert b. induction s as [|a s IH]; intros b H Hb; [reflexivity|].
  cbn [spaced] in H. apply andb_prop in H. destruct H as [Ha Hs].
  cbn [Finetuning.collapse]. destruct (Finetuning.isSpace a) eqn:Sp.
  - apply andb_prop in Ha. destruct Ha as [Ha Hn].
    apply Ascii.eqb_eq in Ha. subst a.
    destruct b.
    + specialize (Hb eq_refl). cbn [spaceNext] in Hb. congruence.
    + rewrite (IH true Hs); [reflexivity|]. intros _.
      destruct s as [|d s]; [reflexivity|]. cbn [Finetuning.nonSpaceNext] in Hn.
      apply negb_true_iff, Hn.
  - rewrite (IH false Hs); [reflexivity | discriminate].
Qed.

Lemma trimEnd_id (s : string) : spaced s = true -> Finetuning.trimEnd s = s.
Proof.
  induction s as [|a s IH]; intros H; [reflexivity|].
  cbn [spaced] in H. apply andb_prop in H. destruct H as [Ha Hs].
  cbn [Finetuning.trimEnd]. rewrite (IH Hs). destruct s as [|d s].
  - destruct (Finetuning.isSpace a); [|reflexivity].
    apply andb_prop in Ha. destruct Ha as [_ Ha]. discriminate Ha.
  - reflexivity.
Qed.

Lemma trim_id (s : string) : tidy s = true -> Finetuning.trim s = s.
Proof.
  unfold tidy, Finetuning.trim. intros H.
  apply andb_prop in H. destruct H as [Hh Hs].
  destruct s as [|a s]; [discriminate Hh|].
  cbn [Finetuning.nonSpaceNext] in Hh. apply negb_true_iff in Hh.
  cbn [Finetuning.trimStart]. rewrite Hh. apply trimEnd_id, Hs.
Qed.

(** X23. Every entry of [generateFinetuningData] is the cleaned text of one
    of the tweets, and that tweet is not a retweet and has a text and a
    timestamp.  The entry is not empty, does not begin or end with white
    space, and its only white-space characters are single spaces between
    words. *)
Theorem generateFinetuningData_entries (tweets : list Tweet) (e : string) :
  In e (Finetuning.generateFinetuningData tweets) ->
  tidy e = true /\ exists tweet, In tweet tweets /\ sourceOf e tweet.
Proof.
  intros H. apply generated_from in H.
  destruct H as [Hne (t & Ht & Hsrc)]. split.
  - destruct Hsrc as (_ & _ & s & _ & _ & <-). apply cleanText_tidy, Hne.
  - exists t. split; assumption.
Qed.

Lemma generateFinetuningData_entries_witness :
  tidy "gm frens, read now" = true.
Proof.
  apply (generateFinetuningData_entries Sample5.timeline "gm frens, read now"
           (or_introl eq_refl)).
Defined.

(** X24. No entry of [generateFinetuningData] holds a match of the URL
    pattern ([http://], [https://] or [www.] followed by a character that is
    not white space) or of the hashtag pattern ([#] followed by a character
    that is neither white space nor [#]): removing the hashtags and tidying
    the white space does not bring a match back. *)
Theorem generateFinetuningData_no_links_or_tags
  (tweets : list Tweet) (e : string) :
  In e (Finetuning.generateFinetuningData tweets) ->
  hasUrl e = false /\ hasTag e = false.
Proof.
  intros H. apply generated_from in H.
  destruct H as [_ (t & _ & _ & _ & s & _ & _ & <-)]. split.
  - apply cleanText_no_url.
  - apply cleanText_no_tag.
Qed.

Lemma generateFinetuningData_no_links_or_tags_witness :
  hasUrl "gm frens, read now" = false /\ hasTag "gm frens, read now" = false.
Proof.
  apply (generateFinetuningData_no_links_or_tags Sample5.timeline
           "gm frens, read now" (or_introl eq_refl)).
Defined.

(** X25. The chain of replacements that [generateFinetuningData] applies to a
    tweet's text (URLs removed, hashtags removed, white space collapsed,
    trimmed) is idempotent: applied to its own result it changes nothing. *)
Theorem cleanText_idempotent (s : string) :
  Finetuning.cleanText (Finetuning.cleanText s) = Finetuning.cleanText s.
Proof.
  pose proof (cleanText_no_url s) as Hu.
  pose proof (cleanText_no_tag s) as Ht.
  destruct (String.eqb_spec (Finetuning.cleanText s) EmptyString) as [E | Hne].
  - rewrite E. reflexivity.
  - pose proof (cleanText_tidy s Hne) as Hy.
    revert Hu Ht Hy. generalize (Finetuning.cleanText s) as e.
    intros e Hu Ht Hy. unfold Finetuning.cleanText.
    rewrite (removeUrls_id e Hu), (removeHashtags_id e Ht).
    rewrite (collapse_id false e); [apply trim_id, Hy | | discriminate].
    unfold tidy in Hy. apply andb_prop in Hy. apply Hy.
Qed.
